(** * sdc-cn-agent: task dispatcher and dummy-backend tasks

    A shallow embedding of
    - [lib/task_agent/task_agent.js] (the request handler installed by
      [TaskAgent.prototype.setupTaskRoutes]), and
    - [lib/backends/dummy/tasks/machine_create.js] (the payload mapper, the
      step pipeline of [machine_create], and the recovery-configuration task
      that follows it in the same file),
    together with the properties the specification states about them.

    Conventions.
    - The handler is a function from the agent and the request to the list
      of effects it has on [res], [next], the connections and the log; a
      task entry point is the list of calls it makes on the context.
    - A task body is a computation in the writer monad [Flow.W]: it records
      the calls it makes on the task runtime and on its collaborators, and
      ends like a callback-style function does (see [Flow.outcome]).
    - Objects the code creates with [{}] and reads by a caller-chosen key
      ([dispatch], the payload tables) are modelled with the members they
      inherit from [Object.prototype].
    - What lives outside the two files is a parameter: the text ToString
      gives to a number, array or object ([render]), the pattern of
      [assert.uuid] ([is_uuid]), the digest functions, and the answers of
      [vmadm], [common], [fs], [dns] and the KBMAPI client.  The task
      runtime of lib/task_agent/task.js is modelled from the specification
      and marked as such.
    - Numbers are integers; the code only copies and tests them.
    - [repeatableUUIDFromHexString] is also embedded on its own, over the
      bytes of a buffer, in [Uuid]; the recovery task is stated for any
      function in its place. *)

From Stdlib Require Import ZArith String Ascii List Bool Lia Sorted.
From stdpp Require Import base option list gmap strings pretty.
Import ListNotations.

Set Warnings "-register-all".
Local Open Scope string_scope.
Local Open Scope list_scope.

(** ** JavaScript values *)

Module JS.

(** The values that travel through the agent: JSON data plus [undefined].
    An object is the list of its own enumerable properties in the order
    [Object.keys] reports them. *)
Inductive jsval : Type :=
| JUndefined
| JNull
| JBool (b : bool)
| JNum (n : Z)
| JStr (s : string)
| JArr (elems : list jsval)
| JObj (props : list (string * jsval)).

(** ToBoolean, as used by [if (x)]. *)
Definition truthy (v : jsval) : bool :=
  match v with
  | JUndefined | JNull => false
  | JBool b => b
  | JNum n => negb (n =? 0)%Z
  | JStr EmptyString => false
  | JStr (String _ _) => true
  | JArr _ | JObj _ => true
  end.

(** [x === undefined] *)
Definition is_undefined (v : jsval) : bool :=
  match v with JUndefined => true | _ => false end.

(** [x === 'literal'] for a string literal. *)
Definition strict_eq_str (v : jsval) (s : string) : bool :=
  match v with JStr t => String.eqb t s | _ => false end.

(** ToString.  The conversion is fixed by the language for strings,
    [undefined], [null] and booleans; for numbers, arrays and objects the
    text is supplied by [render]. *)
Definition to_string (render : jsval -> string) (v : jsval) : string :=
  match v with
  | JStr s => s
  | JUndefined => "undefined"
  | JNull => "null"
  | JBool true => "true"
  | JBool false => "false"
  | _ => render v
  end.

(** The names every object literal inherits from [Object.prototype]. *)
Definition object_prototype_keys : list string :=
  [ "constructor"; "__defineGetter__"; "__defineSetter__"; "hasOwnProperty";
    "__lookupGetter__"; "__lookupSetter__"; "isPrototypeOf";
    "propertyIsEnumerable"; "toString"; "valueOf"; "__proto__";
    "toLocaleString" ].

Definition inherited (k : string) : bool :=
  existsb (String.eqb k) object_prototype_keys.

(** Reading an own property: the first entry under the key. *)
Fixpoint prop_get {A} (key : string) (props : list (string * A)) : option A :=
  match props with
  | [] => None
  | p :: rest =>
      if String.eqb key (fst p) then Some (snd p) else prop_get key rest
  end.

(** Writing an own property: in place when the key exists, which keeps the
    enumeration order, at the end otherwise. *)
Fixpoint prop_set {A} (key : string) (v : A) (props : list (string * A))
  : list (string * A) :=
  match props with
  | [] => [(key, v)]
  | p :: rest =>
      if String.eqb key (fst p) then (key, v) :: rest
      else p :: prop_set key v rest
  end.

(** [typeof v === 'object' && v !== null], the test behind [assert.object]. *)
Definition is_object (v : jsval) : bool :=
  match v with JObj _ | JArr _ => true | _ => false end.

(** The own enumerable properties of a value: those of an object, the
    indexed elements of an array. *)
Definition own_props (v : jsval) : list (string * jsval) :=
  match v with
  | JObj props => props
  | JArr elems => imap (fun i x => (pretty i, x)) elems
  | _ => []
  end.

(** [Object.keys(v)] *)
Definition keys (v : jsval) : list string := map fst (own_props v).

(** [v[key]] for a name that is an own property or is found nowhere on the
    prototype chain (every name read this way below is of that kind). *)
Definition get (v : jsval) (key : string) : jsval :=
  default JUndefined (prop_get key (own_props v)).

(** The double-quote character, for messages that quote identifiers. *)
Definition dquote : string := String (ascii_of_nat 34) EmptyString.

End JS.

Import JS.

(** ** The dispatcher: [task_agent.js] *)

Module TaskAgent.

(** What a task implementation can do with the context it is handed:
    [finish()], [progress(v)] and [event(name, message)]. *)
Inductive signal : Type :=
| SFinish
| SProgress (v : jsval)
| SEvent (name : string) (message : jsval).

(** The data fields of the object [params] built at lines 150-156. *)
Record task_ctx : Type := {
  ctx_req_id : string;
  ctx_req_host : jsval;
  ctx_serverAddress : jsval;
  ctx_task : jsval;
  ctx_params : jsval;
  ctx_sysinfo : jsval
}.

(** A task entry point ([onhttpmsg]) is characterised by the calls it makes,
    in order, on the context's three primitives. *)
Definition task_fn : Type := task_ctx -> list signal.

(** A queue definition as [useQueues] receives it: the task names are
    strings and [onhttpmsg] is a function. *)
Record queue_defn : Type := {
  tasks : list string;
  onhttpmsg : task_fn;
  log_params : option bool          (* [None]: the property is not set *)
}.

Record agent : Type := {
  uuid : string;
  timeoutSeconds : Z;
  sysinfo : jsval;
  serverAddress : jsval;
  queueDefns : list queue_defn
}.

(** The transport's request: the [x-server-uuid] header, the own properties
    of [req.params] (so that [req.params.hasOwnProperty(k)] is membership
    of [k]), the request id and the [host] header. *)
Record request : Type := {
  header_x_server_uuid : option string;
  params : gmap string jsval;
  getId : string;
  headers_host : jsval
}.

Inductive rest_error : Type :=
| InternalError (message : string)
| InvalidArgumentError (message : string)
| ResourceNotFoundError (format : string) (arg : jsval).

(** What the handler does to the outside world, in the order it does it:
    - [Next err]: [next(err)], or [next()] for [None];
    - [Send status body]: [res.send(status, body)];
    - [ReqSetTimeout], [ResSetTimeout]: the two [connection.setTimeout];
    - [LogTaskParams], [LogNotLoggingParams]: the two forms of line 125-130;
    - [LogTraceEvent]: the 'Received event' trace line;
    - [Invoke key ctx]: the registered entry point under [key] is called;
    - [CallInherited key ctx]: [dispatch[key]] is a function inherited from
      [Object.prototype], and it is called with the context;
    - [ThrowNotAFunction key]: [dispatch[key]] is truthy and not callable;
    - [ThroughFunction key]: see [dispatch_get] below. *)
Inductive effect : Type :=
| Next (err : option rest_error)
| Send (status : Z) (body : jsval)
| ReqSetTimeout (ms : Z)
| ResSetTimeout (ms : Z)
| LogTaskParams (req_params : gmap string jsval) (taskName : jsval)
| LogNotLoggingParams (taskName : jsval)
| LogTraceEvent (name : string) (message : jsval)
| Invoke (key : string) (ctx : task_ctx)
| CallInherited (key : string) (ctx : task_ctx)
| ThrowNotAFunction (key : string)
| ThroughFunction (key : string).

(** *** The completion counter *)

(** The variables [value], [error] and [cbcount] of one request. *)
Record closure : Type := {
  value : jsval;
  error : jsval;
  cbcount : Z
}.

Definition closure0 : closure :=
  {| value := JUndefined; error := JUndefined; cbcount := 0 |}.

(** [cbcount++] on an IEEE double: beyond 2^53 the increment is absorbed. *)
Definition incr (n : Z) : Z :=
  if (n <? 2 ^ 53)%Z then (n + 1)%Z else n.

Definition fcb (c : closure) : closure * list effect :=
  let c :=
    {| value := value c; error := error c; cbcount := incr (cbcount c) |} in
  if (cbcount c =? 2)%Z then
    if truthy (error c) then (c, [Send 500 (error c); Next None])
    else (c, [Send 200 (value c); Next None])
  else (c, []).

Definition finish (c : closure) : closure * list effect := fcb c.

Definition progress (v : jsval) (c : closure) : closure * list effect :=
  (c, []).

Definition event (name : string) (message : jsval) (c : closure)
  : closure * list effect :=
  let '(c, out) :=
    if String.eqb name "finish" then
      fcb {| value := message; error := error c; cbcount := cbcount c |}
    else if String.eqb name "error" then
      ({| value := value c; error := message; cbcount := cbcount c |}, [])
    else (c, [])
  in (c, LogTraceEvent name message :: out).

Definition deliver (s : signal) (c : closure) : closure * list effect :=
  match s with
  | SFinish => finish c
  | SProgress v => progress v c
  | SEvent name message => event name message c
  end.

(** The task's calls, delivered one after the other. *)
Fixpoint run (sigs : list signal) (c : closure) : closure * list effect :=
  match sigs with
  | [] => (c, [])
  | s :: sigs' =>
      let '(c1, out1) := deliver s c in
      let '(c2, out2) := run sigs' c1 in
      (c2, out1 ++ out2)
  end.

(** *** The dispatch table *)

(** [var dispatch = {}] after the two nested [forEach] loops.  Assigning to
    the name [__proto__] goes to the inherited setter and makes the assigned
    function the table's prototype instead of creating an own property;
    reading [__proto__] gives the prototype back.  Once the prototype is a
    function, a name that is not an own property is looked up in that
    function's chain, which is not followed here ([MThroughFunction]). *)
Record dispatch_table : Type := {
  own : gmap string task_fn;
  proto : option task_fn
}.

Definition dispatch_empty : dispatch_table := {| own := ∅; proto := None |}.

Definition dispatch_set (j : string) (f : task_fn) (d : dispatch_table)
  : dispatch_table :=
  if String.eqb j "__proto__" then {| own := own d; proto := Some f |}
  else {| own := <[j := f]> (own d); proto := proto d |}.

Inductive member : Type :=
| MFunction (f : task_fn)   (* a registered entry point *)
| MInherited                (* a function inherited from Object.prototype *)
| MObjectPrototype          (* Object.prototype: truthy, not callable *)
| MThroughFunction          (* the lookup goes on in a function's chain *)
| MUndefined.

(** [dispatch[key]] *)
Definition dispatch_get (d : dispatch_table) (key : string) : member :=
  if String.eqb key "__proto__" then
    match proto d with
    | Some f => MFunction f
    | None => MObjectPrototype
    end
  else
    match own d !! key with
    | Some f => MFunction f
    | None =>
        match proto d with
        | Some _ => MThroughFunction
        | None => if inherited key then MInherited else MUndefined
        end
    end.

(** Lines 107 and 115-123: both loops, threading [logParams] and [dispatch]. *)
Definition scan_tasks (taskName : jsval) (i : queue_defn)
    (st : bool * dispatch_table) : bool * dispatch_table :=
  fold_left
    (fun '(logParams, dispatch) j =>
       (if strict_eq_str taskName j &&
           match log_params i with Some false => true | _ => false end
        then false else logParams,
        dispatch_set j (onhttpmsg i) dispatch))
    (tasks i) st.

Definition scan_queues (taskName : jsval) (defns : list queue_defn)
  : bool * dispatch_table :=
  fold_left (fun st i => scan_tasks taskName i st) defns (true, dispatch_empty).

(** Lines 125-130. *)
Definition log_task_params (logParams : bool) (req : request) (taskName : jsval)
  : list effect :=
  if logParams then [LogTaskParams (params req) taskName]
  else [LogNotLoggingParams taskName].

Section Handler.

(** The text ToString gives to numbers, arrays and objects. *)
Variable render : jsval -> string.

Definition wrong_server_message (we received : string) : string :=
  "received request for wrong server" +:+ ". we are: " +:+ dquote +:+ we +:+
  dquote +:+ " received: " +:+ dquote +:+ received +:+ dquote.

Definition make_ctx (self : agent) (req : request) : task_ctx :=
  {| ctx_req_id := getId req;
     ctx_req_host := headers_host req;
     ctx_serverAddress := serverAddress self;
     ctx_task := default JUndefined (params req !! "task");
     ctx_params := default JUndefined (params req !! "params");
     ctx_sysinfo := sysinfo self |}.

(** Lines 174-181: [dispatch[req.params.task]] and what is done with it. *)
Definition call_task (dispatch : dispatch_table) (taskName : jsval)
    (ctx : task_ctx) : list effect :=
  let key := to_string render taskName in
  match dispatch_get dispatch key with
  | MFunction f => Invoke key ctx :: snd (run (f ctx) closure0)
  | MInherited => [CallInherited key ctx]
  | MObjectPrototype => [ThrowNotAFunction key]
  | MThroughFunction => [ThroughFunction key]
  | MUndefined =>
      [Next (Some (ResourceNotFoundError "Unknown task, '%s'" taskName))]
  end.

(** Lines 105-130: what happens between the envelope checks and the call. *)
Definition prepare (self : agent) (req : request) : list effect :=
  let taskName := default JUndefined (params req !! "task") in
  let ms := ((timeoutSeconds self + 300) * 1000)%Z in
  [ReqSetTimeout ms; ResSetTimeout ms] ++
  log_task_params (fst (scan_queues taskName (queueDefns self))) req taskName.

(** Lines 93-181: the handler once the target check has passed. *)
Definition handler_checked (self : agent) (req : request) : list effect :=
  match params req !! "task" with
  | None => [Next (Some (InvalidArgumentError "Missing key 'task'"))]
  | Some taskName =>
      match params req !! "params" with
      | None => [Next (Some (InvalidArgumentError "Missing key 'params'"))]
      | Some _ =>
          prepare self req ++
          call_task (snd (scan_queues taskName (queueDefns self))) taskName
                    (make_ctx self req)
      end
  end.

(** [function handler(req, res, next)], lines 83-182. *)
Definition handler (self : agent) (req : request) : list effect :=
  match header_x_server_uuid req with
  | Some target =>
      if negb (String.eqb target (uuid self)) then
        [Next (Some (InternalError (wrong_server_message (uuid self) target)))]
      else handler_checked self req
  | None => handler_checked self req
  end.

End Handler.

(** *** Observations on the handler's effects *)

(** The responses written with [res.send], in order. *)
Definition responses (out : list effect) : list (Z * jsval) :=
  omap (fun e => match e with Send st b => Some (st, b) | _ => None end) out.

(** A call that reaches [fcb]: [finish()] or [event('finish', message)]. *)
Definition is_ack (s : signal) : bool :=
  match s with
  | SFinish => true
  | SEvent name _ => String.eqb name "finish"
  | SProgress _ => false
  end.

Fixpoint acks (sigs : list signal) : nat :=
  match sigs with
  | [] => 0
  | s :: sigs' => (if is_ack s then 1 else 0) + acks sigs'
  end.

(** The payload of the latest [event(channel, payload)] among [sigs], or
    [init] when there is none. *)
Definition recorded (channel : string) (sigs : list signal) (init : jsval)
  : jsval :=
  fold_left
    (fun v s =>
       match s with
       | SEvent name m => if String.eqb name channel then m else v
       | _ => v
       end)
    sigs init.

(** The (task name, queue definition) pairs in the order the two nested
    [forEach] loops visit them. *)
Definition visits (defns : list queue_defn) : list (string * queue_defn) :=
  flat_map (fun i => map (fun j => (j, i)) (tasks i)) defns.

(** One iteration of the inner loop, lines 117-121. *)
Definition visit (taskName : jsval) (st : bool * dispatch_table)
    (v : string * queue_defn) : bool * dispatch_table :=
  (if strict_eq_str taskName (fst v) &&
      match log_params (snd v) with Some false => true | _ => false end
   then false else fst st,
   dispatch_set (fst v) (onhttpmsg (snd v)) (snd st)).

Definition registered (defns : list queue_defn) (t : string) : Prop :=
  exists i, In (t, i) (visits defns).

(** The request carries no [x-server-uuid] header, or ours. *)
Definition for_this_server (self : agent) (req : request) : bool :=
  match header_x_server_uuid req with
  | Some target => String.eqb target (uuid self)
  | None => true
  end.

(** The request passes the three checks and its task name resolves to the
    entry point [f]. *)
Definition resolves (render : jsval -> string) (self : agent) (req : request)
    (f : task_fn) : Prop :=
  for_this_server self req = true /\
  is_Some (params req !! "params") /\
  exists taskName, params req !! "task" = Some taskName /\
    dispatch_get (snd (scan_queues taskName (queueDefns self)))
                 (to_string render taskName) = MFunction f.



End TaskAgent.

(** ** Asynchronous control flow shared by the task bodies *)

Module Flow.

(** A JavaScript error value as the task bodies meet it: an [Error] object
    with its message, or any other value handed to a callback as [err]. *)
Inductive js_error : Type :=
| Error (message : string)
| Raw (v : jsval).

(** [err.message] *)
Definition message_of (e : js_error) : jsval :=
  match e with
  | Error m => JStr m
  | Raw (JObj props) => default JUndefined (prop_get "message" props)
  | Raw _ => JUndefined
  end.

(** How a callback-style operation ends: it calls back without an error, it
    calls back with one (a truthy [err]), it never calls back, or it throws.
    [Beyond] marks the few places where a run leaves what is modelled: an
    assignment that replaces an object's prototype, a named property set on
    an array, the keys of a string. *)
Inductive outcome (A : Type) : Type :=
| Returned (a : A)
| Failed (err : js_error)
| Stalled
| Thrown (what : string)
| Beyond (what : string).

Arguments Returned {A} a.
Arguments Failed {A} err.
Arguments Stalled {A}.
Arguments Thrown {A} what.
Arguments Beyond {A} what.

(** A computation that records observations of type [E] as it goes. *)
Definition W (E A : Type) : Type := list E * outcome A.

Definition ret {E A} (a : A) : W E A := ([], Returned a).

Definition bind {E A B} (m : W E A) (k : A -> W E B) : W E B :=
  match m with
  | (t, Returned a) => let '(t', r) := k a in (t ++ t', r)
  | (t, Failed e) => (t, Failed e)
  | (t, Stalled) => (t, Stalled)
  | (t, Thrown w) => (t, Thrown w)
  | (t, Beyond w) => (t, Beyond w)
  end.

Definition emit {E} (e : E) : W E unit := ([e], Returned tt).
Definition fail {E A} (e : js_error) : W E A := ([], Failed e).
Definition stall {E A} : W E A := ([], Stalled).
Definition throw {E A} (what : string) : W E A := ([], Thrown what).
Definition beyond {E A} (what : string) : W E A := ([], Beyond what).

(** [vasync.pipeline] and [vasync.waterfall] over steps that share one
    argument: the steps run in order, the first error skips the rest. *)
Fixpoint in_order {E A} (funcs : list (A -> W E A)) (arg : A) : W E A :=
  match funcs with
  | [] => ret arg
  | f :: funcs' => bind (f arg) (in_order funcs')
  end.

(** The final callback [function (err) { ... }] of a pipeline. *)
Definition finally {E A B} (m : W E A) (callback : option js_error -> W E B)
  : W E B :=
  match m with
  | (t, Returned _) => let '(t', r) := callback None in (t ++ t', r)
  | (t, Failed e) => let '(t', r) := callback (Some e) in (t ++ t', r)
  | (t, Stalled) => (t, Stalled)
  | (t, Thrown w) => (t, Thrown w)
  | (t, Beyond w) => (t, Beyond w)
  end.

(** A loop [for (idx = 0; idx < xs.length; idx++)] that updates [acc]. *)
Fixpoint for_each {E A B} (body : B -> A -> W E A) (xs : list B) (acc : A)
  : W E A :=
  match xs with
  | [] => ret acc
  | x :: xs' => bind (body x acc) (for_each body xs')
  end.

(** [o[key] = v] on an object that started as [{}].  The name [__proto__]
    reaches the inherited setter: a primitive is ignored by it, an object,
    array or [null] replaces the prototype. *)
Definition set_property {E} (key : string) (v : jsval)
    (o : list (string * jsval)) : W E (list (string * jsval)) :=
  if String.eqb key "__proto__" then
    match v with
    | JObj _ | JArr _ | JNull => beyond "prototype replaced"
    | _ => ret o
    end
  else ret (prop_set key v o).

End Flow.

Import Flow.

Notation "x <- m ;; k" := (Flow.bind m (fun x => k))
  (at level 100, m at next level, right associativity).
Notation "m ;;; k" := (Flow.bind m (fun _ => k))
  (at level 100, right associativity).

(** ** The task runtime *)

Module Task.

(** The calls a task body makes on its runtime and on its collaborators. *)
Inductive call : Type :=
| Step (name : string)
| Progress (percent : Z)
| Finish (result : jsval)
| Fatal (message : jsval) (detail : jsval) (extra : jsval)
| LogError (message : jsval)
| LogInfo (message : string)
| LogWarnIgnored (ignored : list string)
| External (operation : string) (arg : jsval).

Inductive task_state : Type := PENDING | RUNNING | COMPLETE | FAILED.

Record instance : Type := {
  state : task_state;
  progress : Z;
  reported : list Z;
  result : jsval;
  failure : option (jsval * jsval * jsval)
}.

Definition fresh : instance :=
  {| state := PENDING; progress := 0; reported := []; result := JUndefined;
     failure := None |}.

(** Modelled from the spec: the body of lib/task_agent/task.js is missing.
    Section 4.3: PENDING -> RUNNING on start invocation. *)
Definition on_start (i : instance) : instance :=
  match state i with
  | PENDING =>
      {| state := RUNNING; progress := progress i; reported := reported i;
         result := result i; failure := failure i |}
  | _ => i
  end.

(** Modelled from the spec: the body of lib/task_agent/task.js is missing.
    Section 4.2: [progress(percent)] records a checkpoint, [finish(result)]
    transitions to COMPLETE and records [result], [fatal(message, detail,
    extra)] transitions to FAILED and records the message and the
    diagnostic payload; once finish or fatal was called, further lifecycle
    calls on the same instance are no-ops. *)
Definition on_call (c : call) (i : instance) : instance :=
  match state i with
  | RUNNING =>
      match c with
      | Progress p =>
          {| state := RUNNING; progress := p; reported := reported i ++ [p];
             result := result i; failure := failure i |}
      | Finish r =>
          {| state := COMPLETE; progress := progress i; reported := reported i;
             result := r; failure := failure i |}
      | Fatal m d x =>
          {| state := FAILED; progress := progress i; reported := reported i;
             result := result i; failure := Some (m, d, x) |}
      | _ => i
      end
  | _ => i
  end.

(** The instance after a task body made the calls of [trace]. *)
Definition lifecycle (trace : list call) : instance :=
  fold_left (fun i c => on_call c i) trace (on_start fresh).

(** Modelled from the spec: [Task.createSteps] of lib/task_agent/task.js is
    missing.  Section 4.2: on each step success, progress is set to that
    step's declared absolute checkpoint. *)
Definition declared_step {A} (name : string) (checkpoint : Z)
    (fn : W call A) : W call A :=
  emit (Step name) ;;; a <- fn ;; emit (Progress checkpoint) ;;; ret a.

(** The progress values a trace of calls reports, in order. *)
Definition progress_calls (trace : list call) : list Z :=
  omap (fun c => match c with Progress p => Some p | _ => None end) trace.


Definition externals (trace : list call) : list string :=
  omap (fun c => match c with External op _ => Some op | _ => None end) trace.

(** A sequence of progress values that does not decrease and stays within
    [lo, hi]. *)
Definition steady (lo hi : Z) (l : list Z) : Prop :=
  StronglySorted Z.le l /\ Forall (fun p => lo <= p <= hi)%Z l.

(** The progress values reported by [m] are such a sequence. *)
Definition paced {A} (lo hi : Z) (m : W call A) : Prop :=
  steady lo hi (progress_calls (fst m)).

(** [m] reports no progress at all. *)
Definition silent {A} (m : W call A) : Prop := progress_calls (fst m) = [].

End Task.

(** ** [machine_create.js]: the payload mapper *)

Module MachineCreate.

Import Task.

Definition DISK_PAYLOAD : list (string * bool) :=
  [ ("image_name", true); ("image_size", true); ("image_uuid", true);
    ("refreservation", true); ("size", true) ].

Definition NIC_PAYLOAD : list (string * bool) :=
  [ ("belongs_to_type", false); ("belongs_to_uuid", false);
    ("cn_uuid", false); ("created_timestamp", false); ("ip", true);
    ("mac", true); ("modified_timestamp", false); ("mtu", true);
    ("netmask", true); ("network_uuid", true); ("nic_tag", true);
    ("primary", true); ("resolvers", false); ("state", false);
    ("owner_uuid", false); ("vlan_id", true) ].

Definition VM_PAYLOAD : list (string * bool) :=
  [ ("alias", true); ("archive_on_delete", true); ("billing_id", true);
    ("brand", true); ("cpu_cap", true); ("cpu_shares", true);
    ("cpu_type", true); ("customer_metadata", true); ("dataset_url", false);
    ("dataset_url_compression", false); ("disk_driver", true);
    ("disks", true); ("firewall_enabled", false); ("image", false);
    ("image_uuid", true); ("gpus", true); ("max_lwps", true);
    ("max_physical_memory", true); ("max_swap", true); ("nic_driver", true);
    ("nics", true); ("owner_uuid", true); ("server_uuid", true);
    ("quota", true); ("ram", true); ("resolvers", true); ("uuid", true);
    ("vcpus", true); ("zfs_io_priority", false) ].

(** [MAP_PAYLOAD[key]]: the table's own entry, a member inherited from
    [Object.prototype] (neither [undefined] nor falsy), or [undefined]. *)
Inductive entry : Type :=
| Listed (b : bool)
| FromPrototype
| Absent.

Definition table_get (MAP_PAYLOAD : list (string * bool)) (key : string)
  : entry :=
  match prop_get key MAP_PAYLOAD with
  | Some b => Listed b
  | None => if inherited key then FromPrototype else Absent
  end.

(** The body of the inner loop of [map_thing], lines 342-347. *)
Definition map_thing_key (MAP_PAYLOAD : list (string * bool)) (name : string)
    (thingIdx : nat) (thing : jsval) (key : string)
    (newThing : list (string * jsval)) : W string (list (string * jsval)) :=
  match table_get MAP_PAYLOAD key with
  | Absent =>
      emit (name +:+ "." +:+ pretty thingIdx +:+ "." +:+ key) ;;; ret newThing
  | Listed false => ret newThing
  | Listed true | FromPrototype => set_property key (get thing key) newThing
  end.

(** [map_thing(opts, MAP_PAYLOAD, name, things)]; the names pushed on
    [opts.ignored] are the recorded observations. *)
Definition map_thing (MAP_PAYLOAD : list (string * bool)) (name : string)
    (things : jsval) : W string (list jsval) :=
  match things with
  | JArr elems =>
      if forallb is_object elems then
        for_each
          (fun '(thingIdx, thing) newThings =>
             newThing <-
               for_each (map_thing_key MAP_PAYLOAD name thingIdx thing)
                        (keys thing) [] ;;
             ret (newThings ++ [JObj newThing]))
          (imap (fun i x => (i, x)) elems) []
      else throw "things ([object]) is required"
  | _ => throw "things ([object]) is required"
  end.

(** The body of the loop of [map_payload], lines 370-383. *)
Definition map_payload_key (payload : jsval) (key : string)
    (newPayload : list (string * jsval)) : W string (list (string * jsval)) :=
  if String.eqb key "nics" then
    nics <- map_thing NIC_PAYLOAD "nic" (get payload key) ;;
    set_property key (JArr nics) newPayload
  else if String.eqb key "disks" then
    disks <- map_thing DISK_PAYLOAD "disk" (get payload key) ;;
    set_property key (JArr disks) newPayload
  else
    match table_get VM_PAYLOAD key with
    | Absent => emit key ;;; ret newPayload
    | Listed false => ret newPayload
    | Listed true | FromPrototype =>
        set_property key (get payload key) newPayload
    end.

(** Lines 366-384: [opts.ignored = []] and the loop over the keys. *)
Definition copy_listed (payload : jsval) : W string (list (string * jsval)) :=
  for_each (map_payload_key payload) (keys payload) [].

Section Defaults.

Variable render : jsval -> string.

Definition when_undefined (key : string) (v : jsval)
    (o : list (string * jsval)) : list (string * jsval) :=
  if is_undefined (get (JObj o) key) then prop_set key v o else o.

(** Lines 386-410: "fill in things we want default values for". *)
Definition fill_defaults (newPayload : list (string * jsval))
  : list (string * jsval) :=
  let o := when_undefined "nics" (JObj []) newPayload in
  let o :=
    let brand := get (JObj o) "brand" in
    if strict_eq_str brand "bhyve" || strict_eq_str brand "kvm"
    then when_undefined "disks" (JObj []) o else o in
  let o := prop_set "autoboot" (JBool true) o in
  let o := prop_set "datasets" (JArr []) o in
  let o := prop_set "limit_priv" (JStr "default") o in
  let o :=
    if is_undefined (get (JObj o) "max_locked_memory") &&
       negb (is_undefined (get (JObj o) "max_swap"))
    then prop_set "max_locked_memory" (get (JObj o) "max_swap") o else o in
  let o := when_undefined "zpool" (JStr "zones") o in
  let o :=
    prop_set "zfs_filesystem"
      (JStr (to_string render (get (JObj o) "zpool") +:+ "/" +:+
             to_string render (get (JObj o) "uuid"))) o in
  let o :=
    prop_set "zonepath"
      (JStr ("/" +:+ to_string render (get (JObj o) "zfs_filesystem"))) o in
  when_undefined "zfs_io_priority" (JNum 100) o.

(** [map_payload(opts, payload)]: the new payload, with the warning that
    reports [opts.ignored] when it is not empty. *)
Definition map_payload (payload : jsval) : W call (list (string * jsval)) :=
  if is_object payload then
    match copy_listed payload with
    | (ignored, Returned newPayload) =>
        (if (0 <? length ignored)%nat then emit (LogWarnIgnored ignored)
         else ret tt) ;;;
        ret (fill_defaults newPayload)
    | (_, Failed e) => fail e
    | (_, Stalled) => stall
    | (_, Thrown w) => throw w
    | (_, Beyond w) => beyond w
    end
  else throw "payload (object) is required".

End Defaults.

(** *** The task body *)

(** [self.req], as the dispatcher built it. *)
Record task_req : Type := {
  req_id : jsval;
  req_params : jsval;
  req_sysinfo : jsval
}.

(** The task object: [self.req], [self.sysinfo] and [self.log]. *)
Record task : Type := {
  req : task_req;
  sysinfo : jsval;
  log : jsval
}.

(** What an external operation hands to its callback. *)
Inductive reply (A : Type) : Type :=
| Err (message : string)
| Ok (a : A).

Arguments Err {A} message.
Arguments Ok {A} a.

(** The collaborators of the task: [vmadm], [common] and [fs].  Their code
    is outside this file; each is taken as the answer it gives. *)
Record collaborators : Type := {
  vmadm_exists : jsval -> reply bool;
  provisionInProgressFile : jsval -> jsval;
  vmadm_create : list (string * jsval) -> reply unit;
  fs_unlink : jsval -> reply unit;
  vmadm_load : jsval -> option string * jsval
}.

(** The object vasync hands from step to step, and the variable
    [creationGuardFilename] the steps of [start] close over. *)
Record pipeline_state : Type := {
  arg_sysinfo : jsval;
  dataset_exists : jsval;
  payload : option (list (string * jsval));
  creationGuardFilename : jsval
}.

(** The checkpoints handed to [MachineCreateTask.createSteps], lines
    457-483, in declaration order. *)
Definition declared_steps : list (string * Z) :=
  [ ("pre_check", 20%Z); ("ensure_dataset_present", 30%Z);
    ("fetch_dataset", 50%Z); ("build_payload", 60%Z);
    ("create_machine", 100%Z) ].

(** Modelled from the spec: [Task.createSteps] of lib/task_agent/task.js is
    missing.  The method it installs under a step's name runs the step with
    the checkpoint declared for it. *)
Definition method {A} (name : string) (fn : W call A) : W call A :=
  match prop_get name declared_steps with
  | Some checkpoint => declared_step name checkpoint fn
  | None => throw "TypeError: not a function"
  end.

(** The names [map_payload] itself may add to the new payload. *)
Definition filled_in : list string :=
  [ "nics"; "disks"; "autoboot"; "datasets"; "limit_priv";
    "max_locked_memory"; "zpool"; "zfs_filesystem"; "zonepath";
    "zfs_io_priority" ].

(** The keys the loops copy: those a table lists as [true] and, through
    the prototype chain of the table, the names of [Object.prototype]. *)
Definition copied (MAP_PAYLOAD : list (string * bool)) (key : string) : Prop :=
  prop_get key MAP_PAYLOAD = Some true \/
  (prop_get key MAP_PAYLOAD = None /\ inherited key = true).

Section Body.

Variable render : jsval -> string.

(** The string test of [assert.uuid]. *)
Variable is_uuid : string -> bool.

Variable world : collaborators.
Variable self : task.

Definition assert_object (v : jsval) (name : string) : W call unit :=
  if is_object v then ret tt else throw (name +:+ " (object) is required").

Definition assert_uuid (v : jsval) (name : string) : W call unit :=
  match v with
  | JStr s =>
      if is_uuid s then ret tt else throw (name +:+ " (uuid) is required")
  | _ => throw (name +:+ " (uuid) is required")
  end.

(** [v.key], which throws when [v] is [undefined] or [null]. *)
Definition member_of (v : jsval) (key : string) : W call jsval :=
  match v with
  | JUndefined | JNull => throw "TypeError: cannot read property"
  | _ => ret (get v key)
  end.

(** [function pre_check(callback)], lines 255-292. *)
Definition pre_check : W call unit :=
  uuid <- member_of (req_params (req self)) "uuid" ;;
  assert_uuid uuid "params.uuid" ;;;
  sysinfo_uuid <- member_of (req_sysinfo (req self)) "UUID" ;;
  assert_uuid sysinfo_uuid "sysinfo.UUID" ;;;
  finally
    (in_order
       [ (fun _ : unit =>                       (* _checkAlreadyExists *)
            emit (External "vmadm.exists" uuid) ;;;
            match vmadm_exists world uuid with
            | Err message => fail (Error message)
            | Ok true =>
                fail (Error ("Machine " +:+ to_string render uuid +:+
                             " exists."))
            | Ok false => ret tt
            end);
         (fun _ : unit => ret tt) ]             (* _checkDatasetExists *)
       tt)
    (fun err => match err with Some e => fail e | None => ret tt end).

(** [function ensure_dataset_present(arg, callback)], lines 294-302. *)
Definition ensure_dataset_present (arg : pipeline_state)
  : W call pipeline_state :=
  ret {| arg_sysinfo := arg_sysinfo arg;
         dataset_exists := JBool true;
         payload := payload arg;
         creationGuardFilename := creationGuardFilename arg |}.

(** [function fetch_dataset(arg, callback)], lines 304-323. *)
Definition fetch_dataset (arg : pipeline_state) : W call pipeline_state :=
  if truthy (dataset_exists arg) then
    emit (LogInfo "dataset exists, not fetching") ;;; ret arg
  else ret arg.

(** [function build_payload(arg, callback)], lines 420-432. *)
Definition build_payload (arg : pipeline_state) : W call pipeline_state :=
  new <- map_payload render (req_params (req self)) ;;
  emit (LogInfo "built payload") ;;;
  ret {| arg_sysinfo := arg_sysinfo arg;
         dataset_exists := dataset_exists arg;
         payload := Some new;
         creationGuardFilename := creationGuardFilename arg |}.

(** [function create_machine(arg, callback)], lines 434-453. *)
Definition create_machine (arg : pipeline_state) : W call pipeline_state :=
  match payload arg with
  | None => throw "TypeError: cannot set property"
  | Some p =>
      let p := prop_set "log" (log self) p in
      let p := prop_set "req_id" (req_id (req self)) p in
      let p := prop_set "sysinfo" (sysinfo self) p in
      emit (External "vmadm.create" (JObj p)) ;;;
      match vmadm_create world p with
      | Err message => fail (Error message)
      | Ok _ =>
          ret {| arg_sysinfo := arg_sysinfo arg;
                 dataset_exists := dataset_exists arg;
                 payload := Some p;
                 creationGuardFilename := creationGuardFilename arg |}
      end
  end.

Definition with_guard (filename : jsval) (arg : pipeline_state)
  : pipeline_state :=
  {| arg_sysinfo := arg_sysinfo arg;
     dataset_exists := dataset_exists arg;
     payload := payload arg;
     creationGuardFilename := filename |}.

(** [function start(callback)], lines 177-253.  The five declared steps are
    reached through the methods [Task.createSteps] installs. *)
Definition start : W call unit :=
  assert_object (sysinfo self) "self.sysinfo" ;;;
  assert_uuid (get (sysinfo self) "UUID") "self.sysinfo.UUID" ;;;
  finally
    (in_order
       [ (fun arg =>                            (* _doPrecheck *)
            finally (method "pre_check" pre_check)
              (fun err =>
                 match err with
                 | Some e =>
                     emit (Fatal (message_of e) JUndefined JUndefined) ;;;
                     stall
                 | None => ret arg
                 end));
         (fun arg =>                            (* _createProvisionLockFile *)
            uuid <- member_of (req_params (req self)) "uuid" ;;
            emit (External "common.provisionInProgressFile" uuid) ;;;
            ret (with_guard (provisionInProgressFile world uuid) arg));
         (fun arg =>
            method "ensure_dataset_present" (ensure_dataset_present arg));
         (fun arg => method "fetch_dataset" (fetch_dataset arg));
         (fun arg => method "build_payload" (build_payload arg));
         (fun arg => method "create_machine" (create_machine arg));
         (fun arg =>                            (* _deleteProvisionLockFile *)
            emit (External "fs.unlink" (creationGuardFilename arg)) ;;;
            match fs_unlink world (creationGuardFilename arg) with
            | Err message => emit (LogError (JStr message)) ;;; ret arg
            | Ok _ => ret arg
            end) ]
       {| arg_sysinfo := sysinfo self;
          dataset_exists := JUndefined;
          payload := None;
          creationGuardFilename := JUndefined |})
    (fun pipelineErr =>                         (* _afterPipeline *)
       uuid <- member_of (req_params (req self)) "uuid" ;;
       emit (External "vmadm.load" uuid) ;;;
       let '(loadError, machine) := vmadm_load world uuid in
       match pipelineErr with
       | Some e =>
           if truthy machine then
             emit (Fatal (message_of e) JNull (JObj [("vm", machine)]))
           else emit (Fatal (message_of e) JUndefined JUndefined)
       | None =>
           match loadError with
           | Some message =>
               emit (LogError (JStr message)) ;;; emit (Finish JUndefined)
           | None => emit (Finish (JObj [("vm", machine)]))
           end
       end).

End Body.

End MachineCreate.

(** ** [machine_create.js], second part: the recovery-configuration task *)

Module RecoveryConfig.

Import Task.
Export MachineCreate (reply, Err, Ok).

(** The task object: [self.req.params], [self.sysinfo]. *)
Record task : Type := {
  req_params : jsval;
  sysinfo : jsval
}.

(** The collaborators: [common.getSdcConfig], [dns.resolve],
    [shared.writeSysinfo], the KBMAPI client and [crypto.randomBytes]. *)
Record collaborators : Type := {
  getSdcConfig : reply jsval;
  dns_resolve : string -> reply (list jsval);
  writeSysinfo : jsval -> reply unit;
  client_put : string -> jsval -> reply unit;
  randomBytes_UInt32 : Z
}.

(** The variables the steps of [start] close over. *)
Record vars : Type := {
  kbmapiaddr : jsval;
  server_uuid : jsval;
  templateFile : jsval;
  zpoolRecovery : jsval;
  zpool : jsval;
  the_sysinfo : jsval
}.

Section Body.

Variable render : jsval -> string.
Variable is_uuid : string -> bool.

(** [sha512str(str)] read as hexadecimal text, and
    [repeatableUUIDFromHexString]: the digest, and the UUID built from
    hexadecimal text ([None] when the node library rejects the argument). *)
Variable sha512_hex : jsval -> option string.
Variable repeatableUUIDFromHexString : jsval -> option string.

Variable world : collaborators.
Variable self : task.

Definition uuid_from (v : jsval) : W call string :=
  match repeatableUUIDFromHexString v with
  | Some u => ret u
  | None => throw "TypeError: first argument must be a string"
  end.

Definition digest_of (v : jsval) : W call string :=
  match sha512_hex v with
  | Some d => ret d
  | None => throw "TypeError: data must be a string or a buffer"
  end.

Definition param (name : string) : jsval := get (req_params self) name.

(** [zpoolRecovery.key = v] or [delete zpoolRecovery.key] on the recovery
    record; a primitive takes no property. *)
Definition recovery_update (f : list (string * jsval) -> list (string * jsval))
    (r : jsval) : W call jsval :=
  match r with
  | JObj props => ret (JObj (f props))
  | JArr _ => beyond "named property of an array"
  | _ => ret r
  end.

Definition remove_key (key : string) (o : list (string * jsval))
  : list (string * jsval) :=
  filter (fun kv => negb (String.eqb (fst kv) key)) o.

Definition bailIfMissingPreconditions (v : vars) : W call vars :=
  if negb (truthy (param "action")) || negb (truthy (param "pivtoken")) ||
     negb (truthy (param "recovery_uuid"))
  then fail (Error "Missing required request parameters")
  else if negb (strict_eq_str (param "action") "activate" ||
                strict_eq_str (param "action") "stage")
  then fail (Error "Invalid value for action parameter")
  else if strict_eq_str (param "action") "stage" &&
          negb (truthy (param "template"))
  then fail (Error "Missing template request parameter")
  else ret v.

Definition retrieveKbmapiAddresses (v : vars) : W call vars :=
  emit (External "common.getSdcConfig" JUndefined) ;;;
  match getSdcConfig world with
  | Err message => fail (Error message)
  | Ok cfg =>
      datacenter_name <- MachineCreate.member_of cfg "datacenter_name" ;;
      dns_domain <- MachineCreate.member_of cfg "dns_domain" ;;
      let domainName :=
        "kbmapi." +:+ to_string render datacenter_name +:+ "." +:+
        to_string render dns_domain in
      emit (LogInfo "kbmapi domain name") ;;;
      emit (External "dns.resolve" (JStr domainName)) ;;;
      match dns_resolve world domainName with
      | Err message => fail (Error message)
      | Ok [] => fail (Raw (JStr "No KBMAPI addresses found"))
      | Ok (addr :: _) =>
          emit (Progress 10) ;;;
          ret {| kbmapiaddr := addr; server_uuid := server_uuid v;
                 templateFile := templateFile v;
                 zpoolRecovery := zpoolRecovery v; zpool := zpool v;
                 the_sysinfo := the_sysinfo v |}
      end
  end.

Definition getSysinfo (v : vars) : W call vars :=
  let obj := the_sysinfo v in
  if negb (truthy (get obj "Zpool Encrypted")) then
    fail (Error ("Recovery configuration can be staged or " +:+
                 "activated only on servers with encrypted zpools"))
  else
    emit (Progress 25) ;;;
    ret {| kbmapiaddr := kbmapiaddr v; server_uuid := get obj "UUID";
           templateFile := templateFile v;
           zpoolRecovery :=
             (if truthy (get obj "Zpool Recovery")
              then get obj "Zpool Recovery" else JObj []);
           zpool := get obj "Zpool";
           the_sysinfo := the_sysinfo v |}.

Definition onlyStagedConfigCanBeActivated (v : vars) : W call vars :=
  if strict_eq_str (param "action") "activate" then
    staged <- uuid_from (get (zpoolRecovery v) "staged") ;;
    if negb (strict_eq_str (param "recovery_uuid") staged) then
      fail (Error ("Only the staged recovery configuration " +:+
                   "can be activated"))
    else ret v
  else ret v.

Definition saveTemplate (v : vars) : W call vars :=
  if strict_eq_str (param "action") "activate" then ret v
  else
    emit (Progress 50) ;;;
    ret {| kbmapiaddr := kbmapiaddr v; server_uuid := server_uuid v;
           templateFile :=
             JStr ("/var/tmp/.recovery-config-template-" +:+
                   pretty (randomBytes_UInt32 world));
           zpoolRecovery := zpoolRecovery v; zpool := zpool v;
           the_sysinfo := the_sysinfo v |}.

Definition doAction (v : vars) : W call vars :=
  emit (LogInfo "Executing") ;;;
  recovery <-
    (if strict_eq_str (param "action") "activate" then
       recovery_update
         (fun o => remove_key "staged"
                     (prop_set "active" (get (JObj o) "staged") o))
         (zpoolRecovery v)
     else
       digest <- digest_of (param "template") ;;
       recovery_update (prop_set "staged" (JStr digest)) (zpoolRecovery v)) ;;
  emit (Progress 65) ;;;
  ret {| kbmapiaddr := kbmapiaddr v; server_uuid := server_uuid v;
         templateFile := templateFile v; zpoolRecovery := recovery;
         zpool := zpool v; the_sysinfo := the_sysinfo v |}.

Definition sysinfoUpdate (v : vars) : W call vars :=
  updated <-
    match the_sysinfo v with
    | JObj props =>
        ret (JObj (prop_set "Zpool Recovery" (zpoolRecovery v) props))
    | _ => beyond "named property of an array"
    end ;;
  emit (External "shared.writeSysinfo" updated) ;;;
  match writeSysinfo world updated with
  | Err message => fail (Error message)
  | Ok _ =>
      emit (Progress 75) ;;;
      ret {| kbmapiaddr := kbmapiaddr v; server_uuid := server_uuid v;
             templateFile := templateFile v;
             zpoolRecovery := zpoolRecovery v; zpool := zpool v;
             the_sysinfo := updated |}
  end.

Definition postUpdatesToKbmapi (v : vars) : W call vars :=
  emit (LogInfo "kbmapi ip was %s") ;;;
  zpool_recovery <-
    match zpoolRecovery v with
    | JStr _ => beyond "keys of a string"
    | recovery =>
        for_each
          (fun k o => u <- uuid_from (get recovery k) ;;
                      set_property k (JStr u) o)
          (keys recovery) []
    end ;;
  params <-
    (let params := [("zpool_recovery", JObj zpool_recovery);
                    ("cn_uuid", server_uuid v)] in
     if truthy (param "token") then
       digest <- digest_of (param "token") ;;
       u <- uuid_from (JStr digest) ;;
       ret (prop_set "recovery_token" (JStr u) params)
     else ret params) ;;
  let kbmapi_path :=
    "/pivtokens/" +:+ to_string render (param "pivtoken") +:+
    "/recovery-tokens" in
  emit (External "client.put" (JObj params)) ;;;
  match client_put world kbmapi_path (JObj params) with
  | Err message =>
      emit (Progress 100) ;;;
      emit (LogInfo "posting info to kbmapi") ;;;
      fail (Error message)
  | Ok _ =>
      emit (Progress 100) ;;;
      emit (LogInfo "Posted zpool recovery info to kbmapi") ;;;
      ret v
  end.

(** [function start()], lines 553-750. *)
Definition start : W call unit :=
  MachineCreate.assert_object (sysinfo self) "self.sysinfo" ;;;
  MachineCreate.assert_uuid is_uuid (get (sysinfo self) "UUID")
    "self.sysinfo.UUID" ;;;
  MachineCreate.member_of (req_params self) "pivtoken" ;;;
  finally
    (in_order
       [ bailIfMissingPreconditions; retrieveKbmapiAddresses; getSysinfo;
         onlyStagedConfigCanBeActivated; saveTemplate; doAction;
         sysinfoUpdate; postUpdatesToKbmapi ]
       {| kbmapiaddr := JUndefined; server_uuid := JUndefined;
          templateFile := JUndefined; zpoolRecovery := JObj [];
          zpool := JUndefined; the_sysinfo := sysinfo self |})
    (fun err =>                                 (* recoveryConfigTaskCb *)
       match err with
       | Some e =>
           emit (Fatal (JStr ("Recovery Configuration error: " +:+
                              to_string render (message_of e)))
                       JUndefined JUndefined)
       | None => emit (Finish JUndefined)
       end).

End Body.

End RecoveryConfig.

(** ** Concrete agents, requests and worlds used by the examples below *)

Module Examples.

Import TaskAgent.

(** Numbers are never turned into text in the examples. *)
Definition render : jsval -> string := fun _ => "[value]".

(** A task that acknowledges through both channels. *)
Definition both_signals : task_fn :=
  fun ctx => [SEvent "finish" (ctx_params ctx); SFinish].

(** A task that never acknowledges. *)
Definition silent : task_fn := fun _ => [].

Definition provisioner : queue_defn :=
  {| tasks := ["machine_create"; "machine_destroy"];
     onhttpmsg := both_signals;
     log_params := None |}.

Definition secrets : queue_defn :=
  {| tasks := ["recovery_config"];
     onhttpmsg := silent;
     log_params := Some false |}.

Definition node : agent :=
  {| uuid := "8acf94fb-5f16-44ee-b4ab-20a1431cf3a3";
     timeoutSeconds := 3600;
     sysinfo := JObj [("UUID", JStr "8acf94fb-5f16-44ee-b4ab-20a1431cf3a3")];
     serverAddress := JStr "10.0.0.7";
     queueDefns := [provisioner; secrets] |}.

Definition envelope (task : string) (p : jsval) : gmap string jsval :=
  <["task" := JStr task]> (<["params" := p]> ∅).

Definition request_for (target : option string) (body : gmap string jsval)
  : request :=
  {| header_x_server_uuid := target;
     params := body;
     getId := "req-1";
     headers_host := JStr "cnapi" |}.

(** A request addressed to another server that also lacks [task]. *)
Definition stray : request :=
  request_for (Some "00000000-dead-beef-badd-cafe00000000")
              (<["params" := JObj []]> ∅).

(** A request naming a member of [Object.prototype]. *)
Definition to_string_request : request :=
  request_for None (envelope "toString" (JObj [])).

(** A request for our server that lacks [params]. *)
Definition no_params_request : request :=
  request_for (Some (uuid node)) (<["task" := JStr "machine_create"]> ∅).

Definition recovery_request : request :=
  request_for None
    (envelope "recovery_config" (JObj [("action", JStr "stage")])).

(** A task that calls [finish()] twice and emits no event. *)
Definition finish_twice : task_fn := fun _ => [SFinish; SFinish].

(** A task that reports an error with an empty message, then completes. *)
Definition empty_error : task_fn :=
  fun _ => [SEvent "error" (JStr EmptyString); SFinish;
            SEvent "finish" (JStr "done")].

(** A task that reports an error object, then completes. *)
Definition failing : task_fn :=
  fun _ => [SEvent "error" (JObj [("error", JStr "no such zone")]);
            SEvent "finish" JUndefined; SFinish].

Definition pinger : queue_defn :=
  {| tasks := ["nop"]; onhttpmsg := finish_twice; log_params := Some true |}.

Definition updater : queue_defn :=
  {| tasks := ["server_update"]; onhttpmsg := empty_error;
     log_params := None |}.

Definition booter : queue_defn :=
  {| tasks := ["machine_boot"]; onhttpmsg := failing; log_params := None |}.

Definition node2 : agent :=
  {| uuid := uuid node;
     timeoutSeconds := 3600;
     sysinfo := sysinfo node;
     serverAddress := serverAddress node;
     queueDefns := [provisioner; secrets; pinger; updater; booter] |}.

Definition nop_request : request :=
  request_for None (envelope "nop" (JObj [])).

Definition update_request : request :=
  request_for None (envelope "server_update" (JObj [])).

Definition boot_request : request :=
  request_for None (envelope "machine_boot" (JObj [])).

(** *** machine_create *)

Definition hex_digit (c : ascii) : bool :=
  let n := nat_of_ascii c in
  ((48 <=? n)%nat && (n <=? 57)%nat) || ((65 <=? n)%nat && (n <=? 70)%nat) ||
  ((97 <=? n)%nat && (n <=? 102)%nat).

Fixpoint uuid_shape (groups : list nat) (s : list ascii) : bool :=
  match groups with
  | [] => match s with [] => true | _ => false end
  | n :: groups' =>
      forallb hex_digit (take n s) && (length (take n s) =? n)%nat &&
      match groups', drop n s with
      | [], [] => true
      | _ :: _, c :: s' =>
          (nat_of_ascii c =? 45)%nat && uuid_shape groups' s'
      | _, _ => false
      end
  end.

(** Eight, four, four, four and twelve hexadecimal digits between dashes. *)
Definition is_uuid (s : string) : bool :=
  uuid_shape [8; 4; 4; 4; 12] (list_ascii_of_string s).

Definition server_sysinfo : jsval :=
  JObj [("UUID", JStr "8acf94fb-5f16-44ee-b4ab-20a1431cf3a3")].

Definition vm_uuid : string := "a6a6d41c-4a4b-c9ad-e169-d0e610bde5ec".

Definition create_params : jsval :=
  JObj [ ("uuid", JStr vm_uuid); ("brand", JStr "joyent-minimal");
         ("ram", JNum 128); ("max_swap", JNum 512);
         ("nics", JArr [JObj [("mac", JStr "90:b8:d0:35:36:16");
                              ("state", JStr "provisioning")]]) ].

Definition create_task : MachineCreate.task :=
  {| MachineCreate.req :=
       {| MachineCreate.req_id := JStr "req-1";
          MachineCreate.req_params := create_params;
          MachineCreate.req_sysinfo := server_sysinfo |};
     MachineCreate.sysinfo := server_sysinfo;
     MachineCreate.log := JStr "[logger]" |}.



Definition created_vm : jsval :=
  JObj [("uuid", JStr vm_uuid); ("state", JStr "running")].

(** Every collaborator succeeds. *)
Definition calm : MachineCreate.collaborators :=
  {| MachineCreate.vmadm_exists := fun _ => MachineCreate.Ok false;
     MachineCreate.provisionInProgressFile :=
       fun _ => JStr "/var/tmp/machine-provision.lock";
     MachineCreate.vmadm_create := fun _ => MachineCreate.Ok tt;
     MachineCreate.fs_unlink := fun _ => MachineCreate.Ok tt;
     MachineCreate.vmadm_load := fun _ => (None, created_vm) |}.

(** No machine exists, but creating one fails. *)
Definition create_fails : MachineCreate.collaborators :=
  {| MachineCreate.vmadm_exists := fun _ => MachineCreate.Ok false;
     MachineCreate.provisionInProgressFile :=
       fun _ => JStr "/var/tmp/machine-provision.lock";
     MachineCreate.vmadm_create :=
       fun _ => MachineCreate.Err "insufficient space";
     MachineCreate.fs_unlink := fun _ => MachineCreate.Ok tt;
     MachineCreate.vmadm_load :=
       fun _ => (Some "no such machine", JUndefined) |}.


(** *** recovery configuration *)

Definition recovery_world : RecoveryConfig.collaborators :=
  {| RecoveryConfig.getSdcConfig :=
       MachineCreate.Ok (JObj [("datacenter_name", JStr "coal");
                               ("dns_domain", JStr "joyent.us")]);
     RecoveryConfig.dns_resolve :=
       fun _ => MachineCreate.Ok [JStr "10.99.99.5"];
     RecoveryConfig.writeSysinfo := fun _ => MachineCreate.Ok tt;
     RecoveryConfig.client_put := fun _ _ => MachineCreate.Ok tt;
     RecoveryConfig.randomBytes_UInt32 := 42 |}.

Definition encrypted_sysinfo : jsval :=
  JObj [ ("UUID", JStr "8acf94fb-5f16-44ee-b4ab-20a1431cf3a3");
         ("Zpool", JStr "zones"); ("Zpool Encrypted", JBool true);
         ("Zpool Recovery", JObj [("staged", JStr "0badcafe")]) ].

Definition digest (v : jsval) : option string :=
  match v with JStr s => Some ("sha512:" +:+ s) | _ => None end.

Definition uuid_of_hex (v : jsval) : option string :=
  match v with JStr s => Some ("uuid:" +:+ s) | _ => None end.

Definition stage_task : RecoveryConfig.task :=
  {| RecoveryConfig.req_params :=
       JObj [ ("action", JStr "stage"); ("pivtoken", JStr "97496DD1");
              ("recovery_uuid", JStr "uuid:0badcafe");
              ("template", JStr "AQIDBA=="); ("token", JStr "secret") ];
     RecoveryConfig.sysinfo := encrypted_sysinfo |}.

Definition activate_task : RecoveryConfig.task :=
  {| RecoveryConfig.req_params :=
       JObj [ ("action", JStr "activate"); ("pivtoken", JStr "97496DD1");
              ("recovery_uuid", JStr "uuid:0badcafe") ];
     RecoveryConfig.sysinfo := encrypted_sysinfo |}.

(** A machine with the requested uuid already exists. *)
Definition occupied : MachineCreate.collaborators :=
  {| MachineCreate.vmadm_exists := fun _ => MachineCreate.Ok true;
     MachineCreate.provisionInProgressFile :=
       fun _ => JStr "/var/tmp/machine-provision.lock";
     MachineCreate.vmadm_create := fun _ => MachineCreate.Ok tt;
     MachineCreate.fs_unlink := fun _ => MachineCreate.Ok tt;
     MachineCreate.vmadm_load := fun _ => (None, created_vm) |}.

(** The payload quoted in the comment at lines 81-167 of the source,
    without the image manifest's details. *)
Definition sample_payload : jsval :=
  JObj
    [ ("server_uuid", JStr "8acf94fb-5f16-44ee-b4ab-20a1431cf3a3");
      ("uuid", JStr vm_uuid);
      ("image", JObj [("v", JNum 2); ("name", JStr "base-multiarch-lts")]);
      ("alias", JStr "dummy001");
      ("billing_id", JStr "40d8b3d7-aa4c-e521-f9f1-be6564a4c681");
      ("brand", JStr "joyent-minimal");
      ("cpu_cap", JNum 25); ("cpu_shares", JNum 8);
      ("customer_metadata", JObj []);
      ("firewall_enabled", JBool false);
      ("max_lwps", JNum 4000); ("max_physical_memory", JNum 128);
      ("max_swap", JNum 512);
      ("nics",
       JArr [ JObj [ ("belongs_to_type", JStr "zone");
                     ("belongs_to_uuid", JStr vm_uuid);
                     ("mac", JStr "90:b8:d0:35:36:16");
                     ("owner_uuid",
                      JStr "55ff8285-560e-4b70-9326-1fa5de67f5fd");
                     ("primary", JBool true);
                     ("state", JStr "provisioning");
                     ("created_timestamp", JStr "2018-06-04T21:20:52.720Z");
                     ("modified_timestamp", JStr "2018-06-04T21:20:52.720Z");
                     ("ip", JStr "172.24.16.73");
                     ("mtu", JNum 1500);
                     ("netmask", JStr "255.255.240.0");
                     ("nic_tag", JStr "admin");
                     ("resolvers", JArr [JStr "172.24.16.37"]);
                     ("vlan_id", JNum 0);
                     ("network_uuid",
                      JStr "1627c87c-38c6-40d7-8f14-4ff054debda8");
                     ("cn_uuid",
                      JStr "00000000-dead-beef-badd-cafe00000000") ] ]);
      ("owner_uuid", JStr "55ff8285-560e-4b70-9326-1fa5de67f5fd");
      ("quota", JNum 3); ("ram", JNum 128);
      ("zfs_io_priority", JNum 8);
      ("archive_on_delete", JBool true);
      ("resolvers", JArr [JStr "172.24.16.37"]);
      ("image_uuid", JStr "6db48df2-e1a3-11e5-8ca6-8ff02d5c69dc");
      ("dataset_url_compression", JStr "gzip");
      ("dataset_url",
       JStr ("http://172.24.16.47/images/" +:+
             "6db48df2-e1a3-11e5-8ca6-8ff02d5c69dc/file")) ].

(** A payload with a key named like a member of [Object.prototype]. *)
Definition polluted_params : jsval :=
  JObj [ ("uuid", JStr vm_uuid); ("toString", JStr "x") ].

End Examples.

(** ** What the further properties observe *)

Module Observe.

Import TaskAgent.

(** The arguments of the calls of [next], in order. *)
Definition next_calls (out : list effect) : list (option rest_error) :=
  omap (fun e => match e with Next err => Some err | _ => None end) out.

(** The entry points the handler called, by the key they were found under. *)
Definition invoked (out : list effect) : list string :=
  omap (fun e => match e with Invoke key _ => Some key | _ => None end) out.

(** The calls on the context that reach [fcb] or assign [error]:
    [finish()], [event('finish', _)] and [event('error', _)]. *)
Definition relevant (s : signal) : bool :=
  match s with
  | SFinish => true
  | SProgress _ => false
  | SEvent name _ => String.eqb name "finish" || String.eqb name "error"
  end.

(** Some queue definition lists [t] with [log_params === false]. *)
Definition muted (defns : list queue_defn) (t : string) : Prop :=
  exists i, In (t, i) (visits defns) /\ log_params i = Some false.

End Observe.

Module Filtering.

Import MachineCreate.

(** An object whose keys are distinct and none of which is a name of
    [Object.prototype]: what [JSON.parse] yields for ordinary input. *)
Definition plain (thing : jsval) : Prop :=
  exists props,
    thing = JObj props /\ NoDup (map fst props) /\
    Forall (fun k => inherited k = false) (map fst props).

(** The table lists the key as [true]. *)
Definition listed (MAP_PAYLOAD : list (string * bool)) (key : string) : bool :=
  match prop_get key MAP_PAYLOAD with Some true => true | _ => false end.

(** The table has no entry for the key. *)
Definition unlisted (MAP_PAYLOAD : list (string * bool)) (key : string)
  : bool :=
  match prop_get key MAP_PAYLOAD with None => true | Some _ => false end.

(** The name [map_thing] pushes on [opts.ignored], line 344. *)
Definition label (name : string) (thingIdx : nat) (key : string) : string :=
  name +:+ "." +:+ pretty thingIdx +:+ "." +:+ key.

(** The properties of [thing] the table lists as [true]. *)
Definition kept (MAP_PAYLOAD : list (string * bool)) (thing : jsval) : jsval :=
  JObj (List.filter (fun kv => listed MAP_PAYLOAD (fst kv)) (own_props thing)).

(** The names reported for the element [thing] at index [thingIdx]. *)
Definition reported_for (MAP_PAYLOAD : list (string * bool)) (name : string)
    (thingIdx : nat) (thing : jsval) : list string :=
  map (label name thingIdx) (List.filter (unlisted MAP_PAYLOAD) (keys thing)).

End Filtering.

Module Outcome.

Import Task.

(** The calls of [finish] and [fatal] in a trace, in order. *)
Definition terminal (trace : list call) : list call :=
  List.filter
    (fun c => match c with Finish _ | Fatal _ _ _ => true | _ => false end)
    trace.

(** The arguments handed to the external operation [op], in order. *)
Definition handed_to (op : string) (trace : list call) : list jsval :=
  omap (fun c => match c with
                 | External o arg => if String.eqb o op then Some arg else None
                 | _ => None
                 end) trace.

(** [m] never calls the external operation [op]. *)
Definition without {A} (op : string) (m : W call A) : Prop :=
  handed_to op (fst m) = [].

(** [m] calls neither [finish] nor [fatal]. *)
Definition unfinished {A} (m : W call A) : Prop := terminal (fst m) = [].

(** [m] calls back or throws: it does not leave its callback uncalled. *)
Definition answers {E A} (m : W E A) : Prop := snd m <> Stalled.

(** A step that either goes on without a word, or has called [fatal] and
    leaves the pipeline waiting. *)
Definition stopped {A} (m : W call A) : Prop :=
  (unfinished m /\ answers m) \/
  (length (terminal (fst m)) = 1%nat /\ snd m = Stalled).

(** How a task body may end: having called [finish] or [fatal] exactly
    once when it returns or is left waiting, without either when it throws;
    it hands no error on. *)
Definition ended_once {A} (m : W call A) : Prop :=
  match snd m with
  | Returned _ | Stalled => length (terminal (fst m)) = 1%nat
  | Thrown _ | Beyond _ => terminal (fst m) = []
  | Failed _ => False
  end.

End Outcome.

Module Requests.

Import RecoveryConfig.

(** The recovery requests the first step accepts: [action], [pivtoken] and
    [recovery_uuid] are given, the action is 'activate' or 'stage', and a
    template comes with 'stage'. *)
Definition well_formed (params : jsval) : bool :=
  truthy (get params "action") && truthy (get params "pivtoken") &&
  truthy (get params "recovery_uuid") &&
  (strict_eq_str (get params "action") "activate" ||
   strict_eq_str (get params "action") "stage") &&
  (negb (strict_eq_str (get params "action") "stage") ||
   truthy (get params "template")).

(** The variables of [start] before the first step. *)
Definition initial (self : task) : vars :=
  {| kbmapiaddr := JUndefined; server_uuid := JUndefined;
     templateFile := JUndefined; zpoolRecovery := JObj [];
     zpool := JUndefined; the_sysinfo := sysinfo self |}.

(** [obj['Zpool Recovery'] || {}] *)
Definition recovery_of (obj : jsval) : jsval :=
  if truthy (get obj "Zpool Recovery") then get obj "Zpool Recovery"
  else JObj [].

(** The name [retrieveKbmapiAddresses] resolves. *)
Definition kbmapi_domain (render : jsval -> string) (cfg : jsval) : string :=
  "kbmapi." +:+ to_string render (get cfg "datacenter_name") +:+ "." +:+
  to_string render (get cfg "dns_domain").

Section Steps.

Variable render : jsval -> string.
Variable sha512_hex : jsval -> option string.
Variable repeatableUUIDFromHexString : jsval -> option string.
Variable world : collaborators.
Variable self : task.

(** The steps of [start] that lead to the new recovery record. *)
Definition preparation : list (vars -> W Task.call vars) :=
  [ bailIfMissingPreconditions self;
    retrieveKbmapiAddresses render world;
    getSysinfo;
    onlyStagedConfigCanBeActivated repeatableUUIDFromHexString self;
    saveTemplate world self;
    doAction sha512_hex self ].

(** The two steps that publish it: to sysinfo and to KBMAPI. *)
Definition publication : list (vars -> W Task.call vars) :=
  [ sysinfoUpdate world;
    postUpdatesToKbmapi render sha512_hex repeatableUUIDFromHexString
      world self ].

(** [recoveryConfigTaskCb], the callback of the waterfall. *)
Definition recoveryConfigTaskCb (err : option js_error) : W Task.call unit :=
  match err with
  | Some e =>
      emit (Task.Fatal (JStr ("Recovery Configuration error: " +:+
                              to_string render (message_of e)))
                       JUndefined JUndefined)
  | None => emit (Task.Finish JUndefined)
  end.

End Steps.

End Requests.

(** ** [machine_create.js], second part: [repeatableUUIDFromHexString] *)

Module Uuid.

(** [[0-9a-f]] *)
Definition lower_hex (c : ascii) : bool :=
  let n := nat_of_ascii c in
  ((48 <=? n)%nat && (n <=? 57)%nat) || ((97 <=? n)%nat && (n <=? 102)%nat).

(** [[0-9a-f]{n}] at the head of [s]: what follows it. *)
Fixpoint hex_run (n : nat) (s : string) : option string :=
  match n with
  | O => Some s
  | S n' =>
      match s with
      | String c s' => if lower_hex c then hex_run n' s' else None
      | EmptyString => None
      end
  end.

Definition dash (s : string) : option string :=
  match s with
  | String c s' => if Ascii.eqb c "-" then Some s' else None
  | EmptyString => None
  end.

(** Groups of hexadecimal digits of the given lengths, with a dash between
    two groups and nothing after the last. *)
Fixpoint groups_match (groups : list nat) (s : string) : bool :=
  match groups with
  | [] => false
  | [n] => match hex_run n s with Some EmptyString => true | _ => false end
  | n :: groups' =>
      match hex_run n s with
      | Some rest =>
          match dash rest with
          | Some rest' => groups_match groups' rest'
          | None => false
          end
      | None => false
      end
  end.

(** The pattern [UUID_RE] of task_agent.js, line 24: eight, four, four,
    four and twelve lower-case hexadecimal digits between dashes. *)
Definition UUID_RE (s : string) : bool := groups_match [8; 4; 4; 4; 12]%nat s.

(** The value of a hexadecimal digit of either case. *)
Definition hex_value (c : ascii) : option Z :=
  let n := Z.of_nat (nat_of_ascii c) in
  if (48 <=? n)%Z && (n <=? 57)%Z then Some (n - 48)%Z
  else if (97 <=? n)%Z && (n <=? 102)%Z then Some (n - 87)%Z
  else if (65 <=? n)%Z && (n <=? 70)%Z then Some (n - 55)%Z
  else None.

(** The bytes two digits at a time, up to the first pair that is not two
    hexadecimal digits. *)
Fixpoint pairs (s : string) : list Z :=
  match s with
  | String a (String b rest) =>
      match hex_value a, hex_value b with
      | Some hi, Some lo => (16 * hi + lo)%Z :: pairs rest
      | _, _ => []
      end
  | _ => []
  end.

(** What [repeatableUUIDFromHexString] is called with: hexadecimal text
    (line 638, line 721) or the buffer of a digest (line 726). *)
Inductive source : Type :=
| Text (hexStr : string)
| Buf (bytes : list Z).

(** [Buffer.from(hexStr, 'hex')].  A buffer is copied.  Text is decoded
    pair by pair and the result ends before the first pair that is not
    hexadecimal.  For text of odd length the releases of Node differ (the
    older ones throw, the newer ones drop the last character): that case is
    left out, [None]. *)
Definition buffer_from (hexStr : source) : option (list Z) :=
  match hexStr with
  | Text s => if Nat.even (String.length s) then Some (pairs s) else None
  | Buf bytes => Some bytes
  end.

(** One digit of [buf.toString('hex')]. *)
Definition hex_digit_of (n : Z) : ascii :=
  ascii_of_nat (Z.to_nat (if (n <? 10)%Z then 48 + n else 87 + n)%Z).

(** [buf.toString('hex')] *)
Fixpoint to_hex (buf : list Z) : string :=
  match buf with
  | [] => EmptyString
  | b :: rest =>
      String (hex_digit_of (Z.shiftr b 4))
        (String (hex_digit_of (Z.land b 15)) (to_hex rest))
  end.

(** [buf[i]] as an operand of [&]: [undefined], beyond the end, counts as
    0. *)
Definition byte_at (buf : list Z) (i : nat) : Z := default 0%Z (buf !! i).

(** [function repeatableUUIDFromHexString(hexStr)], lines 520-535.  An
    assignment beyond the end of a buffer has no effect. *)
Definition repeatableUUIDFromHexString (hexStr : source) : option string :=
  match buffer_from hexStr with
  | None => None
  | Some buf =>
      (* variant: *)
      let buf :=
        <[8%nat := Z.lor (Z.land (byte_at buf 8) 0x3f) 0xa0]> buf in
      (* version: *)
      let buf :=
        <[6%nat := Z.lor (Z.land (byte_at buf 6) 0x0f) 0x50]> buf in
      let hex := to_hex (take 16 buf) in
      Some (String.concat "-"
              [ substring 0 8 hex; substring 8 4 hex; substring 12 4 hex;
                substring 16 4 hex; substring 20 12 hex ])
  end.

(** A value a buffer can hold. *)
Definition byte (b : Z) : Prop := (0 <= b < 256)%Z.

(** [[a, b, c, d, e].join('-')] of the five pieces of [hex]. *)
Definition dashed (hex : string) : string :=
  String.concat "-"
    [ substring 0 8 hex; substring 8 4 hex; substring 12 4 hex;
      substring 16 4 hex; substring 20 12 hex ].

End Uuid.

(** ** Further requests, hosts and worlds for the examples *)

Module Scenarios.

Import TaskAgent Examples.

(** ToString of an array with one string element is that string. *)
Definition render_array (v : jsval) : string :=
  match v with
  | JArr [JStr s] => s
  | _ => "[value]"
  end.

(** The task name wrapped in an array. *)
Definition wrapped_request : request :=
  request_for None
    (<["task" := JArr [JStr "recovery_config"]]>
       (<["params" := JObj [("token", JStr "secret")]]> ∅)).


Definition value_of_request : request :=
  request_for None (envelope "valueOf" (JObj [])).

(** Two queues list [machine_create]; the second one hides parameters. *)
Definition shadow : queue_defn :=
  {| tasks := ["machine_create"];
     onhttpmsg := finish_twice;
     log_params := Some false |}.

Definition node3 : agent :=
  {| uuid := uuid node;
     timeoutSeconds := 3600;
     sysinfo := sysinfo node;
     serverAddress := serverAddress node;
     queueDefns := [shadow; provisioner] |}.

End Scenarios.

Module Worlds.

Import Examples.

(** A request whose [uuid] is not one. *)
Definition misnamed_task : MachineCreate.task :=
  {| MachineCreate.req :=
       {| MachineCreate.req_id := JStr "req-4";
          MachineCreate.req_params := JObj [("uuid", JStr "not-a-uuid")];
          MachineCreate.req_sysinfo := server_sysinfo |};
     MachineCreate.sysinfo := server_sysinfo;
     MachineCreate.log := JStr "[logger]" |}.

(** A request for an action the task does not know. *)
Definition reboot_task : RecoveryConfig.task :=
  {| RecoveryConfig.req_params :=
       JObj [ ("action", JStr "reboot"); ("pivtoken", JStr "97496DD1");
              ("recovery_uuid", JStr "uuid:0badcafe") ];
     RecoveryConfig.sysinfo := encrypted_sysinfo |}.

(** A staging request on a host without an encrypted zpool. *)
Definition plain_host_task : RecoveryConfig.task :=
  {| RecoveryConfig.req_params := RecoveryConfig.req_params stage_task;
     RecoveryConfig.sysinfo := server_sysinfo |}.

(** An activation request that names another configuration. *)
Definition other_activation : RecoveryConfig.task :=
  {| RecoveryConfig.req_params :=
       JObj [ ("action", JStr "activate"); ("pivtoken", JStr "97496DD1");
              ("recovery_uuid", JStr "uuid:deadbeef") ];
     RecoveryConfig.sysinfo := encrypted_sysinfo |}.

(** A host with an encrypted zpool and no recovery record. *)
Definition fresh_host : jsval :=
  JObj [ ("UUID", JStr "8acf94fb-5f16-44ee-b4ab-20a1431cf3a3");
         ("Zpool", JStr "zones"); ("Zpool Encrypted", JBool true) ].

Definition early_activation : RecoveryConfig.task :=
  {| RecoveryConfig.req_params := RecoveryConfig.req_params activate_task;
     RecoveryConfig.sysinfo := fresh_host |}.

(** The name of KBMAPI resolves to no address. *)
Definition no_kbmapi : RecoveryConfig.collaborators :=
  {| RecoveryConfig.getSdcConfig :=
       RecoveryConfig.getSdcConfig recovery_world;
     RecoveryConfig.dns_resolve := fun _ => MachineCreate.Ok [];
     RecoveryConfig.writeSysinfo := fun _ => MachineCreate.Ok tt;
     RecoveryConfig.client_put := fun _ _ => MachineCreate.Ok tt;
     RecoveryConfig.randomBytes_UInt32 := 42 |}.

(** The configuration [recovery_world] answers with. *)
Definition coal : jsval :=
  JObj [("datacenter_name", JStr "coal"); ("dns_domain", JStr "joyent.us")].

(** The template staged on a fresh host, and the activation of it. *)
Definition first_stage : jsval :=
  JObj [ ("action", JStr "stage"); ("pivtoken", JStr "97496DD1");
         ("recovery_uuid", JStr "uuid:sha512:AQIDBA==");
         ("template", JStr "AQIDBA==") ].

Definition first_activation : jsval :=
  JObj [ ("action", JStr "activate"); ("pivtoken", JStr "97496DD1");
         ("recovery_uuid", JStr "uuid:sha512:AQIDBA==") ].

End Worlds.

(** * Properties *)

(** ** The completion counter *)

Section Counter.

Import TaskAgent.

Lemma run_app a b c :
  run (a ++ b) c =
  let '(c1, o1) := run a c in
  let '(c2, o2) := run b c1 in (c2, o1 ++ o2).
Proof.
  revert c; induction a as [|s a IH]; intros c; simpl.
  - destruct (run b c); reflexivity.
  - destruct (deliver s c) as [c1 o1]. rewrite IH.
    destruct (run a c1) as [c2 o2]. destruct (run b c2) as [c3 o3].
    by rewrite app_assoc.
Qed.

Lemma responses_app a b : responses (a ++ b) = responses a ++ responses b.
Proof. unfold responses. apply omap_app. Qed.

Lemma incr_small n : (0 <= n < 2)%Z -> incr n = (n + 1)%Z.
Proof. intros H. unfold incr. destruct (Z.ltb_spec n (2 ^ 53)); lia. Qed.

Lemma incr_large n : (2 <= n)%Z -> (2 < incr n)%Z.
Proof. intros H. unfold incr. destruct (Z.ltb_spec n (2 ^ 53)); lia. Qed.

Lemma recorded_app ch a b v :
  recorded ch (a ++ b) v = recorded ch b (recorded ch a v).
Proof. unfold recorded. apply fold_left_app. Qed.

Lemma acks_app a b : acks (a ++ b) = (acks a + acks b)%nat.
Proof. induction a as [|s a IH]; simpl; [reflexivity|]. rewrite IH. lia. Qed.

(** A call that is not an acknowledgment sends nothing and leaves the
    counter alone. *)
Lemma deliver_no_ack s c :
  is_ack s = false ->
  responses (snd (deliver s c)) = [] /\
  cbcount (fst (deliver s c)) = cbcount c /\
  error (fst (deliver s c)) = recorded "error" [s] (error c) /\
  value (fst (deliver s c)) = recorded "finish" [s] (value c).
Proof.
  destruct s as [|v|name m]; simpl; intros H; try discriminate.
  - repeat split.
  - unfold event. rewrite H.
    destruct (String.eqb name "error"); simpl; repeat split.
Qed.

(** An acknowledgment advances the counter and answers when it reaches 2. *)
Lemma deliver_ack s c :
  is_ack s = true ->
  let v := recorded "finish" [s] (value c) in
  responses (snd (deliver s c)) =
    (if (incr (cbcount c) =? 2)%Z
     then [if truthy (error c) then (500%Z, error c) else (200%Z, v)]
     else []) /\
  cbcount (fst (deliver s c)) = incr (cbcount c) /\
  error (fst (deliver s c)) = recorded "error" [s] (error c) /\
  value (fst (deliver s c)) = v.
Proof.
  destruct s as [|v|name m]; simpl; intros H; try discriminate.
  - unfold finish, fcb; simpl.
    destruct (incr (cbcount c) =? 2)%Z; [destruct (truthy (error c))|];
      simpl; repeat split.
  - unfold event, fcb; simpl. rewrite H.
    assert (String.eqb name "error" = false) as ->.
    { apply String.eqb_eq in H. subst. reflexivity. }
    simpl.
    destruct (incr (cbcount c) =? 2)%Z; [destruct (truthy (error c))|];
      simpl; repeat split.
Qed.

(** Once the counter has reached 2 nothing more is sent. *)
Lemma run_after sigs c :
  (2 <= cbcount c)%Z -> responses (snd (run sigs c)) = [].
Proof.
  revert c; induction sigs as [|s sigs IH]; intros c H; [reflexivity|].
  cbn [run].
  assert (responses (snd (deliver s c)) = [] /\
          (2 <= cbcount (fst (deliver s c)))%Z) as [Hr Hc].
  { destruct (is_ack s) eqn:A.
    - destruct (deliver_ack s c A) as (Hr & Hc & _).
      pose proof (incr_large _ H).
      destruct (Z.eqb_spec (incr (cbcount c)) 2); [lia|]. split; [done|lia].
    - destruct (deliver_no_ack s c A) as (Hr & Hc & _). split; [done|lia]. }
  destruct (deliver s c) as [c1 o1]. cbn [fst snd] in *.
  specialize (IH c1 Hc). destruct (run sigs c1) as [c2 o2]. cbn [snd] in *.
  by rewrite responses_app, Hr, IH.
Qed.

(** Below two acknowledgments nothing is sent; the variables hold the
    latest payloads. *)
Lemma run_before sigs c :
  (0 <= cbcount c)%Z -> (cbcount c + Z.of_nat (acks sigs) < 2)%Z ->
  responses (snd (run sigs c)) = [] /\
  cbcount (fst (run sigs c)) = (cbcount c + Z.of_nat (acks sigs))%Z /\
  error (fst (run sigs c)) = recorded "error" sigs (error c) /\
  value (fst (run sigs c)) = recorded "finish" sigs (value c).
Proof.
  revert c; induction sigs as [|s sigs IH]; intros c H0 H.
  - cbn. repeat split. lia.
  - cbn [run acks] in *.
    change (recorded "error" (s :: sigs) (error c))
      with (recorded "error" sigs (recorded "error" [s] (error c))).
    change (recorded "finish" (s :: sigs) (value c))
      with (recorded "finish" sigs (recorded "finish" [s] (value c))).
    destruct (is_ack s) eqn:A.
    + destruct (deliver_ack s c A) as (Hr & Hc & He & Hv).
      destruct (deliver s c) as [c1 o1]. cbn [fst snd] in *.
      rewrite incr_small in Hr, Hc by lia.
      destruct (Z.eqb_spec (cbcount c + 1) 2); [lia|].
      destruct (IH c1) as (I1 & I2 & I3 & I4); [lia..|].
      destruct (run sigs c1) as [c2 o2]. cbn [fst snd] in *.
      rewrite responses_app, Hr, I1, I2, I3, I4, Hc, He, Hv.
      repeat split; lia.
    + destruct (deliver_no_ack s c A) as (Hr & Hc & He & Hv).
      destruct (deliver s c) as [c1 o1]. cbn [fst snd] in *.
      destruct (IH c1) as (I1 & I2 & I3 & I4); [lia..|].
      destruct (run sigs c1) as [c2 o2]. cbn [fst snd] in *.
      rewrite responses_app, Hr, I1, I2, I3, I4, Hc, He, Hv.
      repeat split; lia.
Qed.

(** The response is decided by what was recorded when the second
    acknowledgment arrives. *)
Lemma run_second pre s post :
  acks pre = 1%nat -> is_ack s = true ->
  responses (snd (run (pre ++ s :: post) closure0)) =
    [ let e := recorded "error" pre JUndefined in
      if truthy e then (500%Z, e)
      else (200%Z, recorded "finish" (pre ++ [s]) JUndefined) ].
Proof.
  intros Hp Hs. rewrite run_app.
  destruct (run_before pre closure0) as (B1 & B2 & B3 & B4);
    simpl; [lia | rewrite Hp; lia |].
  destruct (run pre closure0) as [c1 o1]. simpl in *.
  destruct (deliver_ack s c1 Hs) as (Hr & Hc & He & Hv).
  destruct (deliver s c1) as [c2 o2] eqn:D. simpl in *.
  pose proof (run_after post c2) as HA.
  destruct (run post c2) as [c3 o3]. simpl in *.
  rewrite !responses_app, B1, Hr, HA.
  - rewrite B2, Hp. simpl. rewrite B3, B4, recorded_app. reflexivity.
  - rewrite Hc, B2, Hp. simpl. unfold incr. simpl. lia.
Qed.

Lemma acks_split sigs :
  (2 <= acks sigs)%nat ->
  exists pre s post,
    sigs = pre ++ s :: post /\ acks pre = 1%nat /\ is_ack s = true.
Proof.
  induction sigs as [|x sigs IH] using rev_ind; [simpl; lia|].
  rewrite acks_app. cbn [acks]. intros H.
  destruct (decide (2 <= acks sigs)%nat) as [L|L].
  - destruct (IH L) as (pre & s & post & -> & ? & ?).
    exists pre, s, (post ++ [x]). split; [by rewrite <- app_assoc|done].
  - destruct (is_ack x) eqn:A; [|simpl in *; lia].
    exists sigs, x, []. repeat split; [|done]. simpl in *; lia.
Qed.

Lemma responses_count sigs :
  length (responses (snd (run sigs closure0))) =
  if (2 <=? acks sigs)%nat then 1%nat else 0%nat.
Proof.
  destruct (Nat.leb_spec 2 (acks sigs)) as [H|H].
  - destruct (acks_split sigs H) as (pre & s & post & -> & Hp & Hs).
    by rewrite run_second.
  - destruct (run_before sigs closure0) as [-> _]; simpl; [lia..|done].
Qed.


End Counter.

(** ** The dispatch table and the log flag *)

Section Table.

Import TaskAgent.

Lemma scan_tasks_visits tn i st :
  scan_tasks tn i st =
  fold_left (visit tn) (map (fun j => (j, i)) (tasks i)) st.
Proof.
  unfold scan_tasks. generalize (tasks i). intros l. revert st.
  induction l as [|j l IH]; intros [lp d]; simpl; [reflexivity|].
  rewrite IH. reflexivity.
Qed.

(** The two nested loops are one pass over [visits]. *)
Lemma scan_queues_visits tn defns :
  scan_queues tn defns =
  fold_left (visit tn) (visits defns) (true, dispatch_empty).
Proof.
  unfold scan_queues. generalize (true, dispatch_empty).
  induction defns as [|i defns IH]; intros st; simpl; [reflexivity|].
  rewrite fold_left_app, IH, scan_tasks_visits. reflexivity.
Qed.

Lemma dispatch_get_set_eq j f d :
  dispatch_get (dispatch_set j f d) j = MFunction f.
Proof.
  unfold dispatch_get, dispatch_set.
  destruct (String.eqb j "__proto__") eqn:E; simpl.
  - reflexivity.
  - by rewrite lookup_insert_eq.
Qed.

Lemma dispatch_get_set_ne j f d t g :
  j <> t -> dispatch_get d t = MFunction g ->
  dispatch_get (dispatch_set j f d) t = MFunction g.
Proof.
  unfold dispatch_get, dispatch_set. intros Hne.
  destruct (String.eqb_spec t "__proto__") as [->|Ht];
    destruct (String.eqb_spec j "__proto__") as [->|Hj]; simpl;
    try congruence.
  - destruct (own d !! t); [done|]. destruct (proto d); [discriminate|].
    destruct (inherited t); discriminate.
  - rewrite lookup_insert_ne by done. done.
Qed.

(** A registered name resolves to the entry point of a queue that lists it. *)
Lemma fold_visit_registered tn l st t :
  (exists i, In (t, i) l) ->
  exists i, In (t, i) l /\
    dispatch_get (snd (fold_left (visit tn) l st)) t = MFunction (onhttpmsg i).
Proof.
  induction l as [|[j i] l IH] using rev_ind; intros [i0 Hin];
    [destruct Hin|].
  rewrite fold_left_app. simpl.
  destruct (decide (j = t)) as [->|Hne].
  - exists i. split; [apply in_or_app; right; left; reflexivity|].
    apply dispatch_get_set_eq.
  - apply in_app_or in Hin. destruct Hin as [Hin|[Heq|[]]]; [|congruence].
    destruct IH as (i1 & Hi1 & Hg); [eauto|].
    exists i1. split; [apply in_or_app; by left|].
    by apply dispatch_get_set_ne.
Qed.

Lemma fold_visit_flag tn l st :
  fst (fold_left (visit tn) l st) =
  fst st &&
  negb (existsb
          (fun v => strict_eq_str tn (fst v) &&
                    match log_params (snd v) with
                    | Some false => true
                    | _ => false
                    end) l).
Proof.
  revert st; induction l as [|v l IH]; intros st; simpl.
  - by rewrite andb_true_r.
  - rewrite IH. unfold visit. simpl.
    destruct (strict_eq_str tn v.1 && _); simpl;
      [by rewrite andb_false_r | reflexivity].
Qed.

Lemma fold_visit_unregistered tn l st t :
  t <> "__proto__" ->
  (forall i, ~ In (t, i) l) ->
  own (snd (fold_left (visit tn) l st)) !! t = own (snd st) !! t.
Proof.
  intros Ht. induction l as [|[j i] l IH] using rev_ind; intros Hn;
    [reflexivity|].
  rewrite fold_left_app. simpl. unfold dispatch_set.
  assert (j <> t)
    by (intros ->; apply (Hn i), in_or_app; right; left; reflexivity).
  destruct (String.eqb j "__proto__"); simpl.
  - apply IH. intros i' Hi'. apply (Hn i'), in_or_app. by left.
  - rewrite lookup_insert_ne by done. apply IH.
    intros i' Hi'. apply (Hn i'), in_or_app. by left.
Qed.

Lemma fold_visit_proto tn l st :
  (forall i, ~ In ("__proto__", i) l) ->
  proto (snd (fold_left (visit tn) l st)) = proto (snd st).
Proof.
  induction l as [|[j i] l IH] using rev_ind; intros Hn; [reflexivity|].
  rewrite fold_left_app. simpl. unfold dispatch_set.
  destruct (String.eqb_spec j "__proto__") as [->|Hj]; simpl.
  - exfalso. apply (Hn i), in_or_app; right; left; reflexivity.
  - apply IH. intros i' Hi'. apply (Hn i'), in_or_app. by left.
Qed.

(** One queue that lists the task with [log_params: false] clears the flag. *)
Lemma flag_cleared defns t :
  (exists i, In (t, i) (visits defns) /\ log_params i = Some false) ->
  fst (scan_queues (JStr t) defns) = false.
Proof.
  intros (i & Hin & Hf). rewrite scan_queues_visits, fold_visit_flag. simpl.
  apply negb_false_iff, existsb_exists. exists (t, i). split; [done|].
  simpl. by rewrite String.eqb_refl, Hf.
Qed.

Lemma not_registered_by_scan defns k :
  forallb (fun v => negb (String.eqb (fst v) k)) (visits defns) = true ->
  ~ registered defns k.
Proof.
  intros H [i Hin]. rewrite forallb_forall in H. specialize (H _ Hin).
  simpl in H. by rewrite String.eqb_refl in H.
Qed.

End Table.

(** ** The request handler *)

Section Handler.

Import TaskAgent.

Variable render : jsval -> string.

Lemma handler_checked_eq self req :
  for_this_server self req = true ->
  handler render self req = handler_checked render self req.
Proof.
  unfold for_this_server, handler.
  destruct (header_x_server_uuid req); [|done]. by intros ->.
Qed.

Lemma responses_prepare self req : responses (prepare self req) = [].
Proof.
  unfold prepare, log_task_params. simpl.
  by destruct (fst (scan_queues _ _)).
Qed.

Lemma prepare_no_next self req err : ~ In (Next err) (prepare self req).
Proof.
  unfold prepare, log_task_params.
  destruct (fst (scan_queues _ _)); simpl;
    intros [H|[H|[H|[]]]]; discriminate.
Qed.

Lemma handler_resolved self req f :
  resolves render self req f ->
  exists key,
    handler render self req =
      prepare self req ++
      Invoke key (make_ctx self req) ::
      snd (run (f (make_ctx self req)) closure0).
Proof.
  intros (Hs & [p Hp] & tn & Ht & Hg).
  rewrite handler_checked_eq by done. unfold handler_checked.
  rewrite Ht, Hp. unfold call_task. rewrite Hg. eauto.
Qed.

Lemma responses_resolved self req f :
  resolves render self req f ->
  responses (handler render self req) =
  responses (snd (run (f (make_ctx self req)) closure0)).
Proof.
  intros H. destruct (handler_resolved _ _ _ H) as [key ->].
  by rewrite responses_app, responses_prepare.
Qed.


(** A name that is not registered but is a member of [Object.prototype]
    resolves to that member, which is called with the context. *)
Lemma inherited_name_is_called self req k :
  for_this_server self req = true ->
  params req !! "task" = Some (JStr k) ->
  is_Some (params req !! "params") ->
  ~ registered (queueDefns self) k ->
  ~ registered (queueDefns self) "__proto__" ->
  inherited k = true -> k <> "__proto__" ->
  handler render self req =
    prepare self req ++ [CallInherited k (make_ctx self req)].
Proof.
  intros Hs Ht [p Hp] Hk Hproto Hi Hne.
  rewrite handler_checked_eq by done. unfold handler_checked.
  rewrite Ht, Hp. f_equal. unfold call_task. simpl.
  unfold dispatch_get. rewrite scan_queues_visits.
  rewrite (proj2 (String.eqb_neq _ _) Hne).
  rewrite fold_visit_unregistered, fold_visit_proto; simpl.
  - by rewrite lookup_empty, Hi.
  - intros i Hin. apply Hproto. by exists i.
  - done.
  - intros i Hin. apply Hk. by exists i.
Qed.

End Handler.

(** ** Claims about the dispatcher *)

Section DispatcherClaims.

Import TaskAgent Examples.

(** C1, as amended.  For a request that reaches a task entry point, split
    the calls the task makes on the context at any moment into those [seen]
    so far and the [rest].  The effects produced while the calls [seen] were
    made contain the response exactly when [seen] holds two acknowledgments,
    where [finish()] and [event('finish', _)] count alike; with fewer than
    two acknowledgments, whatever their kind, nothing has been sent. *)
Theorem C1_response_after_two_acknowledgments render self req f seen rest :
  resolves render self req f ->
  f (make_ctx self req) = seen ++ rest ->
  (exists key,
     handler render self req =
       prepare self req ++
       Invoke key (make_ctx self req) ::
       snd (run seen closure0) ++ snd (run rest (fst (run seen closure0)))) /\
  (responses (snd (run seen closure0)) <> [] <-> (2 <= acks seen)%nat).
Proof.
  intros H Hf. split.
  - destruct (handler_resolved _ _ _ _ H) as [key ->]. exists key.
    rewrite Hf, run_app.
    destruct (run seen closure0) as [c1 o1]. simpl.
    by destruct (run rest c1).
  - pose proof (responses_count seen) as L.
    destruct (Nat.leb_spec 2 (acks seen)) as [G|G];
      destruct (responses _); simpl in L; split; intros; try done; lia.
Qed.

(** C1 as stated fails: a task that calls [finish()] twice and never emits
    [event('finish', _)] gets its response. *)
Lemma C1_finish_twice_completes :
  finish_twice (make_ctx node2 nop_request) = [SFinish; SFinish] /\
  (forall m,
     ~ In (SEvent "finish" m) (finish_twice (make_ctx node2 nop_request))) /\
  responses (handler render node2 nop_request) = [(200%Z, JUndefined)].
Proof.
  split; [reflexivity|]. split; [|vm_compute; reflexivity].
  intros m [H|[H|[]]]; discriminate.
Qed.

(** C2, as amended.  A request for a registered task name that passes the
    envelope checks is handed to the entry point of a queue listing that
    name, and gets at most one response: exactly one when the task makes at
    least two acknowledging calls, none otherwise, however many further
    calls follow. *)
Theorem C2_at_most_one_response render self req t :
  for_this_server self req = true ->
  params req !! "task" = Some (JStr t) ->
  is_Some (params req !! "params") ->
  registered (queueDefns self) t ->
  exists i, In (t, i) (visits (queueDefns self)) /\
    length (responses (handler render self req)) =
    if (2 <=? acks (onhttpmsg i (make_ctx self req)))%nat
    then 1%nat else 0%nat.
Proof.
  intros Hs Ht Hp Hr.
  destruct (fold_visit_registered (JStr t) (visits (queueDefns self))
              (true, dispatch_empty) t Hr) as (i & Hi & Hg).
  rewrite <- scan_queues_visits in Hg.
  exists i. split; [done|].
  rewrite (responses_resolved render self req (onhttpmsg i)).
  - apply responses_count.
  - split; [done|]. split; [done|]. exists (JStr t). by split.
Qed.

(** C2 as stated fails: [recovery_config] is registered, its parameters
    are well formed, and the request gets no response at all. *)
Lemma C2_registered_task_without_response :
  registered (queueDefns node) "recovery_config" /\
  for_this_server node recovery_request = true /\
  responses (handler render node recovery_request) = [].
Proof.
  split; [exists secrets; simpl; auto|].
  split; [reflexivity | vm_compute; reflexivity].
Qed.

(** C3.  A request whose [x-server-uuid] header differs from the agent's
    uuid is answered with an [InternalError] whose message names both the
    agent's uuid and the received one; that call of [next] is the only
    thing the handler does, whatever the envelope and the queue
    definitions are. *)
Theorem C3_wrong_target_rejected_first render self req target :
  header_x_server_uuid req = Some target ->
  target <> uuid self ->
  handler render self req =
    [Next (Some (InternalError (wrong_server_message (uuid self) target)))] /\
  exists a b c,
    wrong_server_message (uuid self) target =
    a +:+ uuid self +:+ b +:+ target +:+ c.
Proof.
  intros Hh Hne. split.
  - unfold handler. rewrite Hh.
    destruct (String.eqb_spec target (uuid self)); [done|reflexivity].
  - exists ("received request for wrong server. we are: " +:+ dquote),
           (dquote +:+ " received: " +:+ dquote), dquote.
    unfold wrong_server_message. simpl. reflexivity.
Qed.

(** C4, as amended.  A request that passes the target check and lacks
    [task] or [params] is answered with an [InvalidArgumentError] naming
    the first missing key, and the handler does nothing else. *)
Theorem C4_missing_key_rejected render self req :
  for_this_server self req = true ->
  params req !! "task" = None \/ params req !! "params" = None ->
  handler render self req =
    [Next (Some (InvalidArgumentError
       (match params req !! "task" with
        | None => "Missing key 'task'"
        | Some _ => "Missing key 'params'"
        end)))].
Proof.
  intros Hs Hm. rewrite handler_checked_eq by done. unfold handler_checked.
  destruct (params req !! "task"); [|reflexivity].
  destruct Hm as [Hm|Hm]; [discriminate|]. by rewrite Hm.
Qed.

(** C4 as stated fails: a request without [task] that is addressed to
    another server is answered with an [InternalError]. *)
Lemma C4_stray_request_not_validated :
  params stray !! "task" = None /\
  handler render node stray =
    [Next (Some (InternalError
       (wrong_server_message (uuid node)
          "00000000-dead-beef-badd-cafe00000000")))].
Proof. split; vm_compute; reflexivity. Qed.

(** C5, at the failing input.  No queue lists a task named [toString],
    yet a request for it is not answered with the not-found error:
    [dispatch['toString']] is the member inherited from [Object.prototype],
    it is called with the context, and [next] is never called. *)
Theorem C5_toString_is_not_rejected :
  ~ registered (queueDefns node) "toString" /\
  handler render node to_string_request =
    prepare node to_string_request ++
    [CallInherited "toString" (make_ctx node to_string_request)] /\
  forall err, ~ In (Next err) (handler render node to_string_request).
Proof.
  assert (~ registered (queueDefns node) "toString") as Hn
    by (apply not_registered_by_scan; reflexivity).
  split; [done|].
  assert (handler render node to_string_request =
          prepare node to_string_request ++
          [CallInherited "toString" (make_ctx node to_string_request)]) as E.
  { apply inherited_name_is_called;
      [reflexivity | vm_compute; reflexivity
      | eexists; vm_compute; reflexivity | done
      | apply not_registered_by_scan; reflexivity | reflexivity
      | discriminate]. }
  split; [done|]. rewrite E. intros err Hin.
  apply in_app_or in Hin. destruct Hin as [Hin|[Hin|[]]]; [|discriminate].
  by apply prepare_no_next in Hin.
Qed.


(** C7, as amended.  The response is decided when the second
    acknowledgment arrives: if the payload of the latest [event('error', _)]
    before it is truthy, the response is 500 with that payload; otherwise
    it is 200 with the payload of the latest [event('finish', _)] so far
    ([undefined] when there is none). *)
Theorem C7_response_decided_at_second_ack render self req f pre s post :
  resolves render self req f ->
  f (make_ctx self req) = pre ++ s :: post ->
  acks pre = 1%nat -> is_ack s = true ->
  responses (handler render self req) =
    [ let e := recorded "error" pre JUndefined in
      if truthy e then (500%Z, e)
      else (200%Z, recorded "finish" (pre ++ [s]) JUndefined) ].
Proof.
  intros H Hf Hp Hs. rewrite (responses_resolved _ _ _ _ H), Hf.
  by apply run_second.
Qed.

(** C7 as stated fails: an error with an empty message is recorded before
    the second acknowledgment, and the response is 200. *)
Lemma C7_empty_error_answered_200 :
  empty_error (make_ctx node2 update_request) =
    [SEvent "error" (JStr EmptyString); SFinish;
     SEvent "finish" (JStr "done")] /\
  responses (handler render node2 update_request) = [(200%Z, JStr "done")].
Proof. split; vm_compute; reflexivity. Qed.

End DispatcherClaims.

(** *** The dispatcher claims at concrete requests *)

Section DispatcherWitnesses.

Import TaskAgent Examples.

Lemma boot_resolves : resolves render node2 boot_request failing.
Proof.
  split; [reflexivity|]. split; [by eexists|].
  exists (JStr "machine_boot"). split; vm_compute; reflexivity.
Qed.

Lemma create_resolves :
  resolves render node
    (request_for None (envelope "machine_create" (JObj []))) both_signals.
Proof.
  split; [reflexivity|]. split; [by eexists|].
  exists (JStr "machine_create"). split; vm_compute; reflexivity.
Qed.

Lemma C1_witness :
  responses (snd (run [SEvent "finish" (JObj [])] closure0)) <> [] <->
  (2 <= acks [SEvent "finish" (JObj [])])%nat.
Proof.
  apply (C1_response_after_two_acknowledgments render node
           (request_for None (envelope "machine_create" (JObj [])))
           both_signals [SEvent "finish" (JObj [])] [SFinish]).
  - exact create_resolves.
  - reflexivity.
Defined.

Lemma C2_witness :
  registered (queueDefns node) "machine_create" /\
  exists i, In ("machine_create", i) (visits (queueDefns node)) /\
    length (responses
              (handler render node
                 (request_for None (envelope "machine_create" (JObj []))))) =
    if (2 <=? acks (onhttpmsg i
                      (make_ctx node
                         (request_for None
                            (envelope "machine_create" (JObj []))))))%nat
    then 1%nat else 0%nat.
Proof.
  assert (registered (queueDefns node) "machine_create") as Hr
    by (exists provisioner; simpl; auto).
  split; [exact Hr|].
  apply (C2_at_most_one_response render node
           (request_for None (envelope "machine_create" (JObj [])))
           "machine_create").
  - reflexivity.
  - vm_compute; reflexivity.
  - eexists; vm_compute; reflexivity.
  - exact Hr.
Defined.

Lemma C3_witness :
  handler render node stray =
    [Next (Some (InternalError
       (wrong_server_message (uuid node)
          "00000000-dead-beef-badd-cafe00000000")))] /\
  exists a b c,
    wrong_server_message (uuid node) "00000000-dead-beef-badd-cafe00000000" =
    a +:+ uuid node +:+ b +:+ "00000000-dead-beef-badd-cafe00000000" +:+ c.
Proof.
  apply (C3_wrong_target_rejected_first render node stray
           "00000000-dead-beef-badd-cafe00000000").
  - reflexivity.
  - discriminate.
Defined.

Lemma C4_witness :
  for_this_server node no_params_request = true /\
  handler render node no_params_request =
    [Next (Some (InvalidArgumentError "Missing key 'params'"))].
Proof.
  split; [reflexivity|].
  apply (C4_missing_key_rejected render node no_params_request).
  - reflexivity.
  - right. vm_compute. reflexivity.
Defined.


Lemma C7_witness :
  responses (handler render node2 boot_request) =
    [(500%Z, JObj [("error", JStr "no such zone")])].
Proof.
  apply (C7_response_decided_at_second_ack render node2 boot_request failing
           [SEvent "error" (JObj [("error", JStr "no such zone")]);
            SEvent "finish" JUndefined]
           SFinish []).
  - exact boot_resolves.
  - reflexivity.
  - reflexivity.
  - reflexivity.
Defined.

End DispatcherWitnesses.

(** ** Progress through the control-flow combinators *)

Section Pace.

Import Task.

Lemma progress_calls_app a b :
  progress_calls (a ++ b) = progress_calls a ++ progress_calls b.
Proof. apply omap_app. Qed.

Lemma sorted_app (a b : list Z) (mid : Z) :
  StronglySorted Z.le a -> StronglySorted Z.le b ->
  Forall (fun p => p <= mid)%Z a -> Forall (fun p => mid <= p)%Z b ->
  StronglySorted Z.le (a ++ b).
Proof.
  intros Ha Hb Hla Hlb. induction Ha as [|x a Ha IH Hx]; simpl; [done|].
  inversion_clear Hla as [|? ? Hxm Hla'].
  constructor; [by apply IH|].
  apply Forall_app. split; [done|].
  eapply Forall_impl; [exact Hlb|]. simpl. intros; lia.
Qed.

Lemma steady_weaken lo hi lo' hi' l :
  (lo' <= lo)%Z -> (hi <= hi')%Z -> steady lo hi l -> steady lo' hi' l.
Proof.
  intros ? ? [Hs Hb]. split; [done|].
  eapply Forall_impl; [exact Hb|]. simpl. intros; lia.
Qed.

Lemma steady_app lo mid hi a b :
  (lo <= mid <= hi)%Z ->
  steady lo mid a -> steady mid hi b -> steady lo hi (a ++ b).
Proof.
  intros Hm [Hs Hb] [Hs' Hb']. split.
  - apply (sorted_app _ _ mid); try done.
    + eapply Forall_impl; [exact Hb|]. simpl. intros; lia.
    + eapply Forall_impl; [exact Hb'|]. simpl. intros; lia.
  - apply Forall_app. split.
    + eapply Forall_impl; [exact Hb|]. simpl. intros; lia.
    + eapply Forall_impl; [exact Hb'|]. simpl. intros; lia.
Qed.

Lemma steady_prefix lo hi (k l : list Z) :
  k `prefix_of` l -> steady lo hi l -> steady lo hi k.
Proof.
  intros [rest ->] [Hs Hb]. split.
  - clear Hb. induction k as [|x k IH]; simpl in *; [constructor|].
    inversion_clear Hs as [|? ? Hk Hx]. constructor; [by apply IH|].
    apply Forall_app in Hx. by destruct Hx.
  - apply Forall_app in Hb. by destruct Hb.
Qed.

Lemma paced_weaken {A} lo hi lo' hi' (m : W call A) :
  (lo' <= lo)%Z -> (hi <= hi')%Z -> paced lo hi m -> paced lo' hi' m.
Proof. apply steady_weaken. Qed.

Lemma paced_bind {A B} lo mid hi (m : W call A) (k : A -> W call B) :
  (lo <= mid <= hi)%Z ->
  paced lo mid m -> (forall a, paced mid hi (k a)) ->
  paced lo hi (Flow.bind m k).
Proof.
  unfold paced. intros Hm Hp Hk.
  destruct m as [t [a| | | |]]; cbn [Flow.bind fst] in *;
    try (apply (steady_weaken lo mid); [lia..|done]).
  specialize (Hk a). destruct (k a) as [t' r]. cbn [fst] in *.
  rewrite progress_calls_app. by apply (steady_app lo mid hi).
Qed.

Lemma paced_finally {A B} lo mid hi (m : W call A)
    (cb : option js_error -> W call B) :
  (lo <= mid <= hi)%Z ->
  paced lo mid m -> (forall e, paced mid hi (cb e)) ->
  paced lo hi (finally m cb).
Proof.
  unfold paced. intros Hm Hp Hk.
  destruct m as [t [a|e| | |]]; cbn [finally fst] in *;
    try (apply (steady_weaken lo mid); [lia..|done]).
  - specialize (Hk None). destruct (cb None) as [t' r]. cbn [fst] in *.
    rewrite progress_calls_app. by apply (steady_app lo mid hi).
  - specialize (Hk (Some e)). destruct (cb (Some e)) as [t' r].
    cbn [fst] in *.
    rewrite progress_calls_app. by apply (steady_app lo mid hi).
Qed.

Lemma silent_paced {A} lo hi (m : W call A) : silent m -> paced lo hi m.
Proof. unfold silent, paced. intros ->. split; constructor. Qed.

Lemma paced_progress lo hi p :
  (lo <= p <= hi)%Z -> paced lo hi (emit (Progress p)).
Proof. intros H. split; cbn; repeat constructor; lia. Qed.

Lemma silent_bind {A B} (m : W call A) (k : A -> W call B) :
  silent m -> (forall a, silent (k a)) -> silent (Flow.bind m k).
Proof.
  unfold silent. intros Hm Hk.
  destruct m as [t [a| | | |]]; cbn [Flow.bind fst] in *; try done.
  specialize (Hk a). destruct (k a) as [t' r]. cbn [fst] in *.
  by rewrite progress_calls_app, Hm, Hk.
Qed.

Lemma silent_finally {A B} (m : W call A)
    (cb : option js_error -> W call B) :
  silent m -> (forall e, silent (cb e)) -> silent (finally m cb).
Proof.
  unfold silent. intros Hm Hk.
  destruct m as [t [a|e| | |]]; cbn [finally fst] in *; try done.
  - specialize (Hk None). destruct (cb None) as [t' r]. cbn [fst] in *.
    by rewrite progress_calls_app, Hm, Hk.
  - specialize (Hk (Some e)). destruct (cb (Some e)) as [t' r].
    cbn [fst] in *. by rewrite progress_calls_app, Hm, Hk.
Qed.

Lemma silent_for_each {A B} (body : B -> A -> W call A) xs acc :
  (forall x a, silent (body x a)) -> silent (for_each body xs acc).
Proof.
  intros Hb. revert acc. induction xs as [|x xs IH]; intros acc; simpl;
    [done|].
  apply silent_bind; [apply Hb|apply IH].
Qed.

(** Outside the RUNNING state the runtime ignores every call. *)
Lemma on_call_idle trace i :
  state i <> RUNNING -> fold_left (fun i c => on_call c i) trace i = i.
Proof.
  intros H. induction trace as [|c trace IH]; simpl; [reflexivity|].
  assert (on_call c i = i) as ->
    by (unfold on_call; destruct (state i); congruence).
  exact IH.
Qed.

(** What the runtime records is a prefix of what the body reported. *)
Lemma reported_prefix trace i :
  exists l,
    reported (fold_left (fun i c => on_call c i) trace i) = reported i ++ l /\
    l `prefix_of` progress_calls trace.
Proof.
  revert i. induction trace as [|c trace IH]; intros i; simpl.
  - exists []. by rewrite app_nil_r.
  - assert (state i = RUNNING \/ state i <> RUNNING) as [R|R]
      by (destruct (state i); auto; right; discriminate).
    + destruct (IH (on_call c i)) as (l & Hl & Hp). unfold on_call in *.
      rewrite R in *. destruct c; simpl in *;
        try (exists l; split; [exact Hl | exact Hp]).
      exists (percent :: l). split.
      * rewrite Hl. by rewrite <- app_assoc.
      * by apply prefix_cons.
    + assert (on_call c i = i) as ->
        by (unfold on_call; destruct (state i); congruence).
      rewrite on_call_idle by done.
      exists []. split; [by rewrite app_nil_r | apply prefix_nil].
Qed.

Lemma lifecycle_steady lo hi trace :
  steady lo hi (progress_calls trace) ->
  steady lo hi (reported (lifecycle trace)).
Proof.
  intros H. destruct (reported_prefix trace (on_start fresh)) as (l & Hl & Hp).
  unfold lifecycle. rewrite Hl. simpl. by apply (steady_prefix _ _ _ _ Hp).
Qed.

End Pace.

Ltac silence :=
  repeat first
    [ reflexivity
    | apply silent_bind; [|intros ?]
    | apply silent_finally; [|intros ?]
    | apply silent_for_each; intros ? ?
    | match goal with
      | |- Task.silent (match ?x with _ => _ end) => destruct x
      | |- Task.silent (let '(_, _) := ?x in _) => destruct x
      end ].

Ltac quiet := apply silent_paced; silence.

(** ** machine_create: the pipeline *)

Section MachineCreatePipeline.

Import Task MachineCreate.

Variable render : jsval -> string.
Variable is_uuid : string -> bool.
Variable world : collaborators.
Variable self : task.

(** The mapper logs at most the warning about ignored properties. *)
Lemma map_payload_trace payload t r :
  map_payload render payload = (t, r) ->
  t = [] \/ exists ignored, t = [LogWarnIgnored ignored].
Proof.
  unfold map_payload. destruct (is_object payload); [|inversion 1; by left].
  destruct (copy_listed payload) as [ig [np|e| |w|w]];
    try (inversion 1; by left).
  destruct (0 <? length ig)%nat; cbn; inversion 1; [right; eauto|by left].
Qed.

Lemma silent_map_payload payload : silent (map_payload render payload).
Proof. unfold map_payload. silence. Qed.

Lemma silent_pre_check : silent (pre_check render is_uuid world self).
Proof. unfold pre_check, member_of, assert_uuid. silence. Qed.

(** A declared step reports its checkpoint, once, after its body. *)
Lemma paced_method {A} name cp lo (fn : W call A) :
  prop_get name declared_steps = Some cp -> (lo <= cp)%Z ->
  silent fn -> paced lo cp (method name fn).
Proof.
  intros Hn Hlo Hs. unfold method. rewrite Hn. unfold declared_step.
  apply (paced_bind lo lo cp); [lia|by apply silent_paced|intros _].
  apply (paced_bind lo lo cp); [lia|by apply silent_paced|intros a].
  apply (paced_bind lo cp cp); [lia|apply paced_progress; lia|intros _].
  by apply silent_paced.
Qed.

Lemma start_paced : paced 0 100 (start render is_uuid world self).
Proof.
  unfold start.
  apply (paced_bind 0 0 100);
    [lia | unfold assert_object; quiet | intros _].
  apply (paced_bind 0 0 100); [lia | unfold assert_uuid; quiet | intros _].
  apply (paced_finally 0 100 100);
    [lia | | intros e; unfold member_of; quiet].
  cbn [in_order].
  apply (paced_bind 0 20 100); [lia| |intros arg1].
  { apply (paced_finally 0 20 20); [lia| |intros e; quiet].
    apply paced_method; [reflexivity|lia|apply silent_pre_check]. }
  apply (paced_bind 20 20 100);
    [lia | unfold member_of; quiet | intros arg2].
  apply (paced_bind 20 30 100); [lia| |intros arg3].
  { apply paced_method; [reflexivity|lia|].
    unfold ensure_dataset_present; silence. }
  apply (paced_bind 30 50 100); [lia| |intros arg4].
  { apply paced_method; [reflexivity|lia|]. unfold fetch_dataset; silence. }
  apply (paced_bind 50 60 100); [lia| |intros arg5].
  { apply paced_method; [reflexivity|lia|]. unfold build_payload.
    apply silent_bind; [apply silent_map_payload|intros]. silence. }
  apply (paced_bind 60 100 100); [lia| |intros arg6].
  { apply paced_method; [reflexivity|lia|]. unfold create_machine; silence. }
  apply (paced_bind 100 100 100); [lia | quiet | intros arg7].
  quiet.
Qed.

End MachineCreatePipeline.

(** ** The recovery-configuration task *)

Section RecoveryPipeline.

Import Task RecoveryConfig.

Local Open Scope Z_scope.

Variable render : jsval -> string.
Variable is_uuid : string -> bool.
Variable sha512_hex : jsval -> option string.
Variable repeatableUUIDFromHexString : jsval -> option string.
Variable world : collaborators.
Variable self : task.

Ltac beat lo p hi :=
  apply (paced_bind lo p hi); [lia | apply paced_progress; lia | intros _].

Ltac hush lo hi :=
  apply (paced_bind lo lo hi); [lia | quiet | intros ?].

Lemma recovery_start_paced :
  paced 0 100
    (start render is_uuid sha512_hex repeatableUUIDFromHexString world self).
Proof.
  unfold start.
  apply (paced_bind 0 0 100);
    [lia | unfold MachineCreate.assert_object; quiet | intros _].
  apply (paced_bind 0 0 100);
    [lia | unfold MachineCreate.assert_uuid; quiet | intros _].
  apply (paced_bind 0 0 100);
    [lia | unfold MachineCreate.member_of; quiet | intros _].
  apply (paced_finally 0 100 100); [lia| |intros e; quiet].
  cbn [in_order].
  apply (paced_bind 0 0 100);
    [lia | unfold bailIfMissingPreconditions; quiet | intros v1].
  apply (paced_bind 0 10 100); [lia| |intros v2].
  { unfold retrieveKbmapiAddresses. hush 0 10.
    destruct (getSdcConfig world) as [m|cfg]; [quiet|].
    apply (paced_bind 0 0 10);
      [lia | unfold MachineCreate.member_of; quiet | intros dn].
    apply (paced_bind 0 0 10);
      [lia | unfold MachineCreate.member_of; quiet | intros dd].
    hush 0 10. hush 0 10.
    destruct (dns_resolve world _) as [m|[|addr addrs]]; [quiet|quiet|].
    beat 0 10 10. quiet. }
  apply (paced_bind 10 25 100); [lia| |intros v3].
  { unfold getSysinfo. destruct (negb _); [quiet|]. beat 10 25 25. quiet. }
  apply (paced_bind 25 25 100); [lia| |intros v4].
  { unfold onlyStagedConfigCanBeActivated, uuid_from. quiet. }
  apply (paced_bind 25 50 100); [lia| |intros v5].
  { unfold saveTemplate. destruct (strict_eq_str _ _); [quiet|].
    beat 25 50 50. quiet. }
  apply (paced_bind 50 65 100); [lia| |intros v6].
  { unfold doAction. hush 50 65.
    apply (paced_bind 50 50 65); [lia| |intros r].
    { unfold recovery_update, digest_of. quiet. }
    beat 50 65 65. quiet. }
  apply (paced_bind 65 75 100); [lia| |intros v7].
  { unfold sysinfoUpdate.
    apply (paced_bind 65 65 75); [lia|quiet|intros upd].
    hush 65 75. destruct (writeSysinfo world upd); [quiet|].
    beat 65 75 75. quiet. }
  apply (paced_bind 75 100 100); [lia| |intros v8; quiet].
  unfold postUpdatesToKbmapi. hush 75 100.
  apply (paced_bind 75 75 100); [lia| |intros zr].
  { apply silent_paced. destruct (zpoolRecovery v7); try reflexivity;
      (apply silent_for_each; intros k o; unfold uuid_from, set_property;
       silence). }
  apply (paced_bind 75 75 100); [lia| |intros ps].
  { unfold digest_of, uuid_from. quiet. }
  hush 75 100.
  destruct (client_put world _ _); (beat 75 100 100; quiet).
Qed.

End RecoveryPipeline.

(** ** Claims about the tasks *)

Section TaskClaims.

Import Task Examples.



(** C9.  On every execution path of the two tasks — whatever the
    parameters, the host facts and the answers of the collaborators — the
    progress values the task body reports, and those the runtime records
    from them, never decrease and stay within 0..100; so do the checkpoints
    declared for machine_create, which are 20, 30, 50, 60, 100. *)
Theorem C9_progress_is_monotone_and_bounded
    render is_uuid sha512_hex uuid_of_hex world self world' self' :
  let created := fst (MachineCreate.start render is_uuid world self) in
  let staged :=
    fst (RecoveryConfig.start render is_uuid sha512_hex uuid_of_hex
           world' self') in
  map snd MachineCreate.declared_steps = [20; 30; 50; 60; 100]%Z /\
  steady 0 100 (map snd MachineCreate.declared_steps) /\
  steady 0 100 (progress_calls created) /\
  steady 0 100 (reported (lifecycle created)) /\
  steady 0 100 (progress_calls staged) /\
  steady 0 100 (reported (lifecycle staged)).
Proof.
  intros created staged.
  pose proof (start_paced render is_uuid world self) as Hc.
  pose proof (recovery_start_paced render is_uuid sha512_hex uuid_of_hex
                world' self') as Hs.
  split; [reflexivity|]. split.
  { split; cbn; repeat constructor; lia. }
  split; [exact Hc|]. split; [by apply lifecycle_steady|].
  split; [exact Hs|]. by apply lifecycle_steady.
Qed.

(** The two complete paths of the recovery task report 10, 25, 50, 65, 75,
    100 when staging and 10, 25, 65, 75, 100 when activating. *)
Lemma recovery_progress_examples :
  progress_calls
    (fst (RecoveryConfig.start render is_uuid digest uuid_of_hex
            recovery_world stage_task)) = [10; 25; 50; 65; 75; 100]%Z /\
  progress_calls
    (fst (RecoveryConfig.start render is_uuid digest uuid_of_hex
            recovery_world activate_task)) = [10; 25; 65; 75; 100]%Z.
Proof. split; vm_compute; reflexivity. Qed.

End TaskClaims.

(** ** Property lists *)

Section PropertyLists.

Context {A : Type}.

Implicit Types (k : string) (v : A) (l : list (string * A)).

Lemma prop_set_eq k v l : prop_get k (prop_set k v l) = Some v.
Proof.
  induction l as [|[k' v'] l IH]; simpl.
  - by rewrite String.eqb_refl.
  - destruct (String.eqb k k') eqn:E; simpl;
      rewrite ?String.eqb_refl, ?E; done.
Qed.

Lemma prop_set_ne k k' v l :
  k <> k' -> prop_get k (prop_set k' v l) = prop_get k l.
Proof.
  intros Hne. induction l as [|[j w] l IH]; simpl.
  - by rewrite (proj2 (String.eqb_neq _ _) Hne).
  - destruct (String.eqb_spec k' j) as [->|Hj]; simpl.
    + by rewrite !(proj2 (String.eqb_neq _ _) Hne).
    + destruct (String.eqb k j); [done|exact IH].
Qed.

Lemma prop_set_keys k k' v l :
  In k (map fst (prop_set k' v l)) <-> k = k' \/ In k (map fst l).
Proof.
  induction l as [|[j w] l IH]; simpl.
  - intuition.
  - destruct (String.eqb_spec k' j) as [->|Hj]; simpl; intuition.
Qed.


End PropertyLists.

(** ** machine_create: the payload mapper *)

Section Mapper.

Import Task MachineCreate.

Variable render : jsval -> string.

Lemma get_prop_set k k' v o :
  get (JObj (prop_set k' v o)) k =
  if String.eqb k k' then v else get (JObj o) k.
Proof.
  unfold get. simpl. destruct (String.eqb_spec k k') as [->|Hne].
  - by rewrite prop_set_eq.
  - by rewrite prop_set_ne.
Qed.

Lemma get_when_undefined k k' v o :
  get (JObj (when_undefined k' v o)) k =
  if String.eqb k k' && is_undefined (get (JObj o) k') then v
  else get (JObj o) k.
Proof.
  unfold when_undefined. destruct (is_undefined (get (JObj o) k')) eqn:E.
  - rewrite get_prop_set. by rewrite andb_true_r.
  - by rewrite andb_false_r.
Qed.

Lemma when_undefined_keys k k' v o :
  In k (map fst (when_undefined k' v o)) -> k = k' \/ In k (map fst o).
Proof.
  unfold when_undefined. destruct (is_undefined _); [|tauto].
  apply prop_set_keys.
Qed.

(** Reading a property through a chain of assignments with literal names. *)
Ltac reads :=
  repeat (rewrite ?get_prop_set, ?get_when_undefined;
          cbn [String.eqb Ascii.eqb Bool.eqb andb]).

(** A computation that returns was made of parts that returned. *)
Lemma bind_returned {E A B} (m : W E A) (k : A -> W E B) t b :
  Flow.bind m k = (t, Returned b) ->
  exists t1 a t2, m = (t1, Returned a) /\ k a = (t2, Returned b).
Proof.
  destruct m as [t1 [a| | | |]]; simpl; try discriminate.
  destruct (k a) as [t2 r] eqn:Hk. inversion 1. subst. eauto.
Qed.

(** An invariant of the accumulator is carried through a loop. *)
Lemma for_each_invariant {E A B} (P : A -> Prop) (body : B -> A -> W E A)
    xs acc t r :
  P acc ->
  (forall x a t' a',
     In x xs -> P a -> body x a = (t', Returned a') -> P a') ->
  for_each body xs acc = (t, Returned r) -> P r.
Proof.
  revert acc t. induction xs as [|x xs IH]; intros acc t Hacc Hstep; simpl.
  - inversion 1. by subst.
  - destruct (body x acc) as [t1 [a1| | | |]] eqn:Hb; simpl;
      try discriminate.
    destruct (for_each body xs a1) as [t2 r2] eqn:Hr. inversion 1. subst.
    eapply (IH a1 t2); [| |exact Hr].
    + eapply (Hstep x acc); [by left|done|exact Hb].
    + intros x' a t' a' Hin. apply Hstep. by right.
Qed.

(** An assignment that returns left the object alone or set the key. *)
Lemma set_property_returned {E} key v o t o' :
  @set_property E key v o = (t, Returned o') ->
  o' = o \/ o' = prop_set key v o.
Proof.
  unfold set_property. destruct (String.eqb key "__proto__").
  - destruct v; inversion 1; by left.
  - inversion 1. by right.
Qed.

Lemma set_property_keys {E} key v o t o' k :
  @set_property E key v o = (t, Returned o') ->
  In k (map fst o') -> In k (map fst o) \/ k = key.
Proof.
  intros H Hk. apply set_property_returned in H.
  destruct H as [->| ->]; [by left|].
  apply prop_set_keys in Hk. tauto.
Qed.

Lemma set_property_other {E} key v o t o' k :
  @set_property E key v o = (t, Returned o') ->
  k <> key -> prop_get k o' = prop_get k o.
Proof.
  intros H Hne. apply set_property_returned in H.
  destruct H as [->| ->]; [done|]. by apply prop_set_ne.
Qed.

(** *** Which keys are kept *)

Lemma map_thing_key_keys MAP name idx thing key acc t acc' :
  map_thing_key MAP name idx thing key acc = (t, Returned acc') ->
  forall k, In k (map fst acc') ->
    In k (map fst acc) \/ (k = key /\ copied MAP key).
Proof.
  unfold map_thing_key, table_get, copied.
  destruct (prop_get key MAP) as [[|]|] eqn:Ha;
    [|inversion 1; subst; by left|destruct (inherited key) eqn:Hi];
    try (intros H k Hk;
         destruct (set_property_keys _ _ _ _ _ _ H Hk) as [? | ->]; tauto).
  cbn. inversion 1. subst. by left.
Qed.

(** The elements of [nics] and [disks] keep only keys their table lists as
    [true], or names inherited from [Object.prototype]. *)
Lemma map_thing_filtered MAP name things t out :
  map_thing MAP name things = (t, Returned out) ->
  Forall (fun o => exists props, o = JObj props /\
                   forall k, In k (map fst props) -> copied MAP k) out.
Proof.
  unfold map_thing. destruct things as [| | | | |elems|]; try discriminate.
  destruct (forallb is_object elems); [|discriminate].
  apply (for_each_invariant
           (Forall (fun o => exists props, o = JObj props /\
                      forall k, In k (map fst props) -> copied MAP k))).
  - constructor.
  - intros [idx thing] acc t' acc' _ Hacc. simpl.
    destruct (for_each (map_thing_key MAP name idx thing) (keys thing) [])
      as [t1 [nt| | | |]] eqn:Hl; simpl; try discriminate.
    inversion 1. subst. apply Forall_app. split; [done|].
    constructor; [|constructor]. exists nt. split; [done|].
    revert Hl.
    apply (for_each_invariant
             (fun o => forall k, In k (map fst o) -> copied MAP k)).
    + intros k [].
    + intros key o t2 o' _ Ho Hstep k Hk.
      destruct (map_thing_key_keys _ _ _ _ _ _ _ _ Hstep k Hk)
        as [Hin|[-> Hc]]; [by apply Ho|done].
Qed.

Lemma map_payload_key_keys payload key acc t acc' :
  map_payload_key payload key acc = (t, Returned acc') ->
  forall k, In k (map fst acc') ->
    In k (map fst acc) \/
    (k = key /\ (key = "nics" \/ key = "disks" \/ copied VM_PAYLOAD key)).
Proof.
  unfold map_payload_key.
  destruct (String.eqb_spec key "nics") as [->|Hn].
  { intros H k Hk. apply bind_returned in H.
    destruct H as (t1 & a & t2 & _ & H).
    destruct (set_property_keys _ _ _ _ _ _ H Hk) as [? | ->]; tauto. }
  destruct (String.eqb_spec key "disks") as [->|Hd].
  { intros H k Hk. apply bind_returned in H.
    destruct H as (t1 & a & t2 & _ & H).
    destruct (set_property_keys _ _ _ _ _ _ H Hk) as [? | ->]; tauto. }
  unfold table_get, copied.
  destruct (prop_get key VM_PAYLOAD) as [[|]|] eqn:Ha;
    [|inversion 1; subst; by left|destruct (inherited key) eqn:Hi];
    try (intros H k Hk;
         destruct (set_property_keys _ _ _ _ _ _ H Hk) as [? | ->]; tauto).
  cbn. inversion 1. subst. by left.
Qed.

Lemma copy_listed_keys payload t np :
  copy_listed payload = (t, Returned np) ->
  forall k, In k (map fst np) ->
    In k (keys payload) /\
    (k = "nics" \/ k = "disks" \/ copied VM_PAYLOAD k).
Proof.
  unfold copy_listed.
  apply (for_each_invariant
           (fun o => forall k, In k (map fst o) ->
              In k (keys payload) /\
              (k = "nics" \/ k = "disks" \/ copied VM_PAYLOAD k))).
  - intros k [].
  - intros key o t' o' Hin Ho Hstep k Hk.
    destruct (map_payload_key_keys _ _ _ _ _ Hstep k Hk) as [H|[-> H]];
      [by apply Ho|done].
Qed.

Lemma fill_defaults_keys np k :
  In k (map fst (fill_defaults render np)) ->
  In k filled_in \/ In k (map fst np).
Proof.
  unfold fill_defaults, filled_in. intros H.
  repeat first
    [ apply when_undefined_keys in H;
      destruct H as [->|H]; [left; simpl; tauto|]
    | apply prop_set_keys in H;
      destruct H as [->|H]; [left; simpl; tauto|]
    | match type of H with
      | context [if ?c then _ else _] => destruct c
      end ];
  by right.
Qed.

Lemma map_payload_returned payload t out :
  map_payload render payload = (t, Returned out) ->
  exists ignored np,
    copy_listed payload = (ignored, Returned np) /\
    out = fill_defaults render np.
Proof.
  unfold map_payload. destruct (is_object payload); [|discriminate].
  destruct (copy_listed payload) as [ig [np| | | |]]; try discriminate.
  intros H. exists ig, np. split; [done|].
  destruct (0 <? length ig)%nat; cbn in H; by inversion H.
Qed.

(** Every key of the new payload is one the mapper fills in itself, or a
    key of the input that is [nics], [disks], listed [true] in
    [VM_PAYLOAD], or a name inherited from [Object.prototype]. *)
Lemma map_payload_keys payload t out :
  map_payload render payload = (t, Returned out) ->
  forall k, In k (map fst out) ->
    In k filled_in \/
    (In k (keys payload) /\
     (k = "nics" \/ k = "disks" \/ copied VM_PAYLOAD k)).
Proof.
  intros H k Hk. apply map_payload_returned in H.
  destruct H as (ig & np & Hc & ->).
  apply fill_defaults_keys in Hk. destruct Hk as [Hk|Hk]; [by left|right].
  by apply (copy_listed_keys _ _ _ Hc).
Qed.


(** *** Which values are kept *)

Lemma map_payload_key_values payload key acc t acc' :
  map_payload_key payload key acc = (t, Returned acc') ->
  forall k, k <> "nics" -> k <> "disks" ->
    prop_get k acc' = prop_get k acc \/ prop_get k acc' = Some (get payload k).
Proof.
  unfold map_payload_key. intros H k Hn Hd.
  destruct (String.eqb_spec key "nics") as [->|Hkn].
  { apply bind_returned in H. destruct H as (t1 & a & t2 & _ & H).
    left. by apply (set_property_other _ _ _ _ _ _ H). }
  destruct (String.eqb_spec key "disks") as [->|Hkd].
  { apply bind_returned in H. destruct H as (t1 & a & t2 & _ & H).
    left. by apply (set_property_other _ _ _ _ _ _ H). }
  assert (forall t0 : list string,
            set_property key (get payload key) acc = (t0, Returned acc') ->
            prop_get k acc' = prop_get k acc \/
            prop_get k acc' = Some (get payload k)) as Hset.
  { intros t0 Hs. apply set_property_returned in Hs.
    destruct Hs as [->| ->]; [by left|].
    destruct (String.eqb_spec k key) as [->|Hne].
    - right. apply prop_set_eq.
    - left. by apply prop_set_ne. }
  destruct (table_get VM_PAYLOAD key) as [[|]| |]; eauto.
  - inversion H. by left.
  - cbn in H. inversion H. by left.
Qed.

(** A key the loop copied carries the value the input has for it. *)
Lemma copy_listed_values payload t np k :
  copy_listed payload = (t, Returned np) ->
  k <> "nics" -> k <> "disks" -> In k (map fst np) ->
  get (JObj np) k = get payload k.
Proof.
  intros Hc Hn Hd Hin.
  assert (prop_get k np = None \/ prop_get k np = Some (get payload k))
    as [H|H].
  { revert Hc. unfold copy_listed.
    apply (for_each_invariant
             (fun o => prop_get k o = None \/
                       prop_get k o = Some (get payload k))).
    - by left.
    - intros key o t' o' _ Ho Hstep.
      destruct (map_payload_key_values _ _ _ _ _ Hstep k Hn Hd)
        as [-> | ->]; [done|by right]. }
  - exfalso. revert Hin H. clear.
    induction np as [|[j w] np IH]; simpl; [done|].
    destruct (String.eqb_spec k j) as [->|Hj]; [discriminate|].
    intros [?|?]; [congruence|]. by apply IH.
  - unfold get at 1. simpl. by rewrite H.
Qed.

(** *** What is filled in *)



(** The [nics] of the new payload: the default [{}] or what the loop put
    there. *)
Lemma fill_defaults_nics np :
  get (JObj (fill_defaults render np)) "nics" =
  if is_undefined (get (JObj np) "nics") then JObj []
  else get (JObj np) "nics".
Proof.
  unfold fill_defaults. cbv zeta.
  set (o1 := when_undefined "nics" (JObj []) np).
  set (o2 := if strict_eq_str (get (JObj o1) "brand") "bhyve" ||
                strict_eq_str (get (JObj o1) "brand") "kvm"
             then when_undefined "disks" (JObj []) o1 else o1).
  assert (get (JObj o2) "nics" = get (JObj o1) "nics") as H2.
  { unfold o2. destruct (_ || _); reads; reflexivity. }
  match goal with
  | |- context [if ?c then prop_set "max_locked_memory" _ _ else _] =>
      destruct c
  end; reads; rewrite H2; unfold o1; reads; reflexivity.
Qed.

Lemma map_payload_key_nics payload key acc t acc' :
  map_payload_key payload key acc = (t, Returned acc') ->
  prop_get "nics" acc' = prop_get "nics" acc \/
  exists ignored things,
    map_thing NIC_PAYLOAD "nic" (get payload "nics") =
      (ignored, Returned things) /\
    prop_get "nics" acc' = Some (JArr things).
Proof.
  unfold map_payload_key. intros H.
  destruct (String.eqb_spec key "nics") as [->|Hkn].
  { apply bind_returned in H. destruct H as (t1 & a & t2 & Hm & H).
    apply set_property_returned in H. destruct H as [->| ->]; [by left|].
    right. exists t1, a. split; [done|apply prop_set_eq]. }
  assert (forall (t0 : list string) v,
            set_property key v acc = (t0, Returned acc') ->
            prop_get "nics" acc' = prop_get "nics" acc) as Hset.
  { intros t0 v Hs. apply (set_property_other _ _ _ _ _ _ Hs). congruence. }
  destruct (String.eqb key "disks").
  { apply bind_returned in H. destruct H as (t1 & a & t2 & _ & H).
    left. eauto. }
  destruct (table_get VM_PAYLOAD key) as [[|]| |];
    [left; eauto| |left; eauto|].
  - inversion H. by left.
  - cbn in H. inversion H. by left.
Qed.

(** When the new payload has [nics] from the input, they are the input's
    elements filtered through [NIC_PAYLOAD]. *)
Lemma map_payload_nics payload t new :
  map_payload render payload = (t, Returned new) ->
  get (JObj new) "nics" = JObj [] \/
  exists ignored things,
    map_thing NIC_PAYLOAD "nic" (get payload "nics") =
      (ignored, Returned things) /\
    get (JObj new) "nics" = JArr things /\
    Forall (fun o => exists props, o = JObj props /\
                     forall k, In k (map fst props) -> copied NIC_PAYLOAD k)
           things.
Proof.
  intros H. apply map_payload_returned in H.
  destruct H as (ig & np & Hc & ->). rewrite fill_defaults_nics.
  assert (prop_get "nics" np = None \/
          exists ignored things,
            map_thing NIC_PAYLOAD "nic" (get payload "nics") =
              (ignored, Returned things) /\
            prop_get "nics" np = Some (JArr things))
    as [Hn|(i1 & th & Hm & Hn)].
  { revert Hc. unfold copy_listed.
    apply (for_each_invariant
             (fun o => prop_get "nics" o = None \/
                exists ignored things,
                  map_thing NIC_PAYLOAD "nic" (get payload "nics") =
                    (ignored, Returned things) /\
                  prop_get "nics" o = Some (JArr things))).
    - by left.
    - intros key o t' o' _ Ho Hstep.
      destruct (map_payload_key_nics _ _ _ _ _ Hstep) as [-> | ?];
        [done|by right]. }
  - left. unfold get. simpl. by rewrite Hn.
  - right. exists i1, th. split; [done|]. split.
    + unfold get. simpl. by rewrite Hn.
    + by apply (map_thing_filtered _ _ _ _ _ Hm).
Qed.

End Mapper.

(** ** Claims about the tasks at concrete inputs *)

Section TaskWitnesses.

Import Task Examples.


(** The payload of the source's comment: the listed keys are kept, those
    listed [false] are dropped without a word, [zfs_io_priority] is replaced
    by 100 and [max_locked_memory] follows [max_swap]. *)
Example sample_payload_mapped :
  MachineCreate.map_payload render sample_payload =
    ([], Returned
       [ ("server_uuid", JStr "8acf94fb-5f16-44ee-b4ab-20a1431cf3a3");
         ("uuid", JStr vm_uuid);
         ("alias", JStr "dummy001");
         ("billing_id", JStr "40d8b3d7-aa4c-e521-f9f1-be6564a4c681");
         ("brand", JStr "joyent-minimal");
         ("cpu_cap", JNum 25); ("cpu_shares", JNum 8);
         ("customer_metadata", JObj []);
         ("max_lwps", JNum 4000); ("max_physical_memory", JNum 128);
         ("max_swap", JNum 512);
         ("nics",
          JArr [ JObj [ ("mac", JStr "90:b8:d0:35:36:16");
                        ("primary", JBool true);
                        ("ip", JStr "172.24.16.73");
                        ("mtu", JNum 1500);
                        ("netmask", JStr "255.255.240.0");
                        ("nic_tag", JStr "admin");
                        ("vlan_id", JNum 0);
                        ("network_uuid",
                         JStr "1627c87c-38c6-40d7-8f14-4ff054debda8") ] ]);
         ("owner_uuid", JStr "55ff8285-560e-4b70-9326-1fa5de67f5fd");
         ("quota", JNum 3); ("ram", JNum 128);
         ("archive_on_delete", JBool true);
         ("resolvers", JArr [JStr "172.24.16.37"]);
         ("image_uuid", JStr "6db48df2-e1a3-11e5-8ca6-8ff02d5c69dc");
         ("autoboot", JBool true); ("datasets", JArr []);
         ("limit_priv", JStr "default");
         ("max_locked_memory", JNum 512);
         ("zpool", JStr "zones");
         ("zfs_filesystem", JStr ("zones/" +:+ vm_uuid));
         ("zonepath", JStr ("/zones/" +:+ vm_uuid));
         ("zfs_io_priority", JNum 100) ]).
Proof. vm_compute. reflexivity. Qed.

(** An unlisted key is dropped and reported in the warning. *)
Example unlisted_key_is_reported :
  MachineCreate.map_payload render
    (JObj [("uuid", JStr vm_uuid); ("flavour", JStr "mint");
           ("nics", JArr [JObj [("ip", JStr "10.0.0.2");
                                ("gateway", JStr "10.0.0.1")]])]) =
    ([LogWarnIgnored ["flavour"; "nic.0.gateway"]],
     Returned
       [ ("uuid", JStr vm_uuid);
         ("nics", JArr [JObj [("ip", JStr "10.0.0.2")]]);
         ("autoboot", JBool true); ("datasets", JArr []);
         ("limit_priv", JStr "default"); ("zpool", JStr "zones");
         ("zfs_filesystem", JStr ("zones/" +:+ vm_uuid));
         ("zonepath", JStr ("/zones/" +:+ vm_uuid));
         ("zfs_io_priority", JNum 100) ]).
Proof. vm_compute. reflexivity. Qed.

(** Scenario A of the specification: the machine exists, the pipeline
    stops at the pre-check and the task fails with a message saying so. *)
Example existing_machine_fails :
  MachineCreate.start render is_uuid occupied create_task =
    ([ Step "pre_check"; External "vmadm.exists" (JStr vm_uuid);
       Fatal (JStr ("Machine " +:+ vm_uuid +:+ " exists."))
             JUndefined JUndefined ],
     Stalled) /\
  state (lifecycle (fst (MachineCreate.start render is_uuid occupied
                           create_task))) = FAILED.
Proof. split; vm_compute; reflexivity. Qed.

(** C10, at the failing input.  [VM_PAYLOAD] has no entry [toString], the
    input has a key of that name, and the new payload carries it: the
    lookup [VM_PAYLOAD['toString']] finds the member inherited from
    [Object.prototype], which is neither [undefined] nor falsy.  Nothing is
    reported as ignored. *)
Theorem C10_inherited_key_is_copied :
  prop_get "toString" MachineCreate.VM_PAYLOAD = None /\
  MachineCreate.map_payload render polluted_params =
    ([], Returned
           [ ("uuid", JStr vm_uuid); ("toString", JStr "x");
             ("nics", JObj []); ("autoboot", JBool true);
             ("datasets", JArr []); ("limit_priv", JStr "default");
             ("zpool", JStr "zones");
             ("zfs_filesystem", JStr ("zones/" +:+ vm_uuid));
             ("zonepath", JStr ("/zones/" +:+ vm_uuid));
             ("zfs_io_priority", JNum 100) ]).
Proof. split; vm_compute; reflexivity. Qed.

End TaskWitnesses.

(** * Further properties *)

(** ** The dispatcher *)

Section DispatcherInvariants.

Import TaskAgent Observe.

Variable render : jsval -> string.

Lemma next_calls_app a b : next_calls (a ++ b) = next_calls a ++ next_calls b.
Proof. unfold next_calls. apply omap_app. Qed.

Lemma invoked_app a b : invoked (a ++ b) = invoked a ++ invoked b.
Proof. unfold invoked. apply omap_app. Qed.

(** What one call on the context produces: nothing but a trace line, or
    the response followed by [next()]. *)
Lemma deliver_shape s c :
  exists trace answer,
    snd (deliver s c) = trace ++ answer /\
    Forall (fun e => exists n m, e = LogTraceEvent n m) trace /\
    (answer = [] \/
     exists status body,
       answer = [Send status body; Next None] /\
       (status = 200 \/ status = 500)%Z).
Proof.
  assert (forall c', exists answer,
            snd (fcb c') = answer /\
            (answer = [] \/
             exists status body,
               answer = [Send status body; Next None] /\
               (status = 200 \/ status = 500)%Z)) as Hfcb.
  { intros c'. eexists; split; [reflexivity|]. unfold fcb.
    destruct (_ =? 2)%Z; [destruct (truthy _)|]; simpl; eauto 8. }
  destruct s as [|v|name m]; simpl.
  - destruct (Hfcb c) as (a & <- & Ha). exists [], (snd (fcb c)). eauto.
  - exists [], []. eauto.
  - unfold event.
    destruct (String.eqb name "finish").
    + destruct (Hfcb {| value := m; error := error c; cbcount := cbcount c |})
        as (a & Ea & Ha).
      destruct (fcb _) as [c1 o1]. simpl in *. subst o1.
      exists [LogTraceEvent name m], a. repeat split; eauto.
    + exists [LogTraceEvent name m], [].
      destruct (String.eqb name "error"); simpl; repeat split; eauto.
Qed.

Lemma run_shape sigs c :
  next_calls (snd (run sigs c)) =
    map (fun _ => None) (responses (snd (run sigs c))) /\
  Forall (fun r => r.1 = 200 \/ r.1 = 500)%Z (responses (snd (run sigs c))) /\
  invoked (snd (run sigs c)) = [].
Proof.
  revert c; induction sigs as [|s sigs IH]; intros c.
  - simpl. repeat split; constructor.
  - cbn [run]. destruct (deliver_shape s c) as (tr & an & E & Htr & Han).
    destruct (deliver s c) as [c1 o1]. cbn [snd] in E. subst o1.
    destruct (IH c1) as (I1 & I2 & I3).
    destruct (run sigs c1) as [c2 o2]. cbn [snd] in *.
    assert (next_calls tr = [] /\ responses tr = [] /\ invoked tr = [])
      as (T1 & T2 & T3).
    { clear -Htr. induction Htr as [|e tr (n & m & ->) _ (? & ? & ?)];
        [done|]. simpl. done. }
    rewrite !next_calls_app, !responses_app, !invoked_app, T1, T2, T3, I1, I3.
    destruct Han as [->|(st & body & -> & Hst)]; simpl.
    + done.
    + repeat split; try done. by constructor.
Qed.

(** X1.  Whatever the request and whatever the task does, the handler writes
    at most one response, its status is 200 or 500, it calls [next] at most
    once, and a response is followed by [next()] without an error. *)
Theorem handler_answers_at_most_once self req :
  let out := handler render self req in
  (length (responses out) <= 1)%nat /\
  (length (next_calls out) <= 1)%nat /\
  Forall (fun r => r.1 = 200 \/ r.1 = 500)%Z (responses out) /\
  (responses out <> [] -> next_calls out = [None]).
Proof.
  assert (forall e,
            let out := [Next (Some e)] in
            (length (responses out) <= 1)%nat /\
            (length (next_calls out) <= 1)%nat /\
            Forall (fun r => r.1 = 200 \/ r.1 = 500)%Z (responses out) /\
            (responses out <> [] -> next_calls out = [None])) as Hrej.
  { intros e. simpl. repeat split; [lia | lia | constructor | done]. }
  assert (let out := handler_checked render self req in
          (length (responses out) <= 1)%nat /\
          (length (next_calls out) <= 1)%nat /\
          Forall (fun r => r.1 = 200 \/ r.1 = 500)%Z (responses out) /\
          (responses out <> [] -> next_calls out = [None])) as Hchk.
  { unfold handler_checked.
    destruct (params req !! "task") as [taskName|]; [|apply Hrej].
    destruct (params req !! "params"); [|apply Hrej].
    cbv zeta.
    assert (responses (prepare self req) = [] /\
            next_calls (prepare self req) = []) as [P1 P2].
    { unfold prepare, log_task_params. by destruct (fst _). }
    rewrite responses_app, next_calls_app, P1, P2. cbn [app].
    unfold call_task. destruct (dispatch_get _ _).
    - destruct (run_shape (f (make_ctx self req)) closure0) as (R1 & R2 & _).
      pose proof (responses_count (f (make_ctx self req))) as Hc.
      set (o := snd (run (f (make_ctx self req)) closure0)) in *.
      change (responses (Invoke (to_string render taskName)
                           (make_ctx self req) :: o)) with (responses o).
      change (next_calls (Invoke (to_string render taskName)
                            (make_ctx self req) :: o)) with (next_calls o).
      rewrite R1, length_map.
      assert (length (responses o) <= 1)%nat as Hle.
      { rewrite Hc. destruct (2 <=? _)%nat; lia. }
      repeat split; [done | done | done |].
      intros Hne. destruct (responses o) as [|r [|r' rs]];
        [done | done | simpl in Hle; lia].
    - simpl. repeat split; [lia | lia | constructor | done].
    - simpl. repeat split; [lia | lia | constructor | done].
    - simpl. repeat split; [lia | lia | constructor | done].
    - apply Hrej. }
  unfold handler.
  destruct (header_x_server_uuid req) as [target|]; [|exact Hchk].
  destruct (negb _); [apply Hrej | exact Hchk].
Qed.


(** A name no queue lists leaves the log flag set. *)
Lemma flag_kept tn defns :
  (forall t, tn = JStr t -> ~ muted defns t) ->
  fst (scan_queues tn defns) = true.
Proof.
  intros H. rewrite scan_queues_visits, fold_visit_flag. simpl.
  apply negb_true_iff, not_true_is_false. intros Hex.
  apply existsb_exists in Hex as ([j i] & Hin & Hb). simpl in Hb.
  apply andb_true_iff in Hb as [Hj Hl].
  destruct tn as [| | | |t| |]; try discriminate. simpl in Hj.
  apply String.eqb_eq in Hj. subst j.
  apply (H t eq_refl). exists i. split; [done|].
  destruct (log_params i) as [[]|]; done.
Qed.


(** X3.  A request for a task name that no queue lists but that names a
    member of [Object.prototype] is never answered: the handler writes no
    response, never calls [next], and calls no registered entry point. *)
Theorem inherited_name_is_never_answered self req k :
  for_this_server self req = true ->
  params req !! "task" = Some (JStr k) ->
  is_Some (params req !! "params") ->
  ~ registered (queueDefns self) k ->
  ~ registered (queueDefns self) "__proto__" ->
  inherited k = true ->
  responses (handler render self req) = [] /\
  next_calls (handler render self req) = [] /\
  invoked (handler render self req) = [].
Proof.
  intros Hs Ht Hp Hk Hproto Hi.
  assert (responses (prepare self req) = [] /\
          next_calls (prepare self req) = [] /\
          invoked (prepare self req) = []) as (P1 & P2 & P3).
  { unfold prepare, log_task_params. by destruct (fst _). }
  destruct (decide (k = "__proto__")) as [->|Hne].
  - rewrite handler_checked_eq by done. unfold handler_checked.
    destruct Hp as [p Hp]. rewrite Ht, Hp.
    rewrite responses_app, next_calls_app, invoked_app, P1, P2, P3.
    unfold call_task, dispatch_get. simpl.
    rewrite scan_queues_visits, fold_visit_proto; [done|].
    intros i Hin. apply Hproto. by exists i.
  - rewrite (inherited_name_is_called render self req k) by done.
    by rewrite responses_app, next_calls_app, invoked_app, P1, P2, P3.
Qed.

(** X4.  When several queue definitions list the same task name, the entry
    point of the last one that lists it is the one the handler finds; the
    log flag, however, is cleared by any of them. *)
Theorem last_registration_wins tn defns before i after t :
  visits defns = before ++ (t, i) :: after ->
  (forall i', ~ In (t, i') after) ->
  dispatch_get (snd (scan_queues tn defns)) t = MFunction (onhttpmsg i) /\
  (fst (scan_queues (JStr t) defns) = false <-> muted defns t).
Proof.
  intros Hv Hlast. split.
  - rewrite scan_queues_visits, Hv, fold_left_app. cbn [fold_left].
    set (st := visit tn (fold_left (visit tn) before (true, dispatch_empty))
                 (t, i)).
    assert (dispatch_get (snd st) t = MFunction (onhttpmsg i)) as Hst
      by apply dispatch_get_set_eq.
    clearbody st. clear Hv. revert st Hst Hlast.
    induction after as [|[j i'] after IH]; intros st Hst Hlast; [done|].
    cbn [fold_left]. apply IH.
    + apply dispatch_get_set_ne; [|done].
      simpl. intros ->. apply (Hlast i'). by left.
    + intros i'' Hin. apply (Hlast i''). by right.
  - split.
    + intros Hf. destruct (fst (scan_queues (JStr t) defns)) eqn:E;
        [discriminate|].
      rewrite scan_queues_visits, fold_visit_flag in E. simpl in E.
      apply negb_false_iff, existsb_exists in E as ([j i'] & Hin & Hb).
      simpl in Hb. apply andb_true_iff in Hb as [Hj Hl].
      apply String.eqb_eq in Hj. subst j. exists i'. split; [done|].
      destruct (log_params i') as [[]|]; done.
    + apply flag_cleared.
Qed.

(** Calls that are neither an acknowledgment nor an error report leave the
    variables of the request alone and produce no response. *)
Lemma deliver_irrelevant s c :
  relevant s = false ->
  fst (deliver s c) = c /\
  responses (snd (deliver s c)) = [] /\ next_calls (snd (deliver s c)) = [].
Proof.
  destruct s as [|v|name m]; simpl; [discriminate|done|].
  intros H. apply orb_false_iff in H as [H1 H2].
  unfold event. rewrite H1, H2. done.
Qed.

(** X5.  [progress(v)] and events other than 'finish' and 'error' have no
    influence on the response: leaving them out of the calls a task makes
    gives the same variables, the same response and the same calls of
    [next]. *)
Theorem other_calls_are_ignored sigs c :
  fst (run (List.filter relevant sigs) c) = fst (run sigs c) /\
  responses (snd (run (List.filter relevant sigs) c)) =
    responses (snd (run sigs c)) /\
  next_calls (snd (run (List.filter relevant sigs) c)) =
    next_calls (snd (run sigs c)).
Proof.
  revert c; induction sigs as [|s sigs IH]; intros c; [done|].
  cbn [List.filter]. destruct (relevant s) eqn:R.
  - cbn [run]. destruct (deliver s c) as [c1 o1].
    destruct (IH c1) as (I1 & I2 & I3).
    destruct (run (List.filter relevant sigs) c1) as [c2 o2].
    destruct (run sigs c1) as [c3 o3]. cbn [fst snd] in *.
    by rewrite !responses_app, !next_calls_app, I1, I2, I3.
  - cbn [run]. destruct (deliver_irrelevant s c R) as (D1 & D2 & D3).
    destruct (deliver s c) as [c1 o1]. cbn [fst snd] in *. subst c1.
    destruct (IH c) as (I1 & I2 & I3).
    destruct (run sigs c) as [c3 o3]. cbn [fst snd] in *.
    by rewrite responses_app, next_calls_app, D2, D3.
Qed.

(** X6.  The comparison [j === taskName] of line 117 never holds for a task
    value that is not a string, while [dispatch[req.params.task]] converts
    the value to a property key.  A request whose task value is, say, an
    array holding a registered name is therefore dispatched to that task
    with its parameters logged, whatever [log_params] says. *)
Theorem task_value_that_is_no_string_is_logged self req taskName t :
  for_this_server self req = true ->
  params req !! "task" = Some taskName ->
  is_Some (params req !! "params") ->
  (forall s, taskName <> JStr s) ->
  to_string render taskName = t ->
  registered (queueDefns self) t ->
  exists i, In (t, i) (visits (queueDefns self)) /\
    handler render self req =
      [ ReqSetTimeout ((timeoutSeconds self + 300) * 1000);
        ResSetTimeout ((timeoutSeconds self + 300) * 1000);
        LogTaskParams (params req) taskName;
        Invoke t (make_ctx self req) ] ++
      snd (run (onhttpmsg i (make_ctx self req)) closure0).
Proof.
  intros Hs Ht [p Hp] Hn Hk Hreg.
  destruct (fold_visit_registered taskName (visits (queueDefns self))
              (true, dispatch_empty) t Hreg) as (i & Hin & Hg).
  exists i. split; [done|].
  rewrite handler_checked_eq by done. unfold handler_checked.
  rewrite Ht, Hp. unfold prepare, log_task_params, call_task.
  rewrite Ht. cbn [default]. cbv zeta. unfold id.
  rewrite flag_kept by (intros s ->; by destruct (Hn s)).
  by rewrite Hk, scan_queues_visits, Hg.
Qed.

End DispatcherInvariants.

Section DispatcherScenarios.

Import TaskAgent Observe Examples Scenarios.


Lemma inherited_name_is_never_answered_witness :
  responses (handler render node value_of_request) = [] /\
  next_calls (handler render node value_of_request) = [] /\
  invoked (handler render node value_of_request) = [].
Proof.
  apply (inherited_name_is_never_answered render node value_of_request
           "valueOf").
  - reflexivity.
  - reflexivity.
  - by eexists.
  - by apply not_registered_by_scan.
  - by apply not_registered_by_scan.
  - reflexivity.
Defined.

Lemma last_registration_wins_witness :
  dispatch_get (snd (scan_queues (JStr "machine_create") (queueDefns node3)))
               "machine_create" = MFunction both_signals /\
  (fst (scan_queues (JStr "machine_create") (queueDefns node3)) = false <->
   muted (queueDefns node3) "machine_create").
Proof.
  apply (last_registration_wins (JStr "machine_create") (queueDefns node3)
           [("machine_create", shadow)] provisioner
           [("machine_destroy", provisioner)] "machine_create").
  - reflexivity.
  - intros i' [H|[]]. discriminate.
Defined.

Lemma task_value_that_is_no_string_is_logged_witness :
  exists i, In ("recovery_config", i) (visits (queueDefns node)) /\
    handler render_array node wrapped_request =
      [ ReqSetTimeout ((timeoutSeconds node + 300) * 1000);
        ResSetTimeout ((timeoutSeconds node + 300) * 1000);
        LogTaskParams (params wrapped_request)
                      (JArr [JStr "recovery_config"]);
        Invoke "recovery_config" (make_ctx node wrapped_request) ] ++
      snd (run (onhttpmsg i (make_ctx node wrapped_request)) closure0).
Proof.
  apply (task_value_that_is_no_string_is_logged render_array node
           wrapped_request (JArr [JStr "recovery_config"])
           "recovery_config").
  - reflexivity.
  - reflexivity.
  - by eexists.
  - discriminate.
  - reflexivity.
  - exists secrets. simpl. auto.
Defined.

End DispatcherScenarios.

(** ** The payload mapper *)

Section Loops.

Context {E A B : Type}.

Implicit Types (body : B -> A -> W E A) (xs : list B).

Lemma for_each_cons body x xs acc :
  for_each body (x :: xs) acc = Flow.bind (body x acc) (for_each body xs).
Proof. reflexivity. Qed.

(** A property the body establishes at [x] and every iteration keeps holds
    after a loop that visits [x]. *)
Lemma for_each_reaches (P : A -> Prop) body xs acc t r x :
  In x xs ->
  (forall a t' a', body x a = (t', Returned a') -> P a') ->
  (forall y a t' a', P a -> body y a = (t', Returned a') -> P a') ->
  for_each body xs acc = (t, Returned r) -> P r.
Proof.
  intros Hin Hx Hkeep. revert acc t Hin.
  induction xs as [|y xs IH]; intros acc t Hin; [destruct Hin|].
  rewrite for_each_cons. intros H.
  apply bind_returned in H as (t1 & a & t2 & Hb & Hr).
  destruct Hin as [->|Hin].
  - revert Hr. apply for_each_invariant; [exact (Hx _ _ _ Hb)|].
    intros y a0 t' a' _. apply Hkeep.
  - by eapply IH.
Qed.

(** What the body records at [x] is part of what the loop records. *)
Lemma for_each_records body xs acc t r x :
  In x xs ->
  for_each body xs acc = (t, Returned r) ->
  exists a tx a', body x a = (tx, Returned a') /\ incl tx t.
Proof.
  revert acc t. induction xs as [|y xs IH]; intros acc t Hin;
    [destruct Hin|].
  rewrite for_each_cons. intros H.
  pose proof H as H0.
  apply bind_returned in H as (t1 & a & t2 & Hb & Hr).
  assert (t = t1 ++ t2) as ->.
  { rewrite Hb in H0. simpl in H0. rewrite Hr in H0. by inversion H0. }
  destruct Hin as [->|Hin].
  - exists acc, t1, a. split; [done|]. apply incl_appl, incl_refl.
  - destruct (IH a t2 Hin Hr) as (a0 & tx & a' & Hx & Hi).
    exists a0, tx, a'. split; [done|]. by apply incl_appr.
Qed.

(** A loop whose body cannot return at [x] does not return. *)
Lemma for_each_stops body xs acc x :
  In x xs ->
  (forall a a', snd (body x a) <> Returned a') ->
  forall r, snd (for_each body xs acc) <> Returned r.
Proof.
  intros Hin Hx r H.
  destruct (for_each body xs acc) as [t o] eqn:Hf. simpl in H. subst o.
  destruct (for_each_records _ _ _ _ _ _ Hin Hf) as (a & tx & a' & Hb & _).
  apply (Hx a a'). by rewrite Hb.
Qed.

End Loops.

Section PropertyReads.

Context {A : Type}.

Implicit Types (k : string) (v : A) (l : list (string * A)).

Lemma prop_get_In k l : In k (map fst l) -> is_Some (prop_get k l).
Proof.
  induction l as [|[j w] l IH]; simpl; [done|].
  destruct (String.eqb_spec k j) as [->|Hne]; [by eexists|].
  intros [?|?]; [congruence|by apply IH].
Qed.

Lemma prop_get_Some_In k v l : prop_get k l = Some v -> In k (map fst l).
Proof.
  induction l as [|[j w] l IH]; simpl; [done|].
  destruct (String.eqb_spec k j) as [->|Hne]; [by left|].
  intros H. right. by apply IH.
Qed.

(** Setting a key the object does not have appends it. *)
Lemma prop_set_fresh k v l :
  ~ In k (map fst l) -> prop_set k v l = l ++ [(k, v)].
Proof.
  induction l as [|[j w] l IH]; simpl; [done|]. intros Hn.
  destruct (String.eqb_spec k j) as [->|Hne]; [tauto|].
  rewrite IH; [done|tauto].
Qed.

(** With distinct keys, each entry is what reading its key gives. *)
Lemma prop_get_NoDup k v l :
  NoDup (map fst l) -> In (k, v) l -> prop_get k l = Some v.
Proof.
  induction l as [|[j w] l IH]; simpl; [done|].
  intros Hnd [Heq|Hin].
  - inversion Heq. subst. by rewrite String.eqb_refl.
  - apply NoDup_cons in Hnd as [Hj Hnd].
    destruct (String.eqb_spec k j) as [->|Hne]; [|by apply IH].
    exfalso. apply Hj. apply list_elem_of_In.
    change j with (fst (j, v)). by apply in_map.
Qed.

End PropertyReads.

Section MapperDetails.

Import Task MachineCreate Filtering.

Variable render : jsval -> string.

Lemma table_get_plain MAP key :
  inherited key = false ->
  table_get MAP key =
  match prop_get key MAP with Some b => Listed b | None => Absent end.
Proof. unfold table_get. by intros ->. Qed.

Lemma set_property_plain {E'} key v o :
  inherited key = false ->
  @set_property E' key v o = ret (prop_set key v o).
Proof.
  unfold set_property. intros H.
  destruct (String.eqb_spec key "__proto__") as [->|]; [discriminate|done].
Qed.

(** The inner loop of [map_thing] on a plain object, from any point on. *)
Lemma map_thing_keys_plain MAP name idx pre suf :
  NoDup (map fst (pre ++ suf)) ->
  Forall (fun k => inherited k = false) (map fst (pre ++ suf)) ->
  for_each (map_thing_key MAP name idx (JObj (pre ++ suf))) (map fst suf)
    (List.filter (fun kv => listed MAP (fst kv)) pre) =
  (map (label name idx) (List.filter (unlisted MAP) (map fst suf)),
   Returned (List.filter (fun kv => listed MAP (fst kv)) (pre ++ suf))).
Proof.
  revert pre. induction suf as [|[k v] suf IH]; intros pre Hnd Hpl.
  - by rewrite app_nil_r.
  - cbn [map fst]. rewrite for_each_cons.
    assert (inherited k = false) as Hk.
    { rewrite Forall_forall in Hpl. apply Hpl, list_elem_of_In.
      rewrite map_app. apply in_or_app. right. by left. }
    assert (~ In k (map fst pre)) as Hfresh.
    { rewrite map_app in Hnd. apply NoDup_app in Hnd as (_ & Hd & _).
      intros Hin. apply (Hd k); apply list_elem_of_In; [done|by left]. }
    assert (get (JObj (pre ++ (k, v) :: suf)) k = v) as Hget.
    { unfold get. simpl. rewrite (prop_get_NoDup k v); [done|done|].
      apply in_or_app. right. by left. }
    specialize (IH (pre ++ [(k, v)])).
    rewrite <- app_assoc in IH. cbn [app] in IH.
    specialize (IH Hnd Hpl).
    rewrite List.filter_app in IH. cbn [List.filter fst] in IH.
    set (acc := List.filter (fun kv => listed MAP (fst kv)) pre) in *.
    assert (map_thing_key MAP name idx (JObj (pre ++ (k, v) :: suf)) k acc =
            ((if unlisted MAP k then [label name idx k] else []),
             Returned (acc ++ (if listed MAP k then [(k, v)] else []))))
      as Hstep.
    { unfold map_thing_key, listed, unlisted.
      rewrite table_get_plain by done.
      destruct (prop_get k MAP) as [[|]|] eqn:Hm.
      - rewrite set_property_plain, Hget by done.
        rewrite prop_set_fresh; [done|].
        intros Hin. apply Hfresh.
        apply in_map_iff in Hin as ([k' v'] & <- & Hin).
        apply filter_In in Hin as [Hin _].
        change k' with (fst (k', v')). by apply in_map.
      - by rewrite app_nil_r.
      - by rewrite app_nil_r. }
    rewrite Hstep. unfold Flow.bind. rewrite IH.
    cbn [List.filter]. by destruct (unlisted MAP k).
Qed.

(** The outer loop, from any index on. *)
Lemma map_thing_loop_plain MAP name (g : nat -> nat) elems acc :
  Forall plain elems ->
  for_each
    (fun '(thingIdx, thing) newThings =>
       newThing <-
         for_each (map_thing_key MAP name thingIdx thing) (keys thing) [] ;;
       ret (newThings ++ [JObj newThing]))
    (imap (fun i x => (g i, x)) elems) acc =
  (concat (imap (fun i thing => reported_for MAP name (g i) thing) elems),
   Returned (acc ++ map (kept MAP) elems)).
Proof.
  remember (fun '(thingIdx, thing) (newThings : list jsval) =>
              newThing <-
                for_each (map_thing_key MAP name thingIdx thing)
                         (keys thing) [] ;;
              (ret (newThings ++ [JObj newThing]) : W string (list jsval)))
    as body eqn:Hb.
  revert g acc. induction elems as [|thing elems IH]; intros g acc Hpl.
  - simpl. by rewrite app_nil_r.
  - apply Forall_cons in Hpl as [(props & -> & Hnd & Hin) Hpl].
    cbn [imap]. rewrite for_each_cons.
    assert (body (g 0%nat, JObj props) acc =
            (reported_for MAP name (g 0%nat) (JObj props),
             Returned (acc ++ [kept MAP (JObj props)]))) as Hstep.
    { rewrite Hb.
      pose proof (map_thing_keys_plain MAP name (g 0%nat) [] props Hnd Hin)
        as Hl.
      cbn [app List.filter] in Hl. unfold keys. cbn [own_props].
      rewrite Hl. unfold ret, Flow.bind, reported_for, kept, keys.
      cbn [own_props]. by rewrite app_nil_r. }
    rewrite Hstep. unfold Flow.bind.
    change (imap ((fun i x => (g i, x)) ∘ S) elems)
      with (imap (fun i x => (g (S i), x)) elems).
    rewrite (IH (fun i => g (S i))) by done.
    cbn [concat imap map]. by rewrite <- app_assoc.
Qed.

(** X7.  On an array of plain objects [map_thing] returns, element by
    element and in order, the properties the table lists as [true], and
    reports every key the table does not have under the name
    [name.index.key]. *)
Theorem map_thing_of_plain_objects MAP name elems :
  Forall plain elems ->
  map_thing MAP name (JArr elems) =
    (concat (imap (reported_for MAP name) elems),
     Returned (map (kept MAP) elems)).
Proof.
  intros Hpl. unfold map_thing.
  assert (forallb is_object elems = true) as ->.
  { apply forallb_forall. intros x Hx. rewrite Forall_forall in Hpl.
    apply list_elem_of_In in Hx.
    destruct (Hpl x Hx) as (props & -> & _). done. }
  apply (map_thing_loop_plain MAP name (fun i => i) elems [] Hpl).
Qed.


(** Reading a property through the assignments of [fill_defaults]. *)
Ltac read_through H :=
  repeat first
    [ rewrite get_prop_set
    | rewrite get_when_undefined
    | rewrite H by (unfold filled_in; simpl; tauto)
    | progress cbn [andb]
    | match goal with
      | |- context [if ?c then prop_set _ _ _ else _] => destruct c
      | |- context [if ?c then when_undefined _ _ _ else _] => destruct c
      end ].

(** [fill_defaults] leaves alone what it does not fill in. *)
Lemma fill_defaults_other np k :
  ~ In k filled_in ->
  get (JObj (fill_defaults render np)) k = get (JObj np) k.
Proof.
  intros Hk.
  assert (forall n, In n filled_in -> String.eqb k n = false) as Hne.
  { intros n Hn. apply String.eqb_neq. by intros ->. }
  unfold fill_defaults. cbv zeta. read_through Hne; reflexivity.
Qed.

Lemma listed_not_filled_in k :
  prop_get k VM_PAYLOAD = Some true -> k <> "nics" -> k <> "disks" ->
  ~ In k filled_in.
Proof.
  intros Hl Hn Hd Hf. unfold filled_in in Hf. simpl in Hf.
  repeat (destruct Hf as [<-|Hf]; [try done; vm_compute in Hl; discriminate|]).
  done.
Qed.

(** After the loop, a key listed [true] holds the input's value. *)
Lemma copy_listed_reaches payload t np k :
  copy_listed payload = (t, Returned np) ->
  In k (keys payload) -> prop_get k VM_PAYLOAD = Some true ->
  k <> "nics" -> k <> "disks" ->
  prop_get k np = Some (get payload k).
Proof.
  intros Hc Hin Hl Hn Hd. revert Hc. unfold copy_listed.
  apply (for_each_reaches (fun o => prop_get k o = Some (get payload k))
           _ _ _ _ _ k Hin).
  - intros a t' a' Hs. unfold map_payload_key in Hs.
    rewrite (proj2 (String.eqb_neq _ _) Hn) in Hs.
    rewrite (proj2 (String.eqb_neq _ _) Hd) in Hs.
    unfold table_get in Hs. rewrite Hl in Hs. unfold set_property in Hs.
    destruct (String.eqb_spec k "__proto__") as [->|_];
      [vm_compute in Hl; discriminate|].
    inversion Hs. apply prop_set_eq.
  - intros y a t' a' Pa Hs.
    destruct (map_payload_key_values _ _ _ _ _ Hs k Hn Hd) as [-> | ->];
      done.
Qed.

(** X8.  A key of the input that [VM_PAYLOAD] lists as [true] (other than
    [nics] and [disks], which are mapped element by element) reaches the
    new payload with the value the input has for it. *)
Theorem listed_values_pass_through payload t out k :
  map_payload render payload = (t, Returned out) ->
  In k (keys payload) ->
  prop_get k VM_PAYLOAD = Some true -> k <> "nics" -> k <> "disks" ->
  get (JObj out) k = get payload k.
Proof.
  intros H Hin Hl Hn Hd.
  apply map_payload_returned in H as (ig & np & Hc & ->).
  rewrite fill_defaults_other by by apply listed_not_filled_in.
  unfold get at 1. simpl.
  by rewrite (copy_listed_reaches payload ig np k).
Qed.

Lemma fill_defaults_grows np k :
  In k (map fst np) -> In k (map fst (fill_defaults render np)).
Proof.
  assert (forall k' v (o : list (string * jsval)), In k (map fst o) ->
            In k (map fst (prop_set k' v o))) as Hs.
  { intros k' v o Ho. apply prop_set_keys. by right. }
  assert (forall k' v (o : list (string * jsval)), In k (map fst o) ->
            In k (map fst (when_undefined k' v o))) as Hw.
  { intros k' v o Ho. unfold when_undefined.
    destruct (is_undefined _); [by apply Hs|done]. }
  intros H. unfold fill_defaults. cbv zeta.
  repeat first
    [ apply Hs | apply Hw
    | match goal with
      | |- context [if ?c then prop_set _ _ _ else _] => destruct c
      | |- context [if ?c then when_undefined _ _ _ else _] => destruct c
      end ];
  done.
Qed.

(** X9.  Apart from the names the mapper fills in itself and the names of
    [Object.prototype], the keys of the new payload are exactly the keys of
    the input that [VM_PAYLOAD] lists as [true]: keys listed [false] and
    keys the table does not have are dropped. *)
Theorem map_payload_keeps_exactly_the_listed_keys payload t out k :
  map_payload render payload = (t, Returned out) ->
  ~ In k filled_in -> inherited k = false ->
  (In k (map fst out) <->
   In k (keys payload) /\ prop_get k VM_PAYLOAD = Some true).
Proof.
  intros H Hf Hi. split.
  - intros Hk.
    destruct (map_payload_keys render payload t out H k Hk)
      as [Hk'|[Hin [->|[->|[Hl|[_ Hl]]]]]].
    + by destruct Hf.
    + exfalso. apply Hf. unfold filled_in. simpl. tauto.
    + exfalso. apply Hf. unfold filled_in. simpl. tauto.
    + done.
    + congruence.
  - intros [Hin Hl].
    assert (k <> "nics") as Hn
      by (intros ->; apply Hf; unfold filled_in; simpl; tauto).
    assert (k <> "disks") as Hd
      by (intros ->; apply Hf; unfold filled_in; simpl; tauto).
    apply map_payload_returned in H as (ig & np & Hc & ->).
    apply fill_defaults_grows.
    apply (prop_get_Some_In k (get payload k)).
    by apply (copy_listed_reaches payload ig).
Qed.

(** X10.  A key of the input that [VM_PAYLOAD] does not have (and that is no
    name of [Object.prototype]) is reported: the mapper logs the warning
    about ignored properties, and the warning names the key. *)
Theorem unknown_key_is_named_in_the_warning payload t out k :
  map_payload render payload = (t, Returned out) ->
  In k (keys payload) -> k <> "nics" -> k <> "disks" ->
  prop_get k VM_PAYLOAD = None -> inherited k = false ->
  exists ignored, t = [LogWarnIgnored ignored] /\ In k ignored.
Proof.
  intros H Hin Hn Hd Hl Hi. unfold map_payload in H.
  destruct (is_object payload); [|discriminate].
  destruct (copy_listed payload) as [ig [np| | | |]] eqn:Hc;
    try discriminate.
  assert (In k ig) as Hk.
  { unfold copy_listed in Hc.
    destruct (for_each_records _ _ _ _ _ _ Hin Hc)
      as (a & tx & a' & Hb & Hincl).
    apply Hincl. unfold map_payload_key in Hb.
    rewrite (proj2 (String.eqb_neq _ _) Hn) in Hb.
    rewrite (proj2 (String.eqb_neq _ _) Hd) in Hb.
    unfold table_get in Hb. rewrite Hl, Hi in Hb. cbn in Hb.
    inversion Hb. by left. }
  exists ig. split; [|done].
  destruct ig as [|x ig]; [destruct Hk|]. cbn in H. by inversion H.
Qed.

(** X11.  When the input has [nics] or [disks] and the value is not an array
    of objects, [map_payload] does not return a payload, and it logs
    nothing: the assertion of [map_thing] ends it. *)
Theorem malformed_things_are_rejected payload key :
  In key (keys payload) -> key = "nics" \/ key = "disks" ->
  (forall elems, get payload key = JArr elems ->
                 forallb is_object elems = false) ->
  fst (map_payload render payload) = [] /\
  forall out, snd (map_payload render payload) <> Returned out.
Proof.
  intros Hin Hkey Hbad.
  assert (forall MAP name,
            map_thing MAP name (get payload key) =
            ([], Thrown "things ([object]) is required")) as Hthrow.
  { intros MAP name. unfold map_thing.
    destruct (get payload key) as [| | | | |elems|] eqn:Hg; try done.
    by rewrite (Hbad elems eq_refl). }
  assert (forall np, snd (copy_listed payload) <> Returned np) as Hc.
  { unfold copy_listed. apply (for_each_stops _ _ _ key Hin).
    intros a a'. unfold map_payload_key.
    destruct Hkey as [-> | ->]; cbn [String.eqb Ascii.eqb Bool.eqb];
      rewrite Hthrow; discriminate. }
  unfold map_payload. destruct (is_object payload); [|by split].
  destruct (copy_listed payload) as [ig [np| | | |]]; try by split.
  by destruct (Hc np).
Qed.





End MapperDetails.

Section MapperScenarios.

Import Task MachineCreate Filtering Examples.

Lemma plain_example props :
  bool_decide (NoDup (map fst props)) = true ->
  forallb (fun k => negb (inherited k)) (map fst props) = true ->
  plain (JObj props).
Proof.
  intros Hnd Hin. exists props. split; [done|]. split.
  - by apply bool_decide_eq_true in Hnd.
  - apply Forall_forall. intros k Hk. apply list_elem_of_In in Hk.
    rewrite forallb_forall in Hin. by apply negb_true_iff, Hin.
Qed.

Lemma map_thing_of_plain_objects_witness :
  map_thing NIC_PAYLOAD "nic"
    (JArr [ JObj [("mac", JStr "90:b8:d0:35:36:16");
                  ("state", JStr "provisioning")];
            JObj [("gateway", JStr "10.0.0.1"); ("ip", JStr "10.0.0.2")] ]) =
    (["nic.1.gateway"],
     Returned [ JObj [("mac", JStr "90:b8:d0:35:36:16")];
                JObj [("ip", JStr "10.0.0.2")] ]).
Proof.
  apply (map_thing_of_plain_objects NIC_PAYLOAD "nic"
           [ JObj [("mac", JStr "90:b8:d0:35:36:16");
                   ("state", JStr "provisioning")];
             JObj [("gateway", JStr "10.0.0.1"); ("ip", JStr "10.0.0.2")] ]).
  repeat constructor; apply plain_example; vm_compute; reflexivity.
Defined.

Lemma listed_values_pass_through_witness :
  exists out,
    map_payload render create_params = ([], Returned out) /\
    get (JObj out) "ram" = get create_params "ram".
Proof.
  eexists. split; [vm_compute; reflexivity|].
  apply (listed_values_pass_through render create_params []).
  - vm_compute. reflexivity.
  - vm_compute. tauto.
  - reflexivity.
  - discriminate.
  - discriminate.
Defined.

Lemma map_payload_keeps_exactly_the_listed_keys_witness :
  exists out,
    map_payload render sample_payload = ([], Returned out) /\
    (In "firewall_enabled" (map fst out) <->
     In "firewall_enabled" (keys sample_payload) /\
     prop_get "firewall_enabled" VM_PAYLOAD = Some true).
Proof.
  eexists. split; [vm_compute; reflexivity|].
  apply (map_payload_keeps_exactly_the_listed_keys render sample_payload []).
  - vm_compute. reflexivity.
  - vm_compute. intuition discriminate.
  - reflexivity.
Defined.

Lemma unknown_key_is_named_in_the_warning_witness :
  exists ignored,
    [LogWarnIgnored ["flavour"; "nic.0.gateway"]] =
      [LogWarnIgnored ignored] /\
    In "flavour" ignored.
Proof.
  eapply (unknown_key_is_named_in_the_warning render
            (JObj [("uuid", JStr vm_uuid); ("flavour", JStr "mint");
                   ("nics", JArr [JObj [("ip", JStr "10.0.0.2");
                                        ("gateway", JStr "10.0.0.1")]])])).
  - vm_compute. reflexivity.
  - vm_compute. tauto.
  - discriminate.
  - discriminate.
  - reflexivity.
  - reflexivity.
Defined.

Lemma malformed_things_are_rejected_witness :
  fst (map_payload render
         (JObj [("uuid", JStr vm_uuid); ("flavour", JStr "mint");
                ("nics", JStr "net0")])) = [] /\
  forall out,
    snd (map_payload render
           (JObj [("uuid", JStr vm_uuid); ("flavour", JStr "mint");
                  ("nics", JStr "net0")])) <> Returned out.
Proof.
  apply (malformed_things_are_rejected render
           (JObj [("uuid", JStr vm_uuid); ("flavour", JStr "mint");
                  ("nics", JStr "net0")]) "nics").
  - vm_compute. tauto.
  - by left.
  - intros elems H. vm_compute in H. discriminate.
Defined.



End MapperScenarios.

(** ** How the tasks end *)

Section Outcomes.

Import Task Outcome.

Lemma terminal_app a b : terminal (a ++ b) = terminal a ++ terminal b.
Proof. unfold terminal. apply List.filter_app. Qed.

Lemma externals_app a b : externals (a ++ b) = externals a ++ externals b.
Proof. unfold externals. apply omap_app. Qed.

Lemma answers_bind {E A B} (m : W E A) (k : A -> W E B) :
  answers m -> (forall a, answers (k a)) -> answers (Flow.bind m k).
Proof.
  unfold answers. destruct m as [t [a| | | |]]; simpl; intros Hm Hk; try done.
  specialize (Hk a). by destruct (k a).
Qed.

Lemma answers_finally {E A B} (m : W E A) (cb : option js_error -> W E B) :
  answers m -> (forall e, answers (cb e)) -> answers (finally m cb).
Proof.
  unfold answers. destruct m as [t [a| | | |]]; simpl; intros Hm Hk; try done.
  - specialize (Hk None). by destruct (cb None).
  - specialize (Hk (Some err)). by destruct (cb (Some err)).
Qed.

Lemma answers_for_each {E A B} (body : B -> A -> W E A) xs acc :
  (forall x a, answers (body x a)) -> answers (for_each body xs acc).
Proof.
  intros Hb. revert acc. induction xs as [|x xs IH]; intros acc; [done|].
  simpl. apply answers_bind; [apply Hb|apply IH].
Qed.

Lemma unfinished_bind {A B} (m : W call A) (k : A -> W call B) :
  unfinished m -> (forall a, unfinished (k a)) -> unfinished (Flow.bind m k).
Proof.
  unfold unfinished. destruct m as [t [a| | | |]]; simpl; intros Hm Hk;
    try done.
  specialize (Hk a). destruct (k a) as [t' r]. simpl in *.
  by rewrite terminal_app, Hm, Hk.
Qed.

Lemma unfinished_finally {A B} (m : W call A)
    (cb : option js_error -> W call B) :
  unfinished m -> (forall e, unfinished (cb e)) -> unfinished (finally m cb).
Proof.
  unfold unfinished. destruct m as [t [a| | | |]]; simpl; intros Hm Hk;
    try done.
  - specialize (Hk None). destruct (cb None) as [t' r]. simpl in *.
    by rewrite terminal_app, Hm, Hk.
  - specialize (Hk (Some err)). destruct (cb (Some err)) as [t' r].
    simpl in *. by rewrite terminal_app, Hm, Hk.
Qed.

Lemma unfinished_for_each {A B} (body : B -> A -> W call A) xs acc :
  (forall x a, unfinished (body x a)) -> unfinished (for_each body xs acc).
Proof.
  intros Hb. revert acc. induction xs as [|x xs IH]; intros acc; [done|].
  simpl. apply unfinished_bind; [apply Hb|apply IH].
Qed.

Lemma handed_to_app op a b :
  handed_to op (a ++ b) = handed_to op a ++ handed_to op b.
Proof. unfold handed_to. apply omap_app. Qed.

(** What follows a computation matters only if the computation returns. *)
Lemma without_bind_returned {A B} op (m : W call A) (k : A -> W call B) :
  without op m ->
  (forall t a, m = (t, Returned a) -> without op (k a)) ->
  without op (Flow.bind m k).
Proof.
  unfold without. destruct m as [t [a| | | |]]; simpl; intros Hm Hk;
    try done.
  specialize (Hk t a eq_refl). destruct (k a) as [t' r]. simpl in *.
  by rewrite handed_to_app, Hm, Hk.
Qed.

Lemma without_bind {A B} op (m : W call A) (k : A -> W call B) :
  without op m -> (forall a, without op (k a)) -> without op (Flow.bind m k).
Proof.
  intros Hm Hk. apply without_bind_returned; [done|]. intros _ a _.
  apply Hk.
Qed.

Lemma without_finally {A B} op (m : W call A)
    (cb : option js_error -> W call B) :
  without op m -> (forall e, without op (cb e)) -> without op (finally m cb).
Proof.
  unfold without. destruct m as [t [a| | | |]]; simpl; intros Hm Hk;
    try done.
  - specialize (Hk None). destruct (cb None) as [t' r]. simpl in *.
    by rewrite handed_to_app, Hm, Hk.
  - specialize (Hk (Some err)). destruct (cb (Some err)) as [t' r].
    simpl in *. by rewrite handed_to_app, Hm, Hk.
Qed.

Lemma without_for_each {A B} op (body : B -> A -> W call A) xs acc :
  (forall x a, without op (body x a)) -> without op (for_each body xs acc).
Proof.
  intros Hb. revert acc. induction xs as [|x xs IH]; intros acc; [done|].
  simpl. apply without_bind; [apply Hb|apply IH].
Qed.

Lemma bind_ret_l {E A B} (a : A) (k : A -> W E B) :
  Flow.bind (ret a) k = k a.
Proof. unfold ret, Flow.bind. by destruct (k a). Qed.

Lemma in_order_app {E A} (fs gs : list (A -> W E A)) arg :
  in_order (fs ++ gs) arg = Flow.bind (in_order fs arg) (in_order gs).
Proof.
  revert arg. induction fs as [|f fs IH]; intros arg; simpl.
  - by destruct (in_order gs arg).
  - destruct (f arg) as [t [a| | | |]]; simpl; try done.
    rewrite IH. destruct (in_order fs a) as [t1 [a1| | | |]]; simpl; try done.
    destruct (in_order gs a1) as [t2 r]. by rewrite app_assoc.
Qed.

(** Once the first part of a pipeline has returned, the rest decides. *)
Lemma finally_bind_returned {E A B C} (m : W E A) (k : A -> W E B)
    (cb : option js_error -> W E C) t a :
  m = (t, Returned a) ->
  finally (Flow.bind m k) cb =
    (t ++ fst (finally (k a) cb), snd (finally (k a) cb)).
Proof.
  intros ->. simpl. destruct (k a) as [t1 [b| | | |]]; simpl; try done.
  - destruct (cb None) as [t2 r]. simpl. by rewrite <- app_assoc.
  - destruct (cb (Some err)) as [t2 r]. simpl. by rewrite <- app_assoc.
Qed.

Lemma stopped_bind {A B} (m : W call A) (k : A -> W call B) :
  stopped m -> (forall a, stopped (k a)) -> stopped (Flow.bind m k).
Proof.
  unfold stopped, unfinished, answers.
  destruct m as [t [a| | | |]]; simpl; intros [[Hu Ha]|[Hl Hs]] Hk;
    try done; try (left; by split); try (right; by split).
  specialize (Hk a). destruct (k a) as [t' r]. simpl in *.
  rewrite terminal_app, Hu. simpl. done.
Qed.

Lemma settled_bind {A B} (m : W call A) (k : A -> W call B) :
  stopped m -> (forall a, unfinished (k a) /\ answers (k a)) ->
  stopped (Flow.bind m k).
Proof.
  intros Hm Hk. apply stopped_bind; [done|]. intros a. left. apply Hk.
Qed.

Lemma ended_once_bind {A B} (m : W call A) (k : A -> W call B) :
  (exists a, snd m = Returned a) \/ (exists w, snd m = Thrown w) ->
  unfinished m -> (forall a, ended_once (k a)) -> ended_once (Flow.bind m k).
Proof.
  unfold ended_once, unfinished.
  destruct m as [t [a| | | |]]; simpl; intros [[? H]|[? H]] Hu Hk;
    try done.
  specialize (Hk a). destruct (k a) as [t' r]. simpl in *.
  by rewrite terminal_app, Hu.
Qed.

Lemma ended_once_finally {A B} (m : W call A)
    (cb : option js_error -> W call B) :
  stopped m ->
  (forall e,
     (length (terminal (fst (cb e))) = 1%nat /\
      exists b, snd (cb e) = Returned b) \/
     (terminal (fst (cb e)) = [] /\ exists w, snd (cb e) = Thrown w)) ->
  ended_once (finally m cb).
Proof.
  unfold stopped, ended_once, unfinished, answers.
  destruct m as [t [a| | | |]]; simpl; intros [[Hu Ha]|[Hl Hs]] Hk;
    try done.
  - destruct (Hk None) as [[H1 [b H2]]|[H1 [w H2]]];
      destruct (cb None) as [t' r]; simpl in *; subst r;
      by rewrite terminal_app, Hu, ?H1.
  - destruct (Hk (Some err)) as [[H1 [b H2]]|[H1 [w H2]]];
      destruct (cb (Some err)) as [t' r]; simpl in *; subst r;
      by rewrite terminal_app, Hu, ?H1.
Qed.

End Outcomes.

(** Goals [answers m] and [unfinished m] for a computation built from the
    combinators. *)
Ltac settle :=
  repeat first
    [ reflexivity
    | discriminate
    | apply answers_bind; [|intros ?]
    | apply answers_finally; [|intros ?]
    | apply answers_for_each; intros ? ?
    | apply unfinished_bind; [|intros ?]
    | apply unfinished_finally; [|intros ?]
    | apply unfinished_for_each; intros ? ?
    | apply without_bind; [|intros ?]
    | apply without_finally; [|intros ?]
    | apply without_for_each; intros ? ?
    | match goal with
      | |- Outcome.answers (match ?x with _ => _ end) => destruct x
      | |- Outcome.answers (let '(_, _) := ?x in _) => destruct x
      | |- Outcome.answers ((let '(_, _) := ?x in _) _) => destruct x
      | |- Outcome.answers (if ?x then _ else _) => destruct x
      | |- Outcome.unfinished (match ?x with _ => _ end) => destruct x
      | |- Outcome.unfinished (let '(_, _) := ?x in _) => destruct x
      | |- Outcome.unfinished (if ?x then _ else _) => destruct x
      | |- Outcome.without _ (match ?x with _ => _ end) => destruct x
      | |- Outcome.without _ (let '(_, _) := ?x in _) => destruct x
      | |- Outcome.without _ (if ?x then _ else _) => destruct x
      end ].

Section MachineCreateOutcomes.

Import Task MachineCreate Outcome.

Variable render : jsval -> string.
Variable is_uuid : string -> bool.
Variable world : collaborators.
Variable self : task.

Lemma member_of_get v key w :
  get v key = JStr w -> member_of v key = ret (JStr w).
Proof.
  unfold member_of. intros H. rewrite H.
  destruct v; try reflexivity; discriminate.
Qed.

(** X14.  With valid uuids, [pre_check] asks [vmadm.exists] once and calls
    back without an error exactly when the answer is that no such machine
    exists; an error of [vmadm.exists] is handed on, and an existing machine
    gives the error "Machine <uuid> exists.". *)
Theorem pre_check_outcome u h :
  get (req_params (req self)) "uuid" = JStr u -> is_uuid u = true ->
  get (req_sysinfo (req self)) "UUID" = JStr h -> is_uuid h = true ->
  pre_check render is_uuid world self =
    ([External "vmadm.exists" (JStr u)],
     match vmadm_exists world (JStr u) with
     | Err message => Failed (Error message)
     | Ok true => Failed (Error ("Machine " +:+ u +:+ " exists."))
     | Ok false => Returned tt
     end).
Proof.
  intros Hu Hv Hh Hw. unfold pre_check, assert_uuid.
  rewrite (member_of_get _ _ _ Hu), (member_of_get _ _ _ Hh). cbn.
  rewrite Hv, Hw. cbn. by destruct (vmadm_exists world (JStr u)) as [m|[|]].
Qed.

(** X15.  When [vmadm.exists] answers that the machine exists, or fails,
    [start] calls [fatal] once with the error's message and does nothing
    else: no lock file is asked for, [vmadm.create] and [vmadm.load] are
    not called, and the pipeline's callback is never reached. *)
Theorem existing_machine_is_left_alone u h h' :
  is_object (sysinfo self) = true ->
  get (sysinfo self) "UUID" = JStr h -> is_uuid h = true ->
  get (req_params (req self)) "uuid" = JStr u -> is_uuid u = true ->
  get (req_sysinfo (req self)) "UUID" = JStr h' -> is_uuid h' = true ->
  vmadm_exists world (JStr u) <> Ok false ->
  let run := start render is_uuid world self in
  externals (fst run) = ["vmadm.exists"] /\
  terminal (fst run) =
    [ Fatal (JStr match vmadm_exists world (JStr u) with
                  | Err message => message
                  | Ok _ => "Machine " +:+ u +:+ " exists."
                  end) JUndefined JUndefined ] /\
  snd run = Stalled.
Proof.
  intros Hso Hsu Hh Hu Hv Hru Hh' Hex.
  unfold start, pre_check, assert_object, assert_uuid.
  rewrite Hso, Hsu, Hh, (member_of_get _ _ _ Hu), (member_of_get _ _ _ Hru).
  cbn. rewrite Hv, Hh'. cbn.
  destruct (vmadm_exists world (JStr u)) as [m|[|]]; cbn; done.
Qed.

(** X16.  When everything up to [vmadm.create] succeeds and [vmadm.create]
    fails, the step that removes the lock file is skipped: [fs.unlink] is
    never called.  The machine is still loaded, and [fatal] is called once
    with the error's message, and with the machine if one was loaded. *)
Theorem failed_creation_keeps_the_lock_file u h h' warned new message :
  is_object (sysinfo self) = true ->
  get (sysinfo self) "UUID" = JStr h -> is_uuid h = true ->
  get (req_params (req self)) "uuid" = JStr u -> is_uuid u = true ->
  get (req_sysinfo (req self)) "UUID" = JStr h' -> is_uuid h' = true ->
  vmadm_exists world (JStr u) = Ok false ->
  map_payload render (req_params (req self)) = (warned, Returned new) ->
  vmadm_create world
    (prop_set "sysinfo" (sysinfo self)
       (prop_set "req_id" (req_id (req self))
          (prop_set "log" (log self) new))) = Err message ->
  let run := start render is_uuid world self in
  let machine := snd (vmadm_load world (JStr u)) in
  externals (fst run) =
    [ "vmadm.exists"; "common.provisionInProgressFile"; "vmadm.create";
      "vmadm.load" ] /\
  terminal (fst run) =
    [ if truthy machine
      then Fatal (JStr message) JNull (JObj [("vm", machine)])
      else Fatal (JStr message) JUndefined JUndefined ] /\
  snd run = Returned tt.
Proof.
  intros Hso Hsu Hh Hu Hv Hru Hh' Hex Hmap Hcr.
  unfold start, pre_check, assert_object, assert_uuid, build_payload,
    create_machine.
  rewrite Hso, Hsu, Hh, (member_of_get _ _ _ Hu), (member_of_get _ _ _ Hru).
  cbn. rewrite Hv, Hh'. cbn. rewrite Hex. cbn.
  rewrite Hmap. cbn. rewrite Hcr. cbn.
  destruct (vmadm_load world (JStr u)) as [loadError machine]. cbn.
  destruct (map_payload_trace _ _ _ _ Hmap) as [->|[ig ->]];
    destruct (truthy machine); cbn; done.
Qed.

Lemma pre_check_rejects :
  (forall u, get (req_params (req self)) "uuid" = JStr u ->
             is_uuid u = false) ->
  exists what, pre_check render is_uuid world self = ([], Thrown what).
Proof.
  intros Hbad. unfold pre_check, member_of, assert_uuid.
  destruct (req_params (req self)) as [| |b|n|s|elems|props] eqn:Hp;
    try (cbn; eauto; fail).
  all: match goal with
       | |- context [get ?v "uuid"] =>
           destruct (get v "uuid") as [| | | |u| |] eqn:Hg;
             try (cbn; eauto; fail)
       end.
  all: cbn; rewrite (Hbad u eq_refl); cbn; eauto.
Qed.

(** X17.  A request whose [params.uuid] is not a UUID makes [start] throw
    from the assertion in [pre_check]: neither [finish] nor [fatal] is
    called and no collaborator is touched. *)
Theorem invalid_uuid_throws h :
  is_object (sysinfo self) = true ->
  get (sysinfo self) "UUID" = JStr h -> is_uuid h = true ->
  (forall u, get (req_params (req self)) "uuid" = JStr u ->
             is_uuid u = false) ->
  let run := start render is_uuid world self in
  externals (fst run) = [] /\ terminal (fst run) = [] /\
  exists what, snd run = Thrown what.
Proof.
  intros Hso Hsu Hh Hbad. unfold start, assert_object, assert_uuid.
  rewrite Hso, Hsu, Hh. destruct (pre_check_rejects Hbad) as [what ->].
  cbn. eauto.
Qed.

Lemma pre_check_settled :
  unfinished (pre_check render is_uuid world self) /\
  answers (pre_check render is_uuid world self).
Proof. unfold pre_check, member_of, assert_uuid. split; settle. Qed.

Lemma map_payload_settled payload :
  unfinished (map_payload render payload) /\
  answers (map_payload render payload).
Proof.
  split.
  - unfold unfinished.
    destruct (map_payload render payload) as [t r] eqn:H.
    by destruct (map_payload_trace _ _ _ _ H) as [->|[ig ->]].
  - assert (answers (copy_listed payload)) as Hc.
    { unfold copy_listed, map_payload_key, map_thing, map_thing_key,
        set_property.
      settle. }
    unfold map_payload. destruct (is_object payload); [|done].
    unfold answers in *.
    destruct (copy_listed payload) as [ig [np| | | |]]; try done.
    by destruct (0 <? length ig)%nat.
Qed.

Lemma method_settled {A} name (fn : W call A) :
  unfinished fn -> answers fn ->
  unfinished (method name fn) /\ answers (method name fn).
Proof.
  intros Hu Ha. unfold method. destruct (prop_get name declared_steps);
    [|by split].
  unfold declared_step. split; settle; done.
Qed.

(** X18.  Whatever the request, the host and the collaborators' answers,
    [start] calls [finish] or [fatal] at most once and never both: exactly
    once when it runs to its end or stops after the failed pre-check, and
    not at all when it throws.  It never hands an error to a callback. *)
Theorem start_ends_exactly_once :
  ended_once (start render is_uuid world self).
Proof.
  unfold start.
  apply ended_once_bind; [| |intros _].
  { unfold assert_object.
    destruct (is_object _); [left|right]; by eexists. }
  { unfold assert_object. by destruct (is_object _). }
  apply ended_once_bind; [| |intros _].
  { unfold assert_uuid. destruct (get _ _); try (right; by eexists).
    destruct (is_uuid _); [left|right]; by eexists. }
  { unfold assert_uuid. destruct (get _ _); try done.
    by destruct (is_uuid _). }
  apply ended_once_finally.
  - cbn [in_order].
    apply settled_bind; [|intros arg1].
    { pose proof pre_check_settled as [Hu Ha].
      destruct (method_settled "pre_check" _ Hu Ha) as [Mu Ma].
      unfold unfinished, answers in Mu, Ma.
      unfold stopped, unfinished, answers.
      destruct (method "pre_check" _) as [t [[]|e| |w|w]];
        cbn [fst snd finally ret emit stall Flow.bind app] in *.
      - left. by rewrite app_nil_r.
      - right. rewrite terminal_app, Mu. by split.
      - done.
      - by left.
      - by left. }
    unfold member_of, ensure_dataset_present, fetch_dataset, build_payload,
      create_machine.
    split; settle; apply map_payload_settled.
  - intros e. unfold member_of.
    destruct (req_params (req self));
      try (right; split; [done|by eexists]);
      cbn; destruct (vmadm_load world _) as [[m|] machine];
      destruct e as [e|]; try destruct (truthy machine); cbn;
      left; (split; [done|by eexists]).
Qed.

End MachineCreateOutcomes.

Section RecoveryOutcomes.

Import Task RecoveryConfig Outcome.

Variable render : jsval -> string.
Variable is_uuid : string -> bool.
Variable sha512_hex : jsval -> option string.
Variable repeatableUUIDFromHexString : jsval -> option string.
Variable world : collaborators.
Variable self : task.

Lemma steps_settled v :
  let steps :=
    [ bailIfMissingPreconditions self;
      retrieveKbmapiAddresses render world;
      getSysinfo;
      onlyStagedConfigCanBeActivated repeatableUUIDFromHexString self;
      saveTemplate world self;
      doAction sha512_hex self;
      sysinfoUpdate world;
      postUpdatesToKbmapi render sha512_hex repeatableUUIDFromHexString
        world self ] in
  unfinished (in_order steps v) /\ answers (in_order steps v).
Proof.
  cbv zeta.
  cbn [in_order].
  unfold bailIfMissingPreconditions, retrieveKbmapiAddresses, getSysinfo,
    onlyStagedConfigCanBeActivated, saveTemplate, doAction, sysinfoUpdate,
    postUpdatesToKbmapi, uuid_from, digest_of, recovery_update,
    MachineCreate.member_of, set_property.
  split; settle.
Qed.

(** X19.  Whatever the request, the host and the collaborators' answers, the
    recovery task calls [finish] or [fatal] exactly once when it runs to
    its end, and neither when it throws. *)
Theorem recovery_ends_exactly_once :
  ended_once
    (start render is_uuid sha512_hex repeatableUUIDFromHexString world self).
Proof.
  unfold start.
  apply ended_once_bind; [| |intros _].
  { unfold MachineCreate.assert_object.
    destruct (is_object _); [left|right]; by eexists. }
  { unfold MachineCreate.assert_object. by destruct (is_object _). }
  apply ended_once_bind; [| |intros _].
  { unfold MachineCreate.assert_uuid.
    destruct (get _ _); try (right; by eexists).
    destruct (is_uuid _); [left|right]; by eexists. }
  { unfold MachineCreate.assert_uuid. destruct (get _ _); try done.
    by destruct (is_uuid _). }
  apply ended_once_bind; [| |intros _].
  { unfold MachineCreate.member_of.
    destruct (req_params self); try (right; by eexists); left; by eexists. }
  { unfold MachineCreate.member_of. by destruct (req_params self). }
  apply ended_once_finally.
  - left. apply steps_settled.
  - intros [e|]; left; (split; [done|by eexists]).
Qed.

(** The first two steps hand on the variables they were given, as far as
    the host's sysinfo goes. *)
Lemma bail_returns v t v' :
  bailIfMissingPreconditions self v = (t, Returned v') -> v' = v.
Proof.
  unfold bailIfMissingPreconditions.
  repeat match goal with
         | |- context [if ?c then _ else _] => destruct c
         end; by inversion 1.
Qed.

Lemma retrieve_keeps_sysinfo v t v' :
  retrieveKbmapiAddresses render world v = (t, Returned v') ->
  the_sysinfo v' = the_sysinfo v.
Proof.
  unfold retrieveKbmapiAddresses, MachineCreate.member_of.
  destruct (getSdcConfig world) as [m|cfg]; [by inversion 1|].
  destruct cfg; cbn; try (by inversion 1);
    destruct (dns_resolve world _) as [m|[|addr addrs]]; cbn;
    by inversion 1.
Qed.

(** X21.  On a host whose zpool is not encrypted the recovery task changes
    nothing, whatever the request and the collaborators' answers: sysinfo
    is never written and nothing is sent to KBMAPI. *)
Theorem unencrypted_host_is_never_updated :
  truthy (get (sysinfo self) "Zpool Encrypted") = false ->
  let run :=
    start render is_uuid sha512_hex repeatableUUIDFromHexString world self in
  handed_to "shared.writeSysinfo" (fst run) = [] /\
  handed_to "client.put" (fst run) = [].
Proof.
  intros Henc.
  assert (forall op, op = "shared.writeSysinfo" \/ op = "client.put" ->
            without op
              (start render is_uuid sha512_hex repeatableUUIDFromHexString
                 world self)) as H.
  { intros op Hop. unfold start.
    unfold MachineCreate.assert_object, MachineCreate.assert_uuid,
      MachineCreate.member_of.
    apply without_bind; [settle|intros _].
    apply without_bind; [settle|intros _].
    apply without_bind; [settle|intros _].
    apply without_finally; [|intros e; settle].
    cbn [in_order].
    apply without_bind_returned; [|intros t1 v1 E1].
    { unfold bailIfMissingPreconditions. settle. }
    apply bail_returns in E1. subst v1.
    apply without_bind_returned; [|intros t2 v2 E2].
    { unfold retrieveKbmapiAddresses, MachineCreate.member_of.
      destruct Hop as [-> | ->]; settle. }
    apply retrieve_keeps_sysinfo in E2. cbn [the_sysinfo] in E2.
    unfold getSysinfo. rewrite E2, Henc. reflexivity. }
  split; apply H; tauto.
Qed.

(** The variables after [getSysinfo]. *)
Lemma getSysinfo_returns v t v' :
  getSysinfo v = (t, Returned v') ->
  the_sysinfo v' = the_sysinfo v /\
  zpoolRecovery v' =
    (if truthy (get (the_sysinfo v) "Zpool Recovery")
     then get (the_sysinfo v) "Zpool Recovery" else JObj []).
Proof.
  unfold getSysinfo. destruct (negb _); cbn; [discriminate|].
  by inversion 1.
Qed.

(** X22.  Only the staged configuration can be activated: unless the
    [recovery_uuid] of an activation request is the UUID derived from the
    digest staged on the host, sysinfo is not written and nothing is sent
    to KBMAPI, whatever the collaborators answer. *)
Theorem activation_needs_the_staged_uuid :
  strict_eq_str (param self "action") "activate" = true ->
  (forall u,
     repeatableUUIDFromHexString
       (get (if truthy (get (sysinfo self) "Zpool Recovery")
             then get (sysinfo self) "Zpool Recovery" else JObj [])
            "staged") = Some u ->
     strict_eq_str (param self "recovery_uuid") u = false) ->
  let run :=
    start render is_uuid sha512_hex repeatableUUIDFromHexString world self in
  handed_to "shared.writeSysinfo" (fst run) = [] /\
  handed_to "client.put" (fst run) = [].
Proof.
  intros Hact Hbad.
  assert (forall op, op = "shared.writeSysinfo" \/ op = "client.put" ->
            without op
              (start render is_uuid sha512_hex repeatableUUIDFromHexString
                 world self)) as H.
  { intros op Hop. unfold start.
    unfold MachineCreate.assert_object, MachineCreate.assert_uuid,
      MachineCreate.member_of.
    apply without_bind; [settle|intros _].
    apply without_bind; [settle|intros _].
    apply without_bind; [settle|intros _].
    apply without_finally; [|intros e; settle].
    cbn [in_order].
    apply without_bind_returned; [|intros t1 v1 E1].
    { unfold bailIfMissingPreconditions. settle. }
    apply bail_returns in E1. subst v1.
    apply without_bind_returned; [|intros t2 v2 E2].
    { unfold retrieveKbmapiAddresses, MachineCreate.member_of.
      destruct Hop as [-> | ->]; settle. }
    apply retrieve_keeps_sysinfo in E2. cbn [the_sysinfo] in E2.
    apply without_bind_returned; [|intros t3 v3 E3].
    { unfold getSysinfo. settle. }
    apply getSysinfo_returns in E3 as [_ E3]. rewrite E2 in E3.
    unfold onlyStagedConfigCanBeActivated, uuid_from.
    rewrite Hact, E3.
    destruct (repeatableUUIDFromHexString _) as [u|] eqn:Hu; [|reflexivity].
    cbn. by rewrite (Hbad u eq_refl). }
  split; apply H; tauto.
Qed.

End RecoveryOutcomes.

Section RecoveryRuns.

Import Task RecoveryConfig Outcome Requests.

Variable render : jsval -> string.
Variable is_uuid : string -> bool.
Variable sha512_hex : jsval -> option string.
Variable repeatableUUIDFromHexString : jsval -> option string.

Lemma member_of_object v key :
  is_object v = true -> MachineCreate.member_of v key = ret (get v key).
Proof. by destruct v. Qed.

(** The first step accepts exactly the well-formed requests. *)
Lemma bail_accepts self v :
  well_formed (req_params self) = true ->
  bailIfMissingPreconditions self v = ret v.
Proof.
  unfold well_formed, bailIfMissingPreconditions, param.
  destruct (truthy (get _ "action")), (truthy (get _ "pivtoken")),
    (truthy (get _ "recovery_uuid")),
    (strict_eq_str (get _ "action") "activate"),
    (strict_eq_str (get _ "action") "stage"),
    (truthy (get _ "template")); cbn; done.
Qed.

Lemma bail_refuses self v :
  well_formed (req_params self) = false ->
  exists message,
    In message [ "Missing required request parameters";
                 "Invalid value for action parameter";
                 "Missing template request parameter" ] /\
    bailIfMissingPreconditions self v = fail (Error message).
Proof.
  unfold well_formed, bailIfMissingPreconditions, param.
  destruct (truthy (get _ "action")), (truthy (get _ "pivtoken")),
    (truthy (get _ "recovery_uuid")),
    (strict_eq_str (get _ "action") "activate"),
    (strict_eq_str (get _ "action") "stage"),
    (truthy (get _ "template")); cbn; try done;
    intros _; eexists; (split; [|reflexivity]); simpl; tauto.
Qed.

(** With a valid host identity and a request object, [start] is its
    pipeline. *)
Lemma opening world self h :
  is_object (sysinfo self) = true ->
  get (sysinfo self) "UUID" = JStr h -> is_uuid h = true ->
  is_object (req_params self) = true ->
  start render is_uuid sha512_hex repeatableUUIDFromHexString world self =
  finally
    (in_order
       (preparation render sha512_hex repeatableUUIDFromHexString world self
        ++ publication render sha512_hex repeatableUUIDFromHexString
             world self)
       (initial self))
    (recoveryConfigTaskCb render).
Proof.
  intros Hso Hsu Hh Hp. unfold start.
  unfold MachineCreate.assert_object, MachineCreate.assert_uuid.
  rewrite Hso, Hsu, Hh, (member_of_object _ _ Hp).
  by rewrite !bind_ret_l.
Qed.

(** X20.  A request that lacks [action], [pivtoken] or [recovery_uuid], names
    an action other than 'activate' and 'stage', or stages without a
    template, is refused before anything is touched: [start] calls [fatal]
    with one of three messages and does nothing else. *)
Theorem malformed_recovery_request_is_refused world self h :
  is_object (sysinfo self) = true ->
  get (sysinfo self) "UUID" = JStr h -> is_uuid h = true ->
  is_object (req_params self) = true ->
  well_formed (req_params self) = false ->
  exists message,
    In message [ "Missing required request parameters";
                 "Invalid value for action parameter";
                 "Missing template request parameter" ] /\
    start render is_uuid sha512_hex repeatableUUIDFromHexString world self =
      ([ Fatal (JStr ("Recovery Configuration error: " +:+ message))
               JUndefined JUndefined ],
       Returned tt).
Proof.
  intros Hso Hsu Hh Hp Hwf. rewrite (opening world self h) by done.
  destruct (bail_refuses self (initial self) Hwf) as (message & Hin & E).
  exists message. split; [done|].
  unfold preparation. cbn [app in_order]. by rewrite E.
Qed.

(** The first three steps of a run that gets past them. *)
Lemma first_steps world self cfg addr addrs :
  well_formed (req_params self) = true ->
  getSdcConfig world = Ok cfg -> is_object cfg = true ->
  dns_resolve world (kbmapi_domain render cfg) = Ok (addr :: addrs) ->
  truthy (get (sysinfo self) "Zpool Encrypted") = true ->
  in_order
    [ bailIfMissingPreconditions self;
      retrieveKbmapiAddresses render world;
      getSysinfo ] (initial self) =
  ([ External "common.getSdcConfig" JUndefined;
     LogInfo "kbmapi domain name";
     External "dns.resolve" (JStr (kbmapi_domain render cfg));
     Progress 10; Progress 25 ],
   Returned {| kbmapiaddr := addr;
               server_uuid := get (sysinfo self) "UUID";
               templateFile := JUndefined;
               zpoolRecovery := recovery_of (sysinfo self);
               zpool := get (sysinfo self) "Zpool";
               the_sysinfo := sysinfo self |}).
Proof.
  intros Hwf Hcfg Hco Hdns Henc. cbn [in_order].
  rewrite (bail_accepts self _ Hwf), bind_ret_l.
  unfold retrieveKbmapiAddresses. rewrite Hcfg.
  rewrite !(member_of_object _ _ Hco).
  fold (kbmapi_domain render cfg). cbn.
  unfold kbmapi_domain in Hdns. rewrite Hdns. cbn.
  unfold getSysinfo. cbn. rewrite Henc. cbn. reflexivity.
Qed.

(** The last step never writes sysinfo. *)
Lemma publication_tail world self v :
  without "shared.writeSysinfo"
    (finally
       (in_order
          [ postUpdatesToKbmapi render sha512_hex
              repeatableUUIDFromHexString world self ] v)
       (recoveryConfigTaskCb render)).
Proof.
  cbn [in_order].
  unfold postUpdatesToKbmapi, recoveryConfigTaskCb, uuid_from, digest_of,
    set_property.
  settle.
Qed.

(** Once the preparation has returned, sysinfo is written exactly once:
    the host's sysinfo with the new recovery record. *)
Lemma written_once world self t6 v6 props :
  in_order
    (preparation render sha512_hex repeatableUUIDFromHexString world self)
    (initial self) = (t6, Returned v6) ->
  handed_to "shared.writeSysinfo" t6 = [] ->
  the_sysinfo v6 = JObj props ->
  handed_to "shared.writeSysinfo"
    (fst (finally
            (in_order
               (preparation render sha512_hex repeatableUUIDFromHexString
                  world self
                ++ publication render sha512_hex
                     repeatableUUIDFromHexString world self)
               (initial self))
            (recoveryConfigTaskCb render))) =
  [ JObj (prop_set "Zpool Recovery" (zpoolRecovery v6) props) ].
Proof.
  intros E6 H6 Hs.
  rewrite in_order_app, (finally_bind_returned _ _ _ _ _ E6). cbn [fst].
  rewrite handed_to_app, H6. cbn [app].
  unfold publication.
  change (in_order [?f; ?g] v6) with (Flow.bind (f v6) (in_order [g])).
  unfold sysinfoUpdate at 1. rewrite Hs, bind_ret_l.
  destruct (writeSysinfo world _) as [message|[]] eqn:Hw.
  - reflexivity.
  - match goal with
    | |- context [finally (Flow.bind ?m ?k) ?cb] =>
        rewrite (finally_bind_returned m k cb
                   [ External "shared.writeSysinfo"
                       (JObj (prop_set "Zpool Recovery" (zpoolRecovery v6)
                                props));
                     Progress 75 ]
                   {| kbmapiaddr := kbmapiaddr v6;
                      server_uuid := server_uuid v6;
                      templateFile := templateFile v6;
                      zpoolRecovery := zpoolRecovery v6;
                      zpool := zpool v6;
                      the_sysinfo :=
                        JObj (prop_set "Zpool Recovery" (zpoolRecovery v6)
                                props) |})
    end.
    + cbn [fst]. rewrite handed_to_app, publication_tail. reflexivity.
    + reflexivity.
Qed.

Lemma get_remove_key key k o :
  get (JObj (remove_key key o)) k =
  if String.eqb k key then JUndefined else get (JObj o) k.
Proof.
  unfold get, remove_key. cbn [own_props].
  induction o as [|[j w] o IH]; [by destruct (String.eqb k key)|].
  rewrite filter_cons. cbn [fst].
  destruct (String.eqb_spec j key) as [->|Hj]; cbn [negb].
  - rewrite decide_False by (by intros []). rewrite IH. cbn [prop_get fst].
    destruct (String.eqb_spec k key) as [->|Hk]; [done|]. done.
  - rewrite decide_True by done. cbn [prop_get fst snd].
    destruct (String.eqb_spec k j) as [->|Hkj].
    + by rewrite (proj2 (String.eqb_neq _ _) Hj).
    + exact IH.
Qed.

Lemma in_order_split {E A} (fs gs : list (A -> W E A)) arg t a :
  in_order fs arg = (t, Returned a) ->
  in_order (fs ++ gs) arg = (t ++ fst (in_order gs a), snd (in_order gs a)).
Proof.
  intros H. rewrite in_order_app, H. simpl.
  by destruct (in_order gs a).
Qed.

(** The preparation of a staging request that goes through. *)
Lemma stage_preparation world self cfg addr addrs r d :
  well_formed (req_params self) = true ->
  getSdcConfig world = Ok cfg -> is_object cfg = true ->
  dns_resolve world (kbmapi_domain render cfg) = Ok (addr :: addrs) ->
  truthy (get (sysinfo self) "Zpool Encrypted") = true ->
  recovery_of (sysinfo self) = JObj r ->
  param self "action" = JStr "stage" ->
  sha512_hex (param self "template") = Some d ->
  exists t6 v6,
    in_order
      (preparation render sha512_hex repeatableUUIDFromHexString world self)
      (initial self) = (t6, Returned v6) /\
    handed_to "shared.writeSysinfo" t6 = [] /\
    progress_calls t6 = [10; 25; 50; 65]%Z /\
    the_sysinfo v6 = sysinfo self /\
    zpoolRecovery v6 = JObj (prop_set "staged" (JStr d) r).
Proof.
  intros Hwf Hcfg Hco Hdns Henc Hr Hact Hd.
  pose proof (first_steps world self cfg addr addrs Hwf Hcfg Hco Hdns Henc)
    as E3.
  rewrite Hr in E3. eexists _, _. split.
  - change (preparation render sha512_hex repeatableUUIDFromHexString
              world self)
      with ([ bailIfMissingPreconditions self;
              retrieveKbmapiAddresses render world; getSysinfo ] ++
            [ onlyStagedConfigCanBeActivated repeatableUUIDFromHexString
                self;
              saveTemplate world self; doAction sha512_hex self ]).
    rewrite (in_order_split _ _ _ _ _ E3). cbn [in_order].
    unfold onlyStagedConfigCanBeActivated, saveTemplate, doAction,
      digest_of, recovery_update.
    rewrite Hact, Hd. cbn. reflexivity.
  - cbn. auto.
Qed.

(** The preparation of an activation request that goes through. *)
Lemma activate_preparation world self cfg addr addrs r u :
  well_formed (req_params self) = true ->
  getSdcConfig world = Ok cfg -> is_object cfg = true ->
  dns_resolve world (kbmapi_domain render cfg) = Ok (addr :: addrs) ->
  truthy (get (sysinfo self) "Zpool Encrypted") = true ->
  recovery_of (sysinfo self) = JObj r ->
  param self "action" = JStr "activate" ->
  repeatableUUIDFromHexString (get (JObj r) "staged") = Some u ->
  param self "recovery_uuid" = JStr u ->
  exists t6 v6,
    in_order
      (preparation render sha512_hex repeatableUUIDFromHexString world self)
      (initial self) = (t6, Returned v6) /\
    handed_to "shared.writeSysinfo" t6 = [] /\
    progress_calls t6 = [10; 25; 65]%Z /\
    the_sysinfo v6 = sysinfo self /\
    zpoolRecovery v6 =
      JObj (remove_key "staged"
              (prop_set "active" (get (JObj r) "staged") r)).
Proof.
  intros Hwf Hcfg Hco Hdns Henc Hr Hact Hu Hru.
  pose proof (first_steps world self cfg addr addrs Hwf Hcfg Hco Hdns Henc)
    as E3.
  rewrite Hr in E3. eexists _, _. split.
  - change (preparation render sha512_hex repeatableUUIDFromHexString
              world self)
      with ([ bailIfMissingPreconditions self;
              retrieveKbmapiAddresses render world; getSysinfo ] ++
            [ onlyStagedConfigCanBeActivated repeatableUUIDFromHexString
                self;
              saveTemplate world self; doAction sha512_hex self ]).
    rewrite (in_order_split _ _ _ _ _ E3). cbn [in_order].
    unfold onlyStagedConfigCanBeActivated, saveTemplate, doAction,
      uuid_from, recovery_update.
    rewrite Hact. cbn [strict_eq_str String.eqb Ascii.eqb Bool.eqb].
    cbn [zpoolRecovery]. rewrite Hu, Hru. cbn [strict_eq_str].
    rewrite bind_ret_l, String.eqb_refl. cbn. reflexivity.
  - cbn. auto.
Qed.

(** X23.  A staging request that goes through writes sysinfo exactly once:
    the host's sysinfo in which the recovery record has [staged] set to the
    digest of the template, and is otherwise as before. *)
Theorem staging_records_the_digest world self h cfg addr addrs props r d :
  sysinfo self = JObj props ->
  get (sysinfo self) "UUID" = JStr h -> is_uuid h = true ->
  truthy (get (sysinfo self) "Zpool Encrypted") = true ->
  recovery_of (sysinfo self) = JObj r ->
  is_object (req_params self) = true ->
  well_formed (req_params self) = true ->
  param self "action" = JStr "stage" ->
  sha512_hex (param self "template") = Some d ->
  getSdcConfig world = Ok cfg -> is_object cfg = true ->
  dns_resolve world (kbmapi_domain render cfg) = Ok (addr :: addrs) ->
  handed_to "shared.writeSysinfo"
    (fst (start render is_uuid sha512_hex repeatableUUIDFromHexString
            world self)) =
  [ JObj (prop_set "Zpool Recovery" (JObj (prop_set "staged" (JStr d) r))
            props) ].
Proof.
  intros Hs Hsu Hh Henc Hr Hp Hwf Hact Hd Hcfg Hco Hdns.
  rewrite (opening world self h) by first [done | by rewrite Hs].
  destruct (stage_preparation world self cfg addr addrs r d)
    as (t6 & v6 & E6 & H6 & _ & Hv & Hz); try done.
  rewrite (written_once world self t6 v6 props E6 H6) by congruence.
  by rewrite Hz.
Qed.

(** X24.  An activation request that names the staged configuration and goes
    through writes sysinfo exactly once: the host's sysinfo in which the
    recovery record has the staged digest as [active] and no [staged]. *)
Theorem activation_promotes_the_staged_digest
    world self h cfg addr addrs props r u :
  sysinfo self = JObj props ->
  get (sysinfo self) "UUID" = JStr h -> is_uuid h = true ->
  truthy (get (sysinfo self) "Zpool Encrypted") = true ->
  recovery_of (sysinfo self) = JObj r ->
  is_object (req_params self) = true ->
  well_formed (req_params self) = true ->
  param self "action" = JStr "activate" ->
  repeatableUUIDFromHexString (get (JObj r) "staged") = Some u ->
  param self "recovery_uuid" = JStr u ->
  getSdcConfig world = Ok cfg -> is_object cfg = true ->
  dns_resolve world (kbmapi_domain render cfg) = Ok (addr :: addrs) ->
  exists recovery,
    handed_to "shared.writeSysinfo"
      (fst (start render is_uuid sha512_hex repeatableUUIDFromHexString
              world self)) =
    [ JObj (prop_set "Zpool Recovery" (JObj recovery) props) ] /\
    get (JObj recovery) "active" = get (JObj r) "staged" /\
    get (JObj recovery) "staged" = JUndefined /\
    forall k, k <> "active" -> k <> "staged" ->
              get (JObj recovery) k = get (JObj r) k.
Proof.
  intros Hs Hsu Hh Henc Hr Hp Hwf Hact Hu Hru Hcfg Hco Hdns.
  rewrite (opening world self h) by first [done | by rewrite Hs].
  destruct (activate_preparation world self cfg addr addrs r u)
    as (t6 & v6 & E6 & H6 & _ & Hv & Hz); try done.
  rewrite (written_once world self t6 v6 props E6 H6) by congruence.
  rewrite Hz. eexists. split; [reflexivity|].
  split; [|split; [|intros k Hk1 Hk2]];
    rewrite get_remove_key, ?get_prop_set.
  - reflexivity.
  - reflexivity.
  - by rewrite (proj2 (String.eqb_neq _ _) Hk1),
      (proj2 (String.eqb_neq _ _) Hk2).
Qed.

(** X25.  Staging a template and then activating it: the sysinfo written by
    a staging request, taken as the host's sysinfo of an activation request
    that names the UUID derived from the template's digest, is written back
    with that digest as the active configuration and nothing staged. *)
Theorem stage_then_activate
    world world' params params' props h cfg addr addrs cfg' addr' addrs'
    r d u :
  get (JObj props) "UUID" = JStr h -> is_uuid h = true ->
  truthy (get (JObj props) "Zpool Encrypted") = true ->
  recovery_of (JObj props) = JObj r ->
  is_object params = true -> well_formed params = true ->
  get params "action" = JStr "stage" ->
  sha512_hex (get params "template") = Some d ->
  getSdcConfig world = Ok cfg -> is_object cfg = true ->
  dns_resolve world (kbmapi_domain render cfg) = Ok (addr :: addrs) ->
  is_object params' = true -> well_formed params' = true ->
  get params' "action" = JStr "activate" ->
  repeatableUUIDFromHexString (JStr d) = Some u ->
  get params' "recovery_uuid" = JStr u ->
  getSdcConfig world' = Ok cfg' -> is_object cfg' = true ->
  dns_resolve world' (kbmapi_domain render cfg') = Ok (addr' :: addrs') ->
  exists staged activated,
    handed_to "shared.writeSysinfo"
      (fst (start render is_uuid sha512_hex repeatableUUIDFromHexString
              world {| req_params := params; sysinfo := JObj props |})) =
      [staged] /\
    handed_to "shared.writeSysinfo"
      (fst (start render is_uuid sha512_hex repeatableUUIDFromHexString
              world' {| req_params := params'; sysinfo := staged |})) =
      [activated] /\
    get (get activated "Zpool Recovery") "active" = JStr d /\
    get (get activated "Zpool Recovery") "staged" = JUndefined /\
    get activated "UUID" = JStr h.
Proof.
  intros Hsu Hh Henc Hr Hp Hwf Hact Hd Hcfg Hco Hdns
    Hp' Hwf' Hact' Hu Hru Hcfg' Hco' Hdns'.
  set (self := {| req_params := params; sysinfo := JObj props |}).
  set (r' := prop_set "staged" (JStr d) r).
  set (props' := prop_set "Zpool Recovery" (JObj r') props).
  set (self' := {| req_params := params'; sysinfo := JObj props' |}).
  exists (JObj props').
  exists (JObj (prop_set "Zpool Recovery"
                  (JObj (remove_key "staged"
                           (prop_set "active" (get (JObj r') "staged") r')))
                  props')).
  assert (get (JObj props') "UUID" = JStr h) as Hsu'.
  { unfold props'. by rewrite get_prop_set. }
  assert (truthy (get (JObj props') "Zpool Encrypted") = true) as Henc'.
  { unfold props'. by rewrite get_prop_set. }
  assert (recovery_of (JObj props') = JObj r') as Hr'.
  { unfold recovery_of, props'. by rewrite get_prop_set. }
  assert (get (JObj r') "staged" = JStr d) as Hst.
  { unfold r'. by rewrite get_prop_set. }
  split; [|split; [|split; [|split]]].
  - fold self. rewrite (opening world self h) by done.
    destruct (stage_preparation world self cfg addr addrs r d)
      as (t6 & v6 & E6 & H6 & _ & Hv & Hz); try done.
    rewrite (written_once world self t6 v6 props E6 H6) by done.
    by rewrite Hz.
  - fold self'. rewrite (opening world' self' h) by done.
    destruct (activate_preparation world' self' cfg' addr' addrs' r' u)
      as (t6 & v6 & E6 & H6 & _ & Hv & Hz); try done.
    { by rewrite Hst. }
    rewrite (written_once world' self' t6 v6 props' E6 H6) by done.
    by rewrite Hz.
  - rewrite get_prop_set. cbn [String.eqb Ascii.eqb Bool.eqb].
    rewrite get_remove_key, get_prop_set.
    cbn [String.eqb Ascii.eqb Bool.eqb]. exact Hst.
  - rewrite get_prop_set. cbn [String.eqb Ascii.eqb Bool.eqb].
    by rewrite get_remove_key.
  - by rewrite get_prop_set.
Qed.

(** X26.  An activation request on a host where the UUID of the staged
    configuration cannot be derived (nothing is staged) makes [start] throw
    in its fourth step: [fatal] and [finish] are not called, and nothing is
    written. *)
Theorem activation_with_nothing_staged_throws world self h cfg addr addrs :
  is_object (sysinfo self) = true ->
  get (sysinfo self) "UUID" = JStr h -> is_uuid h = true ->
  truthy (get (sysinfo self) "Zpool Encrypted") = true ->
  is_object (req_params self) = true ->
  well_formed (req_params self) = true ->
  param self "action" = JStr "activate" ->
  repeatableUUIDFromHexString
    (get (recovery_of (sysinfo self)) "staged") = None ->
  getSdcConfig world = Ok cfg -> is_object cfg = true ->
  dns_resolve world (kbmapi_domain render cfg) = Ok (addr :: addrs) ->
  start render is_uuid sha512_hex repeatableUUIDFromHexString world self =
    ([ External "common.getSdcConfig" JUndefined;
       LogInfo "kbmapi domain name";
       External "dns.resolve" (JStr (kbmapi_domain render cfg));
       Progress 10; Progress 25 ],
     Thrown "TypeError: first argument must be a string").
Proof.
  intros Hso Hsu Hh Henc Hp Hwf Hact Hu Hcfg Hco Hdns.
  rewrite (opening world self h) by done.
  pose proof (first_steps world self cfg addr addrs Hwf Hcfg Hco Hdns Henc)
    as E3.
  change (preparation render sha512_hex repeatableUUIDFromHexString
            world self ++
          publication render sha512_hex repeatableUUIDFromHexString
            world self)
    with ([ bailIfMissingPreconditions self;
            retrieveKbmapiAddresses render world; getSysinfo ] ++
          [ onlyStagedConfigCanBeActivated repeatableUUIDFromHexString self;
            saveTemplate world self; doAction sha512_hex self;
            sysinfoUpdate world;
            postUpdatesToKbmapi render sha512_hex
              repeatableUUIDFromHexString world self ]).
  rewrite (in_order_split _ _ _ _ _ E3).
  cbn [in_order].
  match goal with
  | |- context [onlyStagedConfigCanBeActivated ?f ?s ?v] =>
      assert (onlyStagedConfigCanBeActivated f s v =
              throw "TypeError: first argument must be a string") as E4
  end.
  { unfold onlyStagedConfigCanBeActivated, uuid_from.
    rewrite Hact. cbn [strict_eq_str String.eqb Ascii.eqb Bool.eqb].
    cbn [zpoolRecovery]. by rewrite Hu. }
  rewrite E4. reflexivity.
Qed.

(** X27.  When the DNS answer for the KBMAPI name is empty, the step calls
    back with a bare string instead of an [Error]; the callback of the
    waterfall reads [err.message], which a string does not have, and the
    task fails with the message "Recovery Configuration error: undefined". *)
Theorem empty_dns_answer_loses_its_message world self h cfg :
  is_object (sysinfo self) = true ->
  get (sysinfo self) "UUID" = JStr h -> is_uuid h = true ->
  is_object (req_params self) = true ->
  well_formed (req_params self) = true ->
  getSdcConfig world = Ok cfg -> is_object cfg = true ->
  dns_resolve world (kbmapi_domain render cfg) = Ok [] ->
  start render is_uuid sha512_hex repeatableUUIDFromHexString world self =
    ([ External "common.getSdcConfig" JUndefined;
       LogInfo "kbmapi domain name";
       External "dns.resolve" (JStr (kbmapi_domain render cfg));
       Fatal (JStr "Recovery Configuration error: undefined")
             JUndefined JUndefined ],
     Returned tt).
Proof.
  intros Hso Hsu Hh Hp Hwf Hcfg Hco Hdns.
  rewrite (opening world self h) by done.
  unfold preparation. cbn [app in_order].
  rewrite (bail_accepts self _ Hwf), bind_ret_l.
  unfold retrieveKbmapiAddresses at 1. rewrite Hcfg.
  rewrite !(member_of_object _ _ Hco).
  fold (kbmapi_domain render cfg). cbn.
  unfold kbmapi_domain in Hdns. rewrite Hdns. reflexivity.
Qed.

End RecoveryRuns.

Section TaskScenarios.

Import Task Outcome Requests Examples Worlds.

Lemma pre_check_outcome_witness :
  MachineCreate.pre_check render is_uuid calm create_task =
    ([External "vmadm.exists" (JStr vm_uuid)], Returned tt).
Proof.
  apply (pre_check_outcome render is_uuid calm create_task vm_uuid
           "8acf94fb-5f16-44ee-b4ab-20a1431cf3a3");
    reflexivity.
Defined.

Lemma existing_machine_is_left_alone_witness :
  let run := MachineCreate.start render is_uuid occupied create_task in
  externals (fst run) = ["vmadm.exists"] /\
  terminal (fst run) =
    [ Fatal (JStr ("Machine " +:+ vm_uuid +:+ " exists."))
            JUndefined JUndefined ] /\
  snd run = Stalled.
Proof.
  apply (existing_machine_is_left_alone render is_uuid occupied create_task
           vm_uuid "8acf94fb-5f16-44ee-b4ab-20a1431cf3a3"
           "8acf94fb-5f16-44ee-b4ab-20a1431cf3a3");
    first [reflexivity | discriminate].
Defined.

Lemma failed_creation_keeps_the_lock_file_witness :
  let run := MachineCreate.start render is_uuid create_fails create_task in
  externals (fst run) =
    [ "vmadm.exists"; "common.provisionInProgressFile"; "vmadm.create";
      "vmadm.load" ] /\
  terminal (fst run) =
    [ Fatal (JStr "insufficient space") JUndefined JUndefined ] /\
  snd run = Returned tt.
Proof.
  eapply (failed_creation_keeps_the_lock_file render is_uuid create_fails
            create_task vm_uuid "8acf94fb-5f16-44ee-b4ab-20a1431cf3a3"
            "8acf94fb-5f16-44ee-b4ab-20a1431cf3a3" _ _
            "insufficient space");
    reflexivity.
Defined.

Lemma invalid_uuid_throws_witness :
  let run := MachineCreate.start render is_uuid calm misnamed_task in
  externals (fst run) = [] /\ terminal (fst run) = [] /\
  exists what, snd run = Thrown what.
Proof.
  apply (invalid_uuid_throws render is_uuid calm misnamed_task
           "8acf94fb-5f16-44ee-b4ab-20a1431cf3a3");
    try reflexivity.
  intros u H. vm_compute in H. by inversion H.
Defined.

Lemma malformed_recovery_request_is_refused_witness :
  exists message,
    In message [ "Missing required request parameters";
                 "Invalid value for action parameter";
                 "Missing template request parameter" ] /\
    RecoveryConfig.start render is_uuid digest uuid_of_hex recovery_world
      reboot_task =
      ([ Fatal (JStr ("Recovery Configuration error: " +:+ message))
               JUndefined JUndefined ],
       Returned tt).
Proof.
  apply (malformed_recovery_request_is_refused render is_uuid digest
           uuid_of_hex recovery_world reboot_task
           "8acf94fb-5f16-44ee-b4ab-20a1431cf3a3");
    reflexivity.
Defined.

Lemma unencrypted_host_is_never_updated_witness :
  let run :=
    RecoveryConfig.start render is_uuid digest uuid_of_hex recovery_world
      plain_host_task in
  handed_to "shared.writeSysinfo" (fst run) = [] /\
  handed_to "client.put" (fst run) = [].
Proof.
  apply (unencrypted_host_is_never_updated render is_uuid digest uuid_of_hex
           recovery_world plain_host_task).
  reflexivity.
Defined.

Lemma activation_needs_the_staged_uuid_witness :
  let run :=
    RecoveryConfig.start render is_uuid digest uuid_of_hex recovery_world
      other_activation in
  handed_to "shared.writeSysinfo" (fst run) = [] /\
  handed_to "client.put" (fst run) = [].
Proof.
  apply (activation_needs_the_staged_uuid render is_uuid digest uuid_of_hex
           recovery_world other_activation).
  - reflexivity.
  - intros u H. vm_compute in H. by inversion H.
Defined.

Lemma staging_records_the_digest_witness :
  handed_to "shared.writeSysinfo"
    (fst (RecoveryConfig.start render is_uuid digest uuid_of_hex
            recovery_world stage_task)) =
  [ JObj [ ("UUID", JStr "8acf94fb-5f16-44ee-b4ab-20a1431cf3a3");
           ("Zpool", JStr "zones"); ("Zpool Encrypted", JBool true);
           ("Zpool Recovery",
            JObj [("staged", JStr "sha512:AQIDBA==")]) ] ].
Proof.
  apply (staging_records_the_digest render is_uuid digest uuid_of_hex
           recovery_world stage_task "8acf94fb-5f16-44ee-b4ab-20a1431cf3a3"
           coal (JStr "10.99.99.5") []
           [ ("UUID", JStr "8acf94fb-5f16-44ee-b4ab-20a1431cf3a3");
             ("Zpool", JStr "zones"); ("Zpool Encrypted", JBool true);
             ("Zpool Recovery", JObj [("staged", JStr "0badcafe")]) ]
           [("staged", JStr "0badcafe")] "sha512:AQIDBA==");
    reflexivity.
Defined.

Lemma activation_promotes_the_staged_digest_witness :
  exists recovery,
    handed_to "shared.writeSysinfo"
      (fst (RecoveryConfig.start render is_uuid digest uuid_of_hex
              recovery_world activate_task)) =
    [ JObj (prop_set "Zpool Recovery" (JObj recovery)
              [ ("UUID", JStr "8acf94fb-5f16-44ee-b4ab-20a1431cf3a3");
                ("Zpool", JStr "zones"); ("Zpool Encrypted", JBool true);
                ("Zpool Recovery",
                 JObj [("staged", JStr "0badcafe")]) ]) ] /\
    get (JObj recovery) "active" =
      get (JObj [("staged", JStr "0badcafe")]) "staged" /\
    get (JObj recovery) "staged" = JUndefined /\
    forall k, k <> "active" -> k <> "staged" ->
              get (JObj recovery) k =
              get (JObj [("staged", JStr "0badcafe")]) k.
Proof.
  apply (activation_promotes_the_staged_digest render is_uuid digest
           uuid_of_hex recovery_world activate_task
           "8acf94fb-5f16-44ee-b4ab-20a1431cf3a3"
           coal (JStr "10.99.99.5") []
           [ ("UUID", JStr "8acf94fb-5f16-44ee-b4ab-20a1431cf3a3");
             ("Zpool", JStr "zones"); ("Zpool Encrypted", JBool true);
             ("Zpool Recovery", JObj [("staged", JStr "0badcafe")]) ]
           [("staged", JStr "0badcafe")] "uuid:0badcafe");
    reflexivity.
Defined.

Lemma stage_then_activate_witness :
  exists staged activated,
    handed_to "shared.writeSysinfo"
      (fst (RecoveryConfig.start render is_uuid digest uuid_of_hex
              recovery_world
              {| RecoveryConfig.req_params := first_stage;
                 RecoveryConfig.sysinfo := fresh_host |})) = [staged] /\
    handed_to "shared.writeSysinfo"
      (fst (RecoveryConfig.start render is_uuid digest uuid_of_hex
              recovery_world
              {| RecoveryConfig.req_params := first_activation;
                 RecoveryConfig.sysinfo := staged |})) = [activated] /\
    get (get activated "Zpool Recovery") "active" =
      JStr "sha512:AQIDBA==" /\
    get (get activated "Zpool Recovery") "staged" = JUndefined /\
    get activated "UUID" = JStr "8acf94fb-5f16-44ee-b4ab-20a1431cf3a3".
Proof.
  apply (stage_then_activate render is_uuid digest uuid_of_hex
           recovery_world recovery_world first_stage first_activation
           [ ("UUID", JStr "8acf94fb-5f16-44ee-b4ab-20a1431cf3a3");
             ("Zpool", JStr "zones"); ("Zpool Encrypted", JBool true) ]
           "8acf94fb-5f16-44ee-b4ab-20a1431cf3a3"
           coal (JStr "10.99.99.5") [] coal (JStr "10.99.99.5") []
           [] "sha512:AQIDBA==" "uuid:sha512:AQIDBA==");
    reflexivity.
Defined.

Lemma activation_with_nothing_staged_throws_witness :
  RecoveryConfig.start render is_uuid digest uuid_of_hex recovery_world
    early_activation =
    ([ External "common.getSdcConfig" JUndefined;
       LogInfo "kbmapi domain name";
       External "dns.resolve" (JStr "kbmapi.coal.joyent.us");
       Progress 10; Progress 25 ],
     Thrown "TypeError: first argument must be a string").
Proof.
  apply (activation_with_nothing_staged_throws render is_uuid digest
           uuid_of_hex recovery_world early_activation
           "8acf94fb-5f16-44ee-b4ab-20a1431cf3a3"
           coal (JStr "10.99.99.5") []);
    reflexivity.
Defined.

Lemma empty_dns_answer_loses_its_message_witness :
  RecoveryConfig.start render is_uuid digest uuid_of_hex no_kbmapi
    stage_task =
    ([ External "common.getSdcConfig" JUndefined;
       LogInfo "kbmapi domain name";
       External "dns.resolve" (JStr "kbmapi.coal.joyent.us");
       Fatal (JStr "Recovery Configuration error: undefined")
             JUndefined JUndefined ],
     Returned tt).
Proof.
  apply (empty_dns_answer_loses_its_message render is_uuid digest
           uuid_of_hex no_kbmapi stage_task
           "8acf94fb-5f16-44ee-b4ab-20a1431cf3a3" coal);
    reflexivity.
Defined.

End TaskScenarios.

(** ** The UUID of a digest *)

Section UuidFacts.

Import Uuid.

Local Open Scope Z_scope.

(** A property checked on every number below [n] holds below [n]. *)
Lemma range_check (P : Z -> bool) (n : nat) :
  forallb P (map Z.of_nat (seq 0 n)) = true ->
  forall y, 0 <= y < Z.of_nat n -> P y = true.
Proof.
  intros H y Hy. rewrite forallb_forall in H. apply H.
  apply in_map_iff. exists (Z.to_nat y). split; [lia|].
  apply in_seq. lia.
Qed.

Lemma byte_digits b :
  byte b ->
  lower_hex (hex_digit_of (Z.shiftr b 4)) = true /\
  lower_hex (hex_digit_of (Z.land b 15)) = true /\
  hex_value (hex_digit_of (Z.shiftr b 4)) = Some (Z.shiftr b 4) /\
  hex_value (hex_digit_of (Z.land b 15)) = Some (Z.land b 15) /\
  16 * Z.shiftr b 4 + Z.land b 15 = b.
Proof.
  intros Hb.
  pose proof (range_check
    (fun b => lower_hex (hex_digit_of (Z.shiftr b 4)) &&
              lower_hex (hex_digit_of (Z.land b 15)) &&
              bool_decide (hex_value (hex_digit_of (Z.shiftr b 4)) =
                           Some (Z.shiftr b 4)) &&
              bool_decide (hex_value (hex_digit_of (Z.land b 15)) =
                           Some (Z.land b 15)) &&
              (16 * Z.shiftr b 4 + Z.land b 15 =? b))
    256 eq_refl b Hb) as H.
  cbv beta in H.
  apply andb_true_iff in H as [H H5]. apply andb_true_iff in H as [H H4].
  apply andb_true_iff in H as [H H3]. apply andb_true_iff in H as [H1 H2].
  apply bool_decide_eq_true in H3, H4. apply Z.eqb_eq in H5. done.
Qed.

Lemma version_bits x :
  byte (Z.lor (Z.land x 0x0f) 0x50) /\
  Z.shiftr (Z.lor (Z.land x 0x0f) 0x50) 4 = 5.
Proof.
  assert (0 <= Z.land x 15 < 16) as Hx.
  { change 15 with (Z.ones 4). rewrite Z.land_ones by lia.
    apply Z.mod_pos_bound. lia. }
  pose proof (range_check
    (fun y => (0 <=? Z.lor y 80) && (Z.lor y 80 <? 256) &&
              (Z.shiftr (Z.lor y 80) 4 =? 5))
    16 eq_refl _ Hx) as H.
  cbv beta in H.
  apply andb_true_iff in H as [H H3]. apply andb_true_iff in H as [H1 H2].
  apply Z.leb_le in H1. apply Z.ltb_lt in H2. apply Z.eqb_eq in H3.
  unfold byte. done.
Qed.

Lemma variant_bits x :
  byte (Z.lor (Z.land x 0x3f) 0xa0) /\
  (Z.shiftr (Z.lor (Z.land x 0x3f) 0xa0) 4 = 10 \/
   Z.shiftr (Z.lor (Z.land x 0x3f) 0xa0) 4 = 11).
Proof.
  assert (0 <= Z.land x 63 < 64) as Hx.
  { change 63 with (Z.ones 6). rewrite Z.land_ones by lia.
    apply Z.mod_pos_bound. lia. }
  pose proof (range_check
    (fun y => (0 <=? Z.lor y 160) && (Z.lor y 160 <? 256) &&
              ((Z.shiftr (Z.lor y 160) 4 =? 10) ||
               (Z.shiftr (Z.lor y 160) 4 =? 11)))
    64 eq_refl _ Hx) as H.
  cbv beta in H.
  apply andb_true_iff in H as [H H3]. apply andb_true_iff in H as [H1 H2].
  apply Z.leb_le in H1. apply Z.ltb_lt in H2.
  apply orb_true_iff in H3 as [H3|H3]; apply Z.eqb_eq in H3;
    unfold byte; auto.
Qed.

(** The decoded bytes are bytes. *)
Lemma pairs_bytes s : Forall byte (pairs s).
Proof.
  assert (forall s, Forall byte (pairs s) /\
                    forall c, Forall byte (pairs (String c s))) as H.
  { clear s. induction s as [|b s [IH1 IH2]].
    - split; [constructor|intros c; constructor].
    - split; [apply IH2|]. intros a. cbn [pairs].
      destruct (hex_value a) as [hi|] eqn:Ha; [|constructor].
      destruct (hex_value b) as [lo|] eqn:Hb; [|constructor].
      constructor; [|done].
      assert (forall c v, hex_value c = Some v -> 0 <= v < 16) as Hv.
      { intros c v. unfold hex_value.
        repeat match goal with
               | |- context [if ?t then _ else _] => destruct t eqn:?
               end; intros [= <-]; lia. }
      pose proof (Hv _ _ Ha). pose proof (Hv _ _ Hb). unfold byte. lia. }
  apply H.
Qed.

(** Text written by [toString('hex')] is read back as the same bytes. *)
Lemma pairs_to_hex buf :
  Forall byte buf ->
  pairs (to_hex buf) = buf /\
  Nat.even (String.length (to_hex buf)) = true.
Proof.
  induction 1 as [|b buf Hb _ [IH1 IH2]]; [done|].
  destruct (byte_digits b Hb) as (_ & _ & H1 & H2 & H3).
  cbn [to_hex pairs String.length Nat.even]. by rewrite H1, H2, H3, IH1.
Qed.

(** The shape of the result for up to sixteen bytes. *)
Lemma dashed_matches B :
  Forall byte B -> (length B <= 16)%nat ->
  UUID_RE (dashed (to_hex B)) = (length B =? 16)%nat.
Proof.
  intros HB Hlen.
  let rec cases n :=
    lazymatch n with
    | O => idtac
    | S ?n' => destruct B as [|? B]; [|cases n']
    end in
  cases 17%nat; try (cbn [length] in Hlen; lia).
  all: repeat match goal with
              | H : Forall byte (_ :: _) |- _ =>
                  apply Forall_cons in H as [? H]
              end.
  all: repeat match goal with
              | H : byte ?b |- _ =>
                  destruct (byte_digits b H) as (? & ? & _); clear H
              end.
  all: unfold UUID_RE, dashed;
       cbv -[Z.shiftr Z.land hex_digit_of lower_hex];
       repeat match goal with
              | H : lower_hex ?c = true |- context [lower_hex ?c] =>
                  rewrite H
              end;
       reflexivity.
Qed.

Local Open Scope nat_scope.

(** The sixteen bytes the text of the UUID is made from. *)
Lemma masked_bytes buf :
  Forall byte buf ->
  let B :=
    take 16
      (<[6 := Z.lor (Z.land (byte_at
                               (<[8 := Z.lor (Z.land (byte_at buf 8) 0x3f)
                                         0xa0]> buf) 6) 0x0f) 0x50]>
         (<[8 := Z.lor (Z.land (byte_at buf 8) 0x3f) 0xa0]> buf)) in
  Forall byte B /\ length B = min 16 (length buf).
Proof.
  intros HB. cbv zeta. split.
  - apply Forall_take, Forall_insert; [|apply version_bits].
    apply Forall_insert; [done|apply variant_bits].
  - by rewrite length_take, !length_insert.
Qed.

(** X28.  [repeatableUUIDFromHexString] gives text that matches [UUID_RE]
    exactly when its argument holds at least sixteen bytes: from fewer
    bytes it still returns a text, but not a UUID. *)
Theorem repeatable_uuid_is_a_uuid_from_16_bytes_on hexStr buf :
  buffer_from hexStr = Some buf -> Forall byte buf ->
  exists uuid,
    repeatableUUIDFromHexString hexStr = Some uuid /\
    (UUID_RE uuid = true <-> 16 <= length buf).
Proof.
  intros Hbuf HB. unfold repeatableUUIDFromHexString. rewrite Hbuf.
  eexists. split; [reflexivity|]. cbv zeta.
  destruct (masked_bytes buf HB) as [HF Hl]. cbv zeta in HF, Hl.
  fold (dashed (to_hex (take 16
    (<[6 := Z.lor (Z.land (byte_at
                             (<[8 := Z.lor (Z.land (byte_at buf 8) 0x3f)
                                       0xa0]> buf) 6) 0x0f) 0x50]>
       (<[8 := Z.lor (Z.land (byte_at buf 8) 0x3f) 0xa0]> buf))))).
  rewrite dashed_matches by (done || lia). rewrite Hl.
  rewrite Nat.eqb_eq. lia.
Qed.

(** X29.  When the argument holds at least sixteen bytes, the result carries
    the version digit 5 and a variant digit a or b, whatever the bytes
    are. *)
Theorem repeatable_uuid_version_and_variant hexStr buf uuid :
  buffer_from hexStr = Some buf -> 16 <= length buf ->
  repeatableUUIDFromHexString hexStr = Some uuid ->
  String.get 14 uuid = Some "5"%char /\
  (String.get 19 uuid = Some "a"%char \/ String.get 19 uuid = Some "b"%char).
Proof.
  intros Hbuf Hlen. unfold repeatableUUIDFromHexString. rewrite Hbuf.
  intros [= <-].
  let rec cases n :=
    lazymatch n with
    | O => idtac
    | S ?n' => destruct buf as [|? buf]; [cbn [length] in Hlen; lia|cases n']
    end in
  cases 16.
  clear Hbuf Hlen.
  cbv -[Z.shiftr Z.land Z.lor hex_digit_of].
  match goal with
  | |- context [hex_digit_of (Z.shiftr (Z.lor (Z.land ?x 15) 80) 4)] =>
      destruct (version_bits x) as [_ Hv]
  end.
  match goal with
  | |- context [hex_digit_of (Z.shiftr (Z.lor (Z.land ?x 63) 160) 4)] =>
      destruct (variant_bits x) as [_ Hr]
  end.
  change (Z.pos 15) with 15%Z in *. change (Z.pos 80) with 80%Z in *.
  cbv [dashed] in *. rewrite Hv. split; [reflexivity|].
  destruct Hr as [-> | ->]; [left|right]; reflexivity.
Qed.

(** X30.  The buffer of a digest and its hexadecimal text give the same
    UUID: writing bytes with [toString('hex')] and reading them back with
    [Buffer.from(_, 'hex')] is the identity. *)
Theorem repeatable_uuid_of_buffer_and_of_its_text bytes :
  Forall byte bytes ->
  buffer_from (Text (to_hex bytes)) = Some bytes /\
  repeatableUUIDFromHexString (Text (to_hex bytes)) =
  repeatableUUIDFromHexString (Buf bytes).
Proof.
  intros HB. destruct (pairs_to_hex bytes HB) as [H1 H2].
  assert (buffer_from (Text (to_hex bytes)) = Some bytes) as H.
  { unfold buffer_from. by rewrite H2, H1. }
  split; [done|]. unfold repeatableUUIDFromHexString. by rewrite H.
Qed.

End UuidFacts.

Section UuidScenarios.

Import Uuid.

Lemma repeatable_uuid_is_a_uuid_from_16_bytes_on_witness :
  exists uuid,
    repeatableUUIDFromHexString
      (Text "00112233445566778899AABBCCDDEEFF0badcafe") = Some uuid /\
    (UUID_RE uuid = true <->
     (16 <= length (pairs "00112233445566778899AABBCCDDEEFF0badcafe"))%nat).
Proof.
  apply (repeatable_uuid_is_a_uuid_from_16_bytes_on
           (Text "00112233445566778899AABBCCDDEEFF0badcafe")).
  - reflexivity.
  - apply pairs_bytes.
Defined.

Lemma repeatable_uuid_version_and_variant_witness :
  String.get 14 "00112233-4455-5677-a899-aabbccddeeff" = Some "5"%char /\
  (String.get 19 "00112233-4455-5677-a899-aabbccddeeff" = Some "a"%char \/
   String.get 19 "00112233-4455-5677-a899-aabbccddeeff" = Some "b"%char).
Proof.
  apply (repeatable_uuid_version_and_variant
           (Text "00112233445566778899AABBCCDDEEFF0badcafe")
           (pairs "00112233445566778899AABBCCDDEEFF0badcafe")).
  - reflexivity.
  - vm_compute. lia.
  - vm_compute. reflexivity.
Defined.

Lemma repeatable_uuid_of_buffer_and_of_its_text_witness :
  buffer_from (Text (to_hex [222; 173; 190; 239]%Z)) =
    Some [222; 173; 190; 239]%Z /\
  repeatableUUIDFromHexString (Text (to_hex [222; 173; 190; 239]%Z)) =
  repeatableUUIDFromHexString (Buf [222; 173; 190; 239]%Z).
Proof.
  apply (repeatable_uuid_of_buffer_and_of_its_text [222; 173; 190; 239]%Z).
  repeat constructor; unfold byte; lia.
Defined.

(** The staged digest of the examples is too short to give a UUID. *)
Example short_digest :
  repeatableUUIDFromHexString (Text "0badcafe") = Some "0badcafe----" /\
  UUID_RE "0badcafe----" = false.
Proof. split; reflexivity. Qed.

End UuidScenarios.
